(** * claude-code-webui: the project-scoped file handlers

    A shallow embedding of [backend/history/pathUtils.ts] and of the file
    manager and upload handlers ([handleFilesList], [handleFileContent],
    [handleFileDownload], [handleUpload]), with the properties their
    specification states about them.

    A JavaScript string is a sequence of UTF-16 code units; every string
    operation of the handlers (includes, startsWith, split, the regular
    expressions without the [u] flag) works on code units, so a string is
    modelled as the list of its code units. *)

From Stdlib Require Import List NArith ZArith Bool Lia String Ascii.
From Stdlib Require Decimal.
From Stdlib Require Import Sorting.Sorted Sorting.Permutation.
Import ListNotations.

Set Implicit Arguments.
Set Warnings "-register-all".

(* ================================================================== *)
(** ** JavaScript strings and the built-in string operations used *)

Module JS.

Definition jsstring := list N.

(** A string literal of the source, ASCII only. *)
Definition lit (s : string) : jsstring :=
  map N_of_ascii (list_ascii_of_string s).

Definition slash : N := 47.
Definition dot : N := 46.
Definition quote : N := 34.
Definition backslash : N := 92.
Definition colon : N := 58.
Definition hyphen : N := 45.
Definition underscore : N := 95.

Fixpoint eqb (s t : jsstring) : bool :=
  match s, t with
  | [], [] => true
  | a :: s', b :: t' => N.eqb a b && eqb s' t'
  | _, _ => false
  end.

(** [s.startsWith(p)] *)
Fixpoint startsWith (s p : jsstring) {struct p} : bool :=
  match p, s with
  | [], _ => true
  | b :: p', a :: s' => N.eqb a b && startsWith s' p'
  | _ :: _, [] => false
  end.

(** [s.includes(sub)] *)
Fixpoint includes (s sub : jsstring) : bool :=
  startsWith s sub ||
  match s with
  | [] => false
  | _ :: s' => includes s' sub
  end.

(** [s.endsWith(p)] *)
Definition endsWith (s p : jsstring) : bool :=
  startsWith (rev s) (rev p).

(** [s.slice(0, -k)] *)
Definition slice0neg (s : jsstring) (k : nat) : jsstring :=
  firstn (List.length s - k) s.

(** [s.substring(k)] *)
Definition substring (s : jsstring) (k : nat) : jsstring := skipn k s.

(** [s.split(sep)] for a one-unit separator: never the empty array, the
    empty string splits into one empty string. *)
Fixpoint split (sep : N) (s : jsstring) : list jsstring :=
  match s with
  | [] => [[]]
  | c :: s' =>
      if N.eqb c sep then [] :: split sep s'
      else match split sep s' with
           | [] => [[c]]
           | w :: ws => (c :: w) :: ws
           end
  end.

(** [parts.join(sep)] *)
Fixpoint join (sep : jsstring) (parts : list jsstring) : jsstring :=
  match parts with
  | [] => []
  | [w] => w
  | w :: ws => w ++ sep ++ join sep ws
  end.

(** [s.replace(/[class]/g, r)] with a replacement that does not depend on
    the match: every unit of the class becomes [r]. *)
Definition replaceAll (cls : N -> bool) (r : N) (s : jsstring) : jsstring :=
  map (fun c => if cls c then r else c) s.

(** [s.replace(/^\/+/, empty)]: the leading slashes are removed. *)
Fixpoint stripLeadingSlashes (s : jsstring) : jsstring :=
  match s with
  | c :: s' => if N.eqb c slash then stripLeadingSlashes s' else s
  | [] => []
  end.

(** [s.replace(/\/$/, empty)]: without the [m] flag [$] is the end of the
    string, so at most one unit, the last one, is removed. *)
Fixpoint stripTrailingSlash (s : jsstring) : jsstring :=
  match s with
  | [] => []
  | [c] => if N.eqb c slash then [] else [c]
  | c :: s' => c :: stripTrailingSlash s'
  end.

(** [s.lastIndexOf(".")]: [None] stands for [-1]. *)
Fixpoint lastIndexOf (c : N) (s : jsstring) : option nat :=
  match s with
  | [] => None
  | a :: s' =>
      match lastIndexOf c s' with
      | Some i => Some (S i)
      | None => if N.eqb a c then Some 0%nat else None
      end
  end.

(** [!s] for a value of type [string | undefined | null]. *)
Definition falsy (o : option jsstring) : bool :=
  match o with
  | None | Some [] => true
  | Some (_ :: _) => false
  end.

(** [o || d] for such a value. *)
Definition orDefault (o : option jsstring) (d : jsstring) : jsstring :=
  match o with
  | None | Some [] => d
  | Some s => s
  end.

(** The decimal digits of a non-negative integer, as a template literal
    renders a number such as [Date.now()] or an array index. *)
Fixpoint digits (u : Decimal.uint) : jsstring :=
  match u with
  | Decimal.Nil => []
  | Decimal.D0 u => 48 :: digits u
  | Decimal.D1 u => 49 :: digits u
  | Decimal.D2 u => 50 :: digits u
  | Decimal.D3 u => 51 :: digits u
  | Decimal.D4 u => 52 :: digits u
  | Decimal.D5 u => 53 :: digits u
  | Decimal.D6 u => 54 :: digits u
  | Decimal.D7 u => 55 :: digits u
  | Decimal.D8 u => 56 :: digits u
  | Decimal.D9 u => 57 :: digits u
  end%N.

Definition numberToString (n : N) : jsstring := digits (N.to_uint n).

(** *** [encodeURIComponent]

    Units of the unreserved set are kept; any other unit is decoded as
    UTF-16 (a surrogate pair gives one code point), encoded as UTF-8 and
    each byte written [%XX] with upper-case hexadecimal digits.  A lone
    surrogate raises [URIError]: the result is [None]. *)

Local Open Scope N_scope.

Definition inRange (lo hi c : N) : bool := N.leb lo c && N.leb c hi.

Definition uriUnreserved (c : N) : bool :=
  inRange 65 90 c || inRange 97 122 c || inRange 48 57 c ||
  existsb (N.eqb c) [45; 95; 46; 33; 126; 42; 39; 40; 41]%N.

Definition hexDigit (d : N) : N :=
  if N.ltb d 10 then 48 + d else 55 + d.

Definition percentByte (b : N) : jsstring :=
  [37; hexDigit (b / 16); hexDigit (b mod 16)]%N.

Definition utf8 (cp : N) : list N :=
  if N.ltb cp 128 then [cp]
  else if N.ltb cp 2048 then [192 + cp / 64; 128 + cp mod 64]
  else if N.ltb cp 65536 then
    [224 + cp / 4096; 128 + (cp / 64) mod 64; 128 + cp mod 64]
  else
    [240 + cp / 262144; 128 + (cp / 4096) mod 64;
     128 + (cp / 64) mod 64; 128 + cp mod 64].

Definition isHighSurrogate (c : N) : bool := inRange 55296 56319 c.
Definition isLowSurrogate (c : N) : bool := inRange 56320 57343 c.

Definition percentCodePoint (cp : N) : jsstring :=
  flat_map percentByte (utf8 cp).

Fixpoint encodeURIComponent (s : jsstring) : option jsstring :=
  match s with
  | [] => Some []
  | c :: rest =>
      if uriUnreserved c then option_map (cons c) (encodeURIComponent rest)
      else if isLowSurrogate c then None
      else if isHighSurrogate c then
        match rest with
        | lo :: rest' =>
            if isLowSurrogate lo then
              option_map
                (app (percentCodePoint
                        ((c - 55296) * 1024 + (lo - 56320) + 65536)))
                (encodeURIComponent rest')
            else None
        | [] => None
        end
      else option_map (app (percentCodePoint c)) (encodeURIComponent rest)
  end.

(** [s.isWellFormed()]: no lone surrogate. *)
Fixpoint isWellFormed (s : jsstring) : bool :=
  match s with
  | [] => true
  | c :: rest =>
      if isLowSurrogate c then false
      else if isHighSurrogate c then
        match rest with
        | lo :: rest' => isLowSurrogate lo && isWellFormed rest'
        | [] => false
        end
      else isWellFormed rest
  end.

Local Close Scope N_scope.

(** *** [Array.prototype.sort]

    The sort is stable, and for a consistent comparator its result is the
    one sorted stable arrangement of the array; a stable insertion sort
    computes that arrangement.  [cmp a b <= 0] keeps [a] before [b]. *)

Section Sort.
Variable A : Type.
Variable cmp : A -> A -> Z.

Fixpoint insert (x : A) (l : list A) : list A :=
  match l with
  | [] => [x]
  | y :: l' => if Z.leb (cmp x y) 0 then x :: l else y :: insert x l'
  end.

Definition sort (l : list A) : list A := fold_right insert [] l.
End Sort.

(** *** Values produced by [JSON.parse]

    An object holds its own properties in the order [Object.entries]
    enumerates them.  A number never passes the test
    [v && typeof v === "object"], the only use made of one here. *)

Inductive JSValue :=
| JNull
| JBool (b : bool)
| JNumber
| JString (s : jsstring)
| JArray (items : list JSValue)
| JObject (props : list (jsstring * JSValue)).

(** [v.key]: [None] is a [TypeError] (property of [null]), [Some None] is
    [undefined]. *)
Definition getProp (v : JSValue) (key : jsstring) : option (option JSValue) :=
  match v with
  | JNull => None
  | JObject props =>
      Some (option_map snd (find (fun kv => eqb (fst kv) key) props))
  | _ => Some None
  end.

(** [v && typeof v === "object"] *)
Definition truthyObject (v : option JSValue) : bool :=
  match v with
  | Some (JObject _) | Some (JArray _) => true
  | _ => false
  end.

(** The keys of [Object.entries(v)] for a [v] that passed [truthyObject]:
    an array enumerates its indices. *)
Definition entryKeys (v : JSValue) : list jsstring :=
  match v with
  | JObject props => map fst props
  | JArray items =>
      map (fun i => numberToString (N.of_nat i)) (seq 0 (List.length items))
  | _ => []
  end.

End JS.

(* ================================================================== *)
(** ** Effects: the runtime interface, exceptions and the call trace *)

Module Effects.
Import JS.

(** What a [catch] clause receives: an [Error] with its message, or some
    other thrown value. *)
Inductive Thrown :=
| ErrorObject (message : jsstring)
| NotAnError.

Inductive Outcome (A : Type) :=
| Ret (a : A)
| Throw (e : Thrown).
Arguments Ret {A} a.
Arguments Throw {A} e.

(** The filesystem calls of the [Runtime] interface. *)
Inductive Call :=
| ReadTextFile (path : jsstring)
| ReadDir (path : jsstring)
| Exists (path : jsstring)
| Stat (path : jsstring)
| ReadBinaryFile (path : jsstring)
| Mkdir (path : jsstring)
| WriteBinaryFile (path : jsstring) (data : list N).

Definition Trace := list Call.

(** A computation ends with a value or an exception and carries the log of
    the filesystem calls it made, in the order they were made.  The runtime
    answers from one state of the filesystem: no handler reads back what it
    wrote. *)
Definition M (A : Type) := (Outcome A * Trace)%type.

Definition ret {A} (a : A) : M A := (Ret a, []).

Definition throw {A} (e : Thrown) : M A := (Throw e, []).

Definition bind {A B} (m : M A) (k : A -> M B) : M B :=
  match m with
  | (Ret a, t) => let (r, t') := k a in (r, t ++ t')
  | (Throw e, t) => (Throw e, t)
  end.

(** [try { m } catch (e) { h e }] *)
Definition tryCatch {A} (m : M A) (h : Thrown -> M A) : M A :=
  match m with
  | (Ret a, t) => (Ret a, t)
  | (Throw e, t) => let (r, t') := h e in (r, t ++ t')
  end.

(** A runtime call: logged, with its outcome. *)
Definition perform {A} (c : Call) (r : Outcome A) : M A := (r, [c]).

(** A built-in that may throw; nothing is logged. *)
Definition lift {A} (r : Outcome A) : M A := (r, []).

Fixpoint mapM {A B} (f : A -> M B) (l : list A) : M (list B) :=
  match l with
  | [] => ret []
  | x :: l' => bind (f x) (fun y => bind (mapM f l') (fun ys => ret (y :: ys)))
  end.

Record DirectoryEntry := {
  entry_name : jsstring;
  entry_isFile : bool;
  entry_isDirectory : bool
}.

Record FileStats := {
  stat_isFile : bool;
  stat_isDirectory : bool;
  stat_size : N;
  stat_mtime : option N        (* [Date | null], as epoch milliseconds *)
}.

(** The [Runtime] interface ([runtime/types.ts]); each filesystem method
    answers from the state of the filesystem or throws. *)
Record Runtime := {
  getHomeDir : option jsstring;
  getCurrentWorkingDirectory : jsstring;
  readTextFile : jsstring -> Outcome jsstring;
  readDir : jsstring -> Outcome (list DirectoryEntry);
  exists_ : jsstring -> Outcome bool;
  stat : jsstring -> Outcome FileStats;
  readBinaryFile : jsstring -> Outcome (list N);
  mkdir : jsstring -> Outcome unit;
  writeBinaryFile : jsstring -> list N -> Outcome unit
}.

(** What the JavaScript engine provides and is not modelled further. *)
Record Host := {
  JSON_parse : jsstring -> Outcome JSValue;
  toLowerCase : jsstring -> jsstring;
  localeCompare : jsstring -> jsstring -> Z;
  toISOString : N -> Outcome jsstring;
  (* [btoa(String.fromCharCode(...new Uint8Array(buffer)))] *)
  btoaFromCharCodes : list N -> Outcome jsstring;
  Date_now : N
}.

End Effects.

Declare Scope fx_scope.
Delimit Scope fx_scope with fx.
Notation "x <- m ;; k" := (Effects.bind m (fun x => k))
  (at level 61, m at next level, right associativity) : fx_scope.

(* ================================================================== *)
(** ** [backend/history/pathUtils.ts] *)

Module PathUtils.
Import JS Effects.
Local Open Scope fx_scope.

(** The class replaced by a hyphen: slash, backslash, colon and dot. *)
Definition encodedAway (c : N) : bool :=
  N.eqb c slash || N.eqb c backslash || N.eqb c colon || N.eqb c dot.

Definition normalizedPath (projectPath : jsstring) : jsstring :=
  stripTrailingSlash projectPath.

Definition expectedEncoded (projectPath : jsstring) : jsstring :=
  replaceAll encodedAway hyphen (normalizedPath projectPath).

(** The class of [dangerousChars]: the units [<], [>], [:], the double
    quote, [|], [?], [*], U+0000 to U+001F, the slash and the backslash. *)
Definition dangerousChars (c : N) : bool :=
  existsb (N.eqb c) [60; 62; 58; 34; 124; 63; 42]%N ||
  N.leb c 31 || N.eqb c slash || N.eqb c backslash.

Definition validateEncodedProjectName (encodedName : jsstring) : bool :=
  match encodedName with
  | [] => false
  | _ => negb (existsb dangerousChars encodedName)
  end.

Section WithRuntime.
Variable rt : Runtime.
Variable host : Host.

Definition getEncodedProjectName (projectPath : jsstring)
  : M (option jsstring) :=
  match getHomeDir rt with
  | None | Some [] => ret None
  | Some homeDir =>
      let projectsDir := homeDir ++ lit "/.claude/projects" in
      tryCatch
        (dir <- perform (ReadDir projectsDir) (readDir rt projectsDir) ;;
         let entries := map entry_name (filter entry_isDirectory dir) in
         if existsb (eqb (expectedEncoded projectPath)) entries
         then ret (Some (expectedEncoded projectPath))
         else ret None)
        (fun _ => ret None)
  end.

(** The loop over [Object.entries(config.projects)]. *)
Fixpoint findProject (encodedName : jsstring) (paths : list jsstring)
  : M (option jsstring) :=
  match paths with
  | [] => ret None
  | projectPath :: rest =>
      encoded <- getEncodedProjectName projectPath ;;
      match encoded with
      | Some e =>
          if eqb e encodedName then ret (Some projectPath)
          else findProject encodedName rest
      | None => findProject encodedName rest
      end
  end.

Definition getProjectPathFromEncodedName (encodedName : jsstring)
  : M (option jsstring) :=
  match getHomeDir rt with
  | None | Some [] => ret None
  | Some homeDir =>
      let claudeConfigPath := homeDir ++ lit "/.claude.json" in
      tryCatch
        (configContent <- perform (ReadTextFile claudeConfigPath)
                                  (readTextFile rt claudeConfigPath) ;;
         config <- lift (JSON_parse host configContent) ;;
         match getProp config (lit "projects") with
         | None =>
             throw (ErrorObject
                      (lit "Cannot read properties of null"))
         | Some projects =>
             if truthyObject projects then
               match projects with
               | Some v => findProject encodedName (entryKeys v)
               | None => ret None
               end
             else ret None
         end)
        (fun _ => ret None)
  end.
End WithRuntime.

End PathUtils.

(* ================================================================== *)
(** ** The file manager handlers *)

Module Files.
Import JS Effects PathUtils.
Local Open Scope fx_scope.

Inductive FileType := directory | file.

Record FileInfo := {
  name : jsstring;
  path : jsstring;
  type : FileType;
  size : option N;
  modifiedTime : option jsstring;
  extension : option jsstring
}.

Inductive Encoding := utf_8 | base64.

(** What [mimeTypes[extension] || fallback] evaluates to: a string of the
    table, the fallback, or, for a key that [Object.prototype] defines, the
    inherited member, which is truthy and not a string. *)
Inductive MimeValue :=
| MimeString (s : jsstring)
| InheritedMember (key : jsstring).

Inductive Body :=
| ErrorBody (error : jsstring)
| FilesListResponse (files : list FileInfo) (currentPath : jsstring)
| FileContentResponse (content : jsstring) (mime : MimeValue)
                      (encoding : Encoding) (size : N)
| FileBytes (buffer : list N) (contentType : MimeValue)
            (contentDisposition : jsstring) (contentLength : jsstring).

Record Response := { status : N; body : Body }.

(** [c.json(body, status)] *)
Definition json (b : Body) (st : N) : Response :=
  {| status := st; body := b |}.

Record Request := {
  param_encodedProjectName : option jsstring;
  param_path : option jsstring;
  query_path : option jsstring
}.

Section WithRuntime.
Variable rt : Runtime.
Variable host : Host.

Definition getFileExtension (filename : jsstring) : jsstring :=
  match lastIndexOf dot filename with
  | None => []
  | Some lastDot => toLowerCase host (substring filename (lastDot + 1))
  end.

Definition mimeTypes : list (jsstring * jsstring) :=
  map (fun kv => (lit (fst kv), lit (snd kv)))
    [ ("txt", "text/plain"); ("md", "text/markdown");
      ("json", "application/json"); ("js", "application/javascript");
      ("ts", "application/typescript"); ("jsx", "application/javascript");
      ("tsx", "application/typescript"); ("html", "text/html");
      ("css", "text/css"); ("xml", "application/xml");
      ("yaml", "text/yaml"); ("yml", "text/yaml"); ("toml", "text/toml");
      ("ini", "text/plain"); ("log", "text/plain");
      ("jpg", "image/jpeg"); ("jpeg", "image/jpeg"); ("png", "image/png");
      ("gif", "image/gif"); ("bmp", "image/bmp"); ("svg", "image/svg+xml");
      ("webp", "image/webp"); ("ico", "image/x-icon");
      ("pdf", "application/pdf"); ("doc", "application/msword");
      ("docx", "application/vnd.openxmlformats-officedocument.wordprocessingml.document");
      ("zip", "application/zip"); ("tar", "application/x-tar");
      ("gz", "application/gzip");
      ("mp3", "audio/mpeg"); ("mp4", "video/mp4");
      ("avi", "video/x-msvideo"); ("mov", "video/quicktime") ]%string.

(** The property names every object literal inherits. *)
Definition objectPrototypeKeys : list jsstring :=
  map lit
    [ "constructor"; "__proto__"; "toString"; "toLocaleString"; "valueOf";
      "hasOwnProperty"; "isPrototypeOf"; "propertyIsEnumerable";
      "__defineGetter__"; "__defineSetter__"; "__lookupGetter__";
      "__lookupSetter__" ]%string.

Definition getMimeType (extension : jsstring) : MimeValue :=
  match find (fun kv => eqb (fst kv) extension) mimeTypes with
  | Some kv => MimeString (snd kv)
  | None =>
      if existsb (eqb extension) objectPrototypeKeys
      then InheritedMember extension
      else MimeString (lit "application/octet-stream")
  end.

(** [mimeType.startsWith] is not a function on an inherited member. *)
Definition notAString {A} : Outcome A :=
  Throw (ErrorObject (lit "mimeType.startsWith is not a function")).

Definition isTextFile (mimeType : MimeValue) : Outcome bool :=
  match mimeType with
  | MimeString m =>
      Ret (startsWith m (lit "text/") ||
           eqb m (lit "application/json") ||
           eqb m (lit "application/javascript") ||
           eqb m (lit "application/typescript") ||
           eqb m (lit "application/xml"))
  | InheritedMember _ => notAString
  end.

Definition isImageFile (mimeType : MimeValue) : Outcome bool :=
  match mimeType with
  | MimeString m => Ret (startsWith m (lit "image/"))
  | InheritedMember _ => notAString
  end.

Definition safeResolvePath (basePath relativePath : jsstring) : jsstring :=
  let cleanPath := stripLeadingSlashes relativePath in
  let parts :=
    filter (fun part =>
              negb (eqb part []) && negb (eqb part (lit ".")) &&
              negb (eqb part (lit "..")))
           (split slash cleanPath) in
  basePath ++ lit "/" ++ join (lit "/") parts.

(** The guard of the three handlers:
    [p.includes(dotdot) || p.startsWith(slash)]. *)
Definition traversal (p : jsstring) : bool :=
  includes p (lit "..") || startsWith p (lit "/").

(** [error instanceof Error ? error.message : fallback] *)
Definition messageOr (e : Thrown) (fallback : jsstring) : jsstring :=
  match e with
  | ErrorObject m => m
  | NotAnError => fallback
  end.

(** One element of the [entries.map(async ...)] of [handleFilesList]. *)
Definition fileInfoOf (targetPath pathParam : jsstring)
                      (entry : DirectoryEntry) : M FileInfo :=
  let fullPath := targetPath ++ lit "/" ++ entry_name entry in
  let relativePath :=
    match pathParam with
    | [] => entry_name entry
    | _ => pathParam ++ lit "/" ++ entry_name entry
    end in
  let entryType := if entry_isDirectory entry then directory else file in
  tryCatch
    (st <- perform (Stat fullPath) (stat rt fullPath) ;;
     let extension :=
       if entry_isFile entry then Some (getFileExtension (entry_name entry))
       else None in
     modified <- match stat_mtime st with
                 | Some d => (iso <- lift (toISOString host d) ;;
                              ret (Some iso))
                 | None => ret None
                 end ;;
     ret {| name := entry_name entry;
            path := relativePath;
            type := entryType;
            size := if entry_isFile entry then Some (stat_size st)
                    else None;
            modifiedTime := modified;
            extension := extension |})
    (fun _ =>
       ret {| name := entry_name entry;
              path := relativePath;
              type := entryType;
              size := None;
              modifiedTime := None;
              extension := None |}).

(** The comparator given to [files.sort]. *)
Definition compareFiles (a b : FileInfo) : Z :=
  match type a, type b with
  | directory, file => (-1)%Z
  | file, directory => 1%Z
  | _, _ => localeCompare host (name a) (name b)
  end.

Definition handleFilesList (req : Request) : M Response :=
  tryCatch
    (match param_encodedProjectName req with
     | None | Some [] =>
         ret (json (ErrorBody (lit "Project name is required")) 400)
     | Some encodedProjectName =>
         projectPath <-
           getProjectPathFromEncodedName rt host encodedProjectName ;;
         match projectPath with
         | None | Some [] =>
             ret (json (ErrorBody (lit "Project not found")) 404)
         | Some projectPath =>
             let pathParam := orDefault (query_path req) [] in
             if traversal pathParam then
               ret (json (ErrorBody (lit "Access denied: Invalid path"))
                         403)
             else
               let rootPath := projectPath in
               let targetPath :=
                 match pathParam with
                 | [] => rootPath
                 | _ => safeResolvePath rootPath pathParam
                 end in
               directoryExists <-
                 perform (Exists targetPath) (exists_ rt targetPath) ;;
               if negb directoryExists then
                 ret (json (FilesListResponse [] pathParam) 200)
               else
                 entries <-
                   perform (ReadDir targetPath) (readDir rt targetPath) ;;
                 files <- mapM (fileInfoOf targetPath pathParam) entries ;;
                 ret (json (FilesListResponse (sort compareFiles files)
                                              pathParam) 200)
         end
     end)
    (fun error =>
       ret (json (ErrorBody (messageOr error (lit "Failed to list files")))
                 500)).

Definition maxSize : N := 10 * 1024 * 1024.

(** [handleFileContent] from the size check on: [fullPath] exists and
    [st] is its metadata. *)
Definition previewFile (fullPath filePath : jsstring) (st : FileStats)
  : M Response :=
  if N.ltb maxSize (stat_size st) then
    ret (json (ErrorBody (lit "File too large to preview")) 413)
  else
    let extension := getFileExtension filePath in
    let mimeType := getMimeType extension in
    isText <- lift (isTextFile mimeType) ;;
    isImage <- lift (isImageFile mimeType) ;;
    if isText then
      content <- perform (ReadTextFile fullPath)
                         (readTextFile rt fullPath) ;;
      ret (json (FileContentResponse content mimeType utf_8
                                     (stat_size st)) 200)
    else if isImage || N.leb (stat_size st) (1024 * 1024) then
      buffer <- perform (ReadBinaryFile fullPath)
                        (readBinaryFile rt fullPath) ;;
      content <- lift (btoaFromCharCodes host buffer) ;;
      ret (json (FileContentResponse content mimeType base64
                                     (stat_size st)) 200)
    else
      ret (json (ErrorBody (lit "File type not supported for preview"))
                415).

Definition handleFileContent (req : Request) : M Response :=
  tryCatch
    (match param_encodedProjectName req, param_path req with
     | Some ((_ :: _) as encodedProjectName), Some ((_ :: _) as pathParam) =>
         projectPath <-
           getProjectPathFromEncodedName rt host encodedProjectName ;;
         match projectPath with
         | None | Some [] =>
             ret (json (ErrorBody (lit "Project not found")) 404)
         | Some projectPath =>
             let filePath := pathParam in
             if traversal filePath then
               ret (json (ErrorBody
                            (lit "Access denied: Invalid file path")) 403)
             else
               let fullPath := safeResolvePath projectPath filePath in
               fileExists <-
                 perform (Exists fullPath) (exists_ rt fullPath) ;;
               if negb fileExists then
                 ret (json (ErrorBody (lit "File not found")) 404)
               else
                 st <- perform (Stat fullPath) (stat rt fullPath) ;;
                 if stat_isDirectory st then
                   ret (json (ErrorBody
                                (lit "Cannot read directory content")) 400)
                 else previewFile fullPath filePath st
         end
     | _, _ =>
         ret (json (ErrorBody
                      (lit "Project name and file path are required")) 400)
     end)
    (fun error =>
       ret (json (ErrorBody (messageOr error (lit "Failed to read file")))
                 500)).

(** The class [[\x20-\x7E]]: printable ASCII. *)
Definition printable (c : N) : bool := inRange 32 126 c.

Definition quoteOrBackslash (c : N) : bool :=
  N.eqb c quote || N.eqb c backslash.

Definition hasNonAscii (filename : jsstring) : bool :=
  existsb (fun c => negb (printable c)) filename.

(** Both [replace] calls that build [asciiFilename]. *)
Definition asciiFilename (filename : jsstring) : jsstring :=
  replaceAll quoteOrBackslash underscore
    (replaceAll (fun c => negb (printable c)) underscore filename).

(** [filename.replace(/[quote backslash]/g, backslash $&)] *)
Definition safeFilename (filename : jsstring) : jsstring :=
  flat_map (fun c => if quoteOrBackslash c then [backslash; c] else [c])
           filename.

(** The [Content-Disposition] value of [handleFileDownload]. *)
Definition contentDisposition (filename : jsstring) : Outcome jsstring :=
  if hasNonAscii filename then
    match encodeURIComponent filename with
    | None => Throw (ErrorObject (lit "URI malformed"))
    | Some utf8Filename =>
        Ret (lit "attachment; filename=" ++ [quote] ++
             asciiFilename filename ++ [quote] ++
             lit "; filename*=UTF-8''" ++ utf8Filename)
    end
  else
    Ret (lit "attachment; filename=" ++ [quote] ++
         safeFilename filename ++ [quote]).

(** The path the download handler works on: the [/download] suffix of
    the route is removed from the path parameter. *)
Definition withoutDownloadSuffix (pathParam : jsstring) : jsstring :=
  if endsWith pathParam (lit "/download") then slice0neg pathParam 9
  else pathParam.

Definition handleFileDownload (req : Request) : M Response :=
  tryCatch
    (match param_encodedProjectName req, param_path req with
     | Some ((_ :: _) as encodedProjectName), Some ((_ :: _) as pathParam) =>
         let pathParam := withoutDownloadSuffix pathParam in
         projectPath <-
           getProjectPathFromEncodedName rt host encodedProjectName ;;
         match projectPath with
         | None | Some [] =>
             ret (json (ErrorBody (lit "Project not found")) 404)
         | Some projectPath =>
             let filePath := pathParam in
             if traversal filePath then
               ret (json (ErrorBody
                            (lit "Access denied: Invalid file path")) 403)
             else
               let fullPath := safeResolvePath projectPath filePath in
               fileExists <-
                 perform (Exists fullPath) (exists_ rt fullPath) ;;
               if negb fileExists then
                 ret (json (ErrorBody (lit "File not found")) 404)
               else
                 st <- perform (Stat fullPath) (stat rt fullPath) ;;
                 if stat_isDirectory st then
                   ret (json (ErrorBody (lit "Cannot download directory"))
                             400)
                 else
                   buffer <- perform (ReadBinaryFile fullPath)
                                     (readBinaryFile rt fullPath) ;;
                   let filename :=
                     orDefault (Some (last (split slash filePath) []))
                               (lit "download") in
                   let extension := getFileExtension filename in
                   let mimeType := getMimeType extension in
                   disposition <- lift (contentDisposition filename) ;;
                   ret (json (FileBytes buffer mimeType disposition
                                (numberToString
                                   (N.of_nat (List.length buffer))))
                             200)
         end
     | _, _ =>
         ret (json (ErrorBody
                      (lit "Project name and file path are required")) 400)
     end)
    (fun error =>
       ret (json (ErrorBody
                    (messageOr error (lit "Failed to download file")))
                 500)).

End WithRuntime.

End Files.

(* ================================================================== *)
(** ** The upload handler *)

Module Upload.
Import JS Effects.
Local Open Scope fx_scope.

Record UploadResponse := {
  success : bool;
  filePath : option jsstring;
  error : option jsstring
}.

Record Response := { status : N; body : UploadResponse }.

Definition json (b : UploadResponse) (st : N) : Response :=
  {| status := st; body := b |}.

(** A [File] of the form data: its name and its bytes. *)
Record File := { file_name : jsstring; file_bytes : list N }.

Record FormData := {
  form_file : option File;
  form_sessionId : option jsstring;
  form_workingDirectory : option jsstring
}.

(** The class [[^a-zA-Z0-9.-]]. *)
Definition unsafeNameChar (c : N) : bool :=
  negb (inRange 97 122 c || inRange 65 90 c || inRange 48 57 c ||
        N.eqb c dot || N.eqb c hyphen).

Definition safeFileName (fileName : jsstring) : jsstring :=
  replaceAll unsafeNameChar underscore fileName.

Definition failure (msg : jsstring) : UploadResponse :=
  {| success := false; filePath := None; error := Some msg |}.

Section WithRuntime.
Variable rt : Runtime.
Variable host : Host.

(** [try { await runtime.mkdir(dir) } catch (e) { }] *)
Definition ensureDir (dir : jsstring) : M unit :=
  tryCatch (perform (Mkdir dir) (mkdir rt dir)) (fun _ => ret tt).

(** [formData] is the outcome of [c.req.formData()]. *)
Definition handleUpload (formData : Outcome FormData) : M Response :=
  tryCatch
    (form <- lift formData ;;
     match form_file form with
     | None => ret (json (failure (lit "No file provided")) 400)
     | Some file =>
         match form_sessionId form with
         | None | Some [] =>
             ret (json (failure (lit "No session ID provided")) 400)
         | Some sessionId =>
             let baseDir :=
               orDefault (form_workingDirectory form)
                         (getCurrentWorkingDirectory rt) in
             let tempDir := baseDir ++ lit "/.claude-temp" in
             let sessionDir := tempDir ++ lit "/" ++ sessionId in
             _ <- ensureDir tempDir ;;
             _ <- ensureDir sessionDir ;;
             let timestamp := Date_now host in
             let fileName :=
               numberToString timestamp ++ lit "_" ++
               safeFileName (file_name file) in
             let filePath := sessionDir ++ lit "/" ++ fileName in
             let content := file_bytes file in
             _ <- perform (WriteBinaryFile filePath content)
                          (writeBinaryFile rt filePath content) ;;
             let relativePath :=
               if startsWith filePath (baseDir ++ lit "/")
               then substring filePath (List.length baseDir + 1)
               else filePath in
             ret (json {| success := true;
                          filePath := Some relativePath;
                          error := None |} 200)
         end
     end)
    (fun e =>
       ret (json (failure (match e with
                           | ErrorObject m => m
                           | NotAnError => lit "Unknown error"
                           end)) 500)).
End WithRuntime.

End Upload.

(* ================================================================== *)
(** ** A concrete host, registry and filesystem *)

Module Example.
Import JS Effects.

(** Dispatch on a path. *)
Fixpoint lookupPath {A} (table : list (jsstring * A)) (p : jsstring)
  : option A :=
  match table with
  | [] => None
  | (k, v) :: rest => if eqb k p then Some v else lookupPath rest p
  end.

Definition enoent {A} : Outcome A :=
  Throw (ErrorObject (lit "ENOENT: no such file or directory")).

Definition orEnoent {A} (o : option A) : Outcome A :=
  match o with
  | Some a => Ret a
  | None => enoent
  end.

Definition dirEntry (n : string) : DirectoryEntry :=
  {| entry_name := lit n; entry_isFile := false; entry_isDirectory := true |}.

Definition fileEntry (n : string) : DirectoryEntry :=
  {| entry_name := lit n; entry_isFile := true; entry_isDirectory := false |}.

Definition fileStat (sz : N) : FileStats :=
  {| stat_isFile := true; stat_isDirectory := false;
     stat_size := sz; stat_mtime := None |}.

Definition dirStat : FileStats :=
  {| stat_isFile := false; stat_isDirectory := true;
     stat_size := 0; stat_mtime := None |}.

(** The registry of [/home/u/.claude.json]: three projects. *)
Definition config : JSValue :=
  JObject
    [ (lit "numStartups", JNumber);
      (lit "projects",
       JObject [ (lit "/srv/app", JObject []);
                 (lit "/srv/a?b", JObject []);
                 (lit "/srv/old", JObject []) ]) ].

(** The code units of a unit-wise comparison, as a stand-in for
    [localeCompare]. *)
Fixpoint unitCompare (s t : jsstring) : Z :=
  match s, t with
  | [], [] => 0
  | [], _ :: _ => -1
  | _ :: _, [] => 1
  | a :: s', b :: t' =>
      match N.compare a b with
      | Lt => -1
      | Gt => 1
      | Eq => unitCompare s' t'
      end
  end%Z.

Definition asciiLower (s : jsstring) : jsstring :=
  map (fun c => if inRange 65 90 c then (c + 32)%N else c) s.

Definition host : Host :=
  {| JSON_parse := fun txt =>
       if eqb txt (lit "{config}") then Ret config
       else Throw (ErrorObject (lit "Unexpected token"));
     toLowerCase := asciiLower;
     localeCompare := unitCompare;
     toISOString := fun _ => Ret (lit "2025-01-01T00:00:00.000Z");
     btoaFromCharCodes := fun _ => Ret (lit "AAAA");
     Date_now := 1700000000123 |}.

(** [/srv/app] holds [b.txt] (10 bytes), [docs/], [Zed.md], [big.bin]
    (exactly 10 MiB), [big.txt] (exactly 10 MiB) and [mid.bin] (exactly
    1 MiB); [/srv/a?b] is empty; [/srv/old] has no history directory. *)
Definition statTable : list (jsstring * FileStats) :=
  [ (lit "/srv/app", dirStat);
    (lit "/srv/app/", dirStat);
    (lit "/srv/app/docs", dirStat);
    (lit "/srv/app/b.txt", fileStat 10);
    (lit "/srv/app/Zed.md", fileStat 20);
    (lit "/srv/app/big.bin", fileStat 10485760);
    (lit "/srv/app/big.txt", fileStat 10485760);
    (lit "/srv/app/mid.bin", fileStat 1048576);
    (lit "/srv/a?b", dirStat) ].

Definition dirTable : list (jsstring * list DirectoryEntry) :=
  [ (lit "/home/u/.claude/projects",
     [ dirEntry "-srv-app"; dirEntry "-srv-a?b" ]);
    (lit "/srv/app",
     [ fileEntry "b.txt"; dirEntry "docs"; fileEntry "big.bin";
       fileEntry "Zed.md"; fileEntry "big.txt"; fileEntry "mid.bin" ]);
    (lit "/srv/app/docs", []);
    (lit "/srv/a?b", []) ].

Definition runtime : Runtime :=
  {| getHomeDir := Some (lit "/home/u");
     getCurrentWorkingDirectory := lit "/work";
     readTextFile := fun p =>
       if eqb p (lit "/home/u/.claude.json") then Ret (lit "{config}")
       else if eqb p (lit "/srv/app/big.txt") then Ret (lit "text")
       else if eqb p (lit "/srv/app/b.txt") then Ret (lit "0123456789")
       else enoent;
     readDir := fun p => orEnoent (lookupPath dirTable p);
     exists_ := fun p =>
       Ret (match lookupPath statTable p with Some _ => true | None => false end);
     stat := fun p => orEnoent (lookupPath statTable p);
     readBinaryFile := fun p =>
       match lookupPath statTable p with
       | Some _ => Ret [1; 2; 3]%N
       | None => enoent
       end;
     mkdir := fun _ => Throw (ErrorObject (lit "EEXIST: file already exists"));
     writeBinaryFile := fun _ _ => Ret tt |}.

Definition request (project p : string) : Files.Request :=
  {| Files.param_encodedProjectName := Some (lit project);
     Files.param_path := Some (lit p);
     Files.query_path := Some (lit p) |}.

End Example.

(* ================================================================== *)
(** ** The specification's vocabulary *)

Module Spec.
Import JS Effects PathUtils Files.

(** A relative path the boundary check must refuse: it contains two
    consecutive dots or begins with a slash. *)
Definition Traversal (p : jsstring) : Prop :=
  (exists a b, p = a ++ lit ".." ++ b) \/ (exists r, p = slash :: r).

(** The filesystem calls of the project lookup: reading the registry file
    and listing the history directories, both under the home directory. *)
Definition lookupCall (rt : Runtime) (c : Call) : Prop :=
  exists homeDir,
    getHomeDir rt = Some homeDir /\
    (c = ReadTextFile (homeDir ++ lit "/.claude.json") \/
     c = ReadDir (homeDir ++ lit "/.claude/projects")).

(** A call that reads the content of a file. *)
Definition readsContent (c : Call) : bool :=
  match c with
  | ReadTextFile _ | ReadBinaryFile _ => true
  | _ => false
  end.

(** The ContentClassifier of the specification, in its decision order:
    over the ceiling, text-like, image-like or at most 1 MiB, else
    unsupported. *)
Inductive Preview := UTF8 | Base64 | RejectUnsupported | RejectTooLarge.

Definition MiB : N := 1024 * 1024.

Definition textLike (mimeType : jsstring) : bool :=
  startsWith mimeType (lit "text/") ||
  existsb (eqb mimeType)
    [ lit "application/json"; lit "application/javascript";
      lit "application/typescript"; lit "application/xml" ].

Definition imageLike (mimeType : jsstring) : bool :=
  startsWith mimeType (lit "image/").

Definition classify (mimeType : jsstring) (size : N) : Preview :=
  if N.ltb (10 * MiB) size then RejectTooLarge
  else if textLike mimeType then UTF8
  else if imageLike mimeType || N.leb size MiB then Base64
  else RejectUnsupported.

(** The registry as the ProjectLocator sees it: the project paths of the
    configuration file, when the home directory is known and the file can
    be read and parsed and has a [projects] object. *)
Definition registry (rt : Runtime) (host : Host) : option (list jsstring) :=
  match getHomeDir rt with
  | None | Some [] => None
  | Some homeDir =>
      match readTextFile rt (homeDir ++ lit "/.claude.json") with
      | Throw _ => None
      | Ret configContent =>
          match JSON_parse host configContent with
          | Throw _ => None
          | Ret config =>
              match getProp config (lit "projects") with
              | Some (Some v) =>
                  if truthyObject (Some v) then Some (entryKeys v) else None
              | _ => None
              end
          end
      end
  end.

(** The names of the history directories under [~/.claude/projects]. *)
Definition historyDirs (rt : Runtime) : option (list jsstring) :=
  match getHomeDir rt with
  | None | Some [] => None
  | Some homeDir =>
      match readDir rt (homeDir ++ lit "/.claude/projects") with
      | Throw _ => None
      | Ret dir => Some (map entry_name (filter entry_isDirectory dir))
      end
  end.

(** The encoded name expected for a path, when its history directory
    exists. *)
Definition encodedIfListed (rt : Runtime) (projectPath : jsstring)
  : option jsstring :=
  match historyDirs rt with
  | Some dirs =>
      if existsb (eqb (expectedEncoded projectPath)) dirs
      then Some (expectedEncoded projectPath)
      else None
  | None => None
  end.

(** The first registry path with a given encoded name, when the history
    directory of that name exists. *)
Definition firstListed (rt : Runtime) (encodedName : jsstring)
    (paths : list jsstring)
  : option jsstring :=
  match historyDirs rt with
  | Some dirs =>
      if existsb (eqb encodedName) dirs
      then find (fun p => eqb (expectedEncoded p) encodedName)
                paths
      else None
  | None => None
  end.

(** The project an encoded name stands for: the first registry path whose
    encoded form is the name, provided a history directory of that name
    exists. *)
Definition locate (rt : Runtime) (host : Host) (encodedName : jsstring)
  : option jsstring :=
  match registry rt host, historyDirs rt with
  | Some paths, Some dirs =>
      if existsb (eqb encodedName) dirs
      then find (fun p => eqb (expectedEncoded p) encodedName) paths
      else None
  | _, _ => None
  end.

(** The directory [handleFilesList] lists for a root and a requested
    path. *)
Definition targetOf (root p : jsstring) : jsstring :=
  match p with
  | [] => root
  | _ => safeResolvePath root p
  end.

(** A code unit that makes an encoded project name unsafe: one of
    [<], [>], [:], the double quote, [|], [?], [*], a control character
    U+0000 to U+001F, the slash or the backslash. *)
Definition Dangerous (c : N) : Prop :=
  In c [60; 62; 58; 34; 124; 63; 42]%N \/ (c <= 31)%N \/
  c = slash \/ c = backslash.

(** The printable ASCII range, U+0020 to U+007E. *)
Definition PrintableAscii (c : N) : Prop := (32 <= c <= 126)%N.

(** A name with every quote and backslash preceded by a backslash. *)
Fixpoint escaped (s : jsstring) : jsstring :=
  match s with
  | [] => []
  | c :: rest =>
      if N.eqb c quote || N.eqb c backslash
      then backslash :: c :: escaped rest
      else c :: escaped rest
  end.

(** One unit of the ASCII fallback of a file name: a printable ASCII unit
    other than the quote and the backslash is kept, any other becomes an
    underscore. *)
Definition fallbackUnit (c d : N) : Prop :=
  (PrintableAscii c /\ c <> quote /\ c <> backslash /\ d = c) \/
  ((~ PrintableAscii c \/ c = quote \/ c = backslash) /\ d = underscore).

(** The [Content-Disposition] value with one parameter. *)
Definition singleParameter (name : jsstring) : jsstring :=
  lit "attachment; filename=" ++ [quote] ++ name ++ [quote].

(** The [Content-Disposition] value with both parameters. *)
Definition bothParameters (fallback encoded : jsstring) : jsstring :=
  lit "attachment; filename=" ++ [quote] ++ fallback ++ [quote] ++
  lit "; filename*=UTF-8''" ++ encoded.

(** The name [r\u00E9sum\u00E9.pdf], with a precomposed e-acute. *)
Definition resume_pdf : jsstring :=
  lit "r" ++ [233%N] ++ lit "sum" ++ [233%N] ++ lit ".pdf".

(** The answer to a request whose path fails the boundary check. *)
Definition accessDenied (msg : string) : Response :=
  json (ErrorBody (lit msg)) 403.

(** The sanitization of an uploaded file name, unit by unit. *)
Definition allowedNameChar (c : N) : Prop :=
  (65 <= c <= 90)%N \/ (97 <= c <= 122)%N \/ (48 <= c <= 57)%N \/
  c = dot \/ c = hyphen.

(** One unit of the sanitized name of an upload: an allowed unit is kept,
    any other becomes an underscore. *)
Definition sanitizedUnit (c d : N) : Prop :=
  (allowedNameChar c /\ d = c) \/ (~ allowedNameChar c /\ d = underscore).

(** The order of a listing: a directory before a file, and within one
    type ascending by [localeCompare]. *)
Definition listed (host : Host) (a b : FileInfo) : Prop :=
  (type a = file -> type b = file) /\
  (type a = type b -> (localeCompare host (name a) (name b) <= 0)%Z).

End Spec.

(* ================================================================== *)
(** ** The browser side: preview pages, the dialog and the upload client *)

Module Client.
Import JS Effects.

(** *** [PDFPreview]: the page shown *)

(** [numPages || 1], with [numPages] of type [number | null]. *)
Definition orOne (numPages : option Z) : Z :=
  match numPages with
  | None | Some 0%Z => 1
  | Some n => n
  end.

Definition goToPrevPage (prev : Z) : Z := Z.max (prev - 1) 1.

Definition goToNextPage (numPages : option Z) (prev : Z) : Z :=
  Z.min (prev + 1) (orOne numPages).

Inductive PageButton := Previous | Next.

Definition press (numPages : option Z) (pageNumber : Z) (b : PageButton)
  : Z :=
  match b with
  | Previous => goToPrevPage pageNumber
  | Next => goToNextPage numPages pageNumber
  end.

(** *** [ChatInput]: removing an attached file *)

(** [arr.filter((x, i) => f x i)], counting from [i]. *)
Fixpoint filterIndex {A} (f : A -> nat -> bool) (i : nat) (l : list A)
  : list A :=
  match l with
  | [] => []
  | x :: l' =>
      if f x i then x :: filterIndex f (S i) l' else filterIndex f (S i) l'
  end.

(** The [updatedFiles] that [removeFile] hands to [onFilesChange]. *)
Definition removeFile {A} (files : list A) (index : Z) : list A :=
  filterIndex (fun _ i => negb (Z.eqb (Z.of_nat i) index)) 0 files.

(** *** [FileManagerDialog]: entering a directory and the breadcrumbs *)

(** The [newPath] of [handleFileClick] on a directory. *)
Definition newPath (currentPath name : jsstring) : jsstring :=
  match currentPath with
  | [] => name
  | _ => currentPath ++ lit "/" ++ name
  end.

(** [arr.map((x, i) => f x i)], counting from [i]. *)
Fixpoint mapIndex {A B} (f : A -> nat -> B) (i : nat) (l : list A) : list B :=
  match l with
  | [] => []
  | x :: l' => f x i :: mapIndex f (S i) l'
  end.

(** The breadcrumb buttons after [Root]: the label of each and the path
    its click sets. *)
Definition breadcrumbs (currentPath : jsstring) : list (jsstring * jsstring) :=
  let arr := filter (fun s => negb (eqb s [])) (split slash currentPath) in
  mapIndex (fun segment index =>
              (segment, join (lit "/") (firstn (index + 1) arr)))
           0 arr.

(** *** [uploadFile] *)

Record File := { name : jsstring; type : jsstring; bytes : list N }.

Definition size (file : File) : N := N.of_nat (List.length (bytes file)).

(** The [Response] of [fetch], as far as [uploadFile] reads it. *)
Record FetchResponse := {
  ok : bool;
  statusText : jsstring;
  json : Outcome Upload.UploadResponse
}.

(** The form [uploadFile] sends: the working directory is appended only
    when it is given and not empty. *)
Definition formOf (file : File) (sessionId : jsstring)
    (workingDirectory : option jsstring) : Upload.FormData :=
  {| Upload.form_file :=
       Some {| Upload.file_name := name file;
               Upload.file_bytes := bytes file |};
     Upload.form_sessionId := Some sessionId;
     Upload.form_workingDirectory :=
       if falsy workingDirectory then None else workingDirectory |}.

Definition caught (e : Thrown) : Upload.UploadResponse :=
  {| Upload.success := false;
     Upload.filePath := None;
     Upload.error := Some (match e with
                           | ErrorObject m => m
                           | NotAnError => lit "Unknown error occurred"
                           end) |}.

Definition uploadFile (fetch : Upload.FormData -> Outcome FetchResponse)
    (file : File) (sessionId : jsstring) (workingDirectory : option jsstring)
  : Upload.UploadResponse :=
  match fetch (formOf file sessionId workingDirectory) with
  | Throw e => caught e
  | Ret response =>
      match json response with
      | Throw e => caught e
      | Ret result =>
          if negb (ok response) then
            caught (ErrorObject
                      (orDefault (Upload.error result)
                         (lit "Upload failed: " ++ statusText response)))
          else result
      end
  end.

(** *** [fileUtils.ts] and [FileUpload] *)

Record ProcessedFile := {
  filename : jsstring;
  fileSize : N;
  mimeType : jsstring;
  filePath : option jsstring;
  error : option jsstring;
  tempFile : option File
}.

Definition MAX_FILE_SIZE : N := 50 * 1024 * 1024.

Section WithFormat.
(** [formatFileSize] rounds with floating-point logarithms; its text is
    taken as given. *)
Variable formatFileSize : N -> jsstring.
Variable upload : File -> jsstring -> option jsstring -> Upload.UploadResponse.

(** [validateFile]: [None] is [{ valid: true }], [Some error] is
    [{ valid: false, error }]. *)
Definition validateFile (file : File) : option jsstring :=
  if N.ltb MAX_FILE_SIZE (size file) then
    Some (lit "File too large (" ++ formatFileSize (size file) ++
          lit "). Maximum size is " ++ formatFileSize MAX_FILE_SIZE ++
          lit ".")
  else None.

Definition createProcessedFile (file : File) : ProcessedFile :=
  {| filename := name file;
     fileSize := size file;
     mimeType := orDefault (Some (type file)) (lit "application/octet-stream");
     filePath := None;
     error := None;
     tempFile := None |}.

(** One turn of the loop of [handleFileSelect]: the entry pushed and the
    file handed to [uploadFile], if any. *)
Definition processFile (sessionId workingDirectory : option jsstring)
    (file : File) : ProcessedFile * list File :=
  match validateFile file with
  | Some message =>
      ({| filename := name file;
          fileSize := size file;
          mimeType := orDefault (Some (type file))
                                (lit "application/octet-stream");
          filePath := None;
          error := Some (orDefault (Some message) (lit "Unknown error"));
          tempFile := None |}, [])
  | None =>
      match sessionId with
      | None | Some [] =>
          ({| filename := filename (createProcessedFile file);
              fileSize := fileSize (createProcessedFile file);
              mimeType := mimeType (createProcessedFile file);
              filePath := None;
              error := None;
              tempFile := Some file |}, [])
      | Some session =>
          let uploadResult := upload file session workingDirectory in
          (if Upload.success uploadResult &&
              negb (falsy (Upload.filePath uploadResult))
           then {| filename := filename (createProcessedFile file);
                   fileSize := fileSize (createProcessedFile file);
                   mimeType := mimeType (createProcessedFile file);
                   filePath := Upload.filePath uploadResult;
                   error := None;
                   tempFile := None |}
           else {| filename := filename (createProcessedFile file);
                   fileSize := fileSize (createProcessedFile file);
                   mimeType := mimeType (createProcessedFile file);
                   filePath := None;
                   error := Some (orDefault (Upload.error uploadResult)
                                            (lit "Upload failed"));
                   tempFile := None |},
           [file])
      end
  end.

(** [handleFileSelect]: what [onFilesProcessed] receives, [None] when it
    is not called, and the files handed to [uploadFile], in order. *)
Definition handleFileSelect (files : option (list File))
    (sessionId workingDirectory : option jsstring)
  : option (list ProcessedFile) * list File :=
  match files with
  | None | Some [] => (None, [])
  | Some selected =>
      let turns := map (processFile sessionId workingDirectory) selected in
      (Some (map fst turns), flat_map snd turns)
  end.
End WithFormat.

(** [fetch] for a request that reaches [handleUpload]: [ok] is a status
    from 200 to 299, the body parses to what the handler sent and the
    status text is what the transport makes of the status. *)
Definition served (statusTextOf : N -> jsstring) (rt : Runtime) (host : Host)
    (form : Upload.FormData) : Outcome FetchResponse :=
  match fst (Upload.handleUpload rt host (Ret form)) with
  | Throw e => Throw e
  | Ret response =>
      Ret {| ok := inRange 200 299 (Upload.status response);
             statusText := statusTextOf (Upload.status response);
             json := Ret (Upload.body response) |}
  end.

End Client.

(* ================================================================== *)
(** ** Further vocabulary: what the handlers do and never do *)

Module Notions.
Import JS Effects PathUtils Files.

(** A call that leaves the filesystem as it is. *)
Definition readOnly (c : Call) : Prop :=
  match c with
  | Mkdir _ | WriteBinaryFile _ _ => False
  | _ => True
  end.

(** A call that creates a directory or writes a file. *)
Definition writes (c : Call) : Prop :=
  match c with
  | Mkdir _ | WriteBinaryFile _ _ => True
  | _ => False
  end.

(** A unit the encoder turns into a hyphen, or the hyphen itself. *)
Definition hyphenated (c : N) : Prop :=
  c = slash \/ c = backslash \/ c = colon \/ c = dot \/ c = hyphen.

(** Two units the encoder cannot tell apart. *)
Definition sameEncoded (a b : N) : Prop :=
  a = b \/ (hyphenated a /\ hyphenated b).

(** A unit the validator refuses and the encoder leaves in place. *)
Definition refusedUnit (c : N) : Prop :=
  In c [60; 62; 34; 124; 63; 42]%N \/ (c <= 31)%N.

(** A path segment the resolver keeps: not empty, not [.] and not [..]. *)
Definition kept (part : jsstring) : bool :=
  negb (eqb part []) && negb (eqb part (lit ".")) &&
  negb (eqb part (lit "..")).

(** The statuses a handler may answer with. *)
Definition listStatuses : list N := [200; 400; 403; 404; 500]%N.
Definition contentStatuses : list N := [200; 400; 403; 404; 413; 415; 500]%N.
Definition downloadStatuses : list N := [200; 400; 403; 404; 500]%N.

(** The [FileInfo] of a directory entry as far as it does not depend on
    [stat]: name, path relative to the project root and type. *)
Definition entryPath (pathParam name : jsstring) : jsstring :=
  match pathParam with
  | [] => name
  | _ => pathParam ++ lit "/" ++ name
  end.

Definition describes (pathParam : jsstring) (entry : DirectoryEntry)
    (info : FileInfo) : Prop :=
  name info = entry_name entry /\
  path info = entryPath pathParam (entry_name entry) /\
  type info = (if entry_isDirectory entry then directory else file).

(** A [FileInfo] without what [stat] would give. *)
Definition bare (info : FileInfo) : Prop :=
  size info = None /\ modifiedTime info = None /\ extension info = None.

(** A unit of a staged file name: a letter, a digit, a dot, a hyphen or an
    underscore. *)
Definition stagedNameUnit (c : N) : Prop :=
  Spec.allowedNameChar c \/ c = underscore.

(** What the entry of a selected file always carries, and what it carries
    when the file is over the limit of the client. *)
Definition entryOf (file : Client.File) (entry : Client.ProcessedFile)
  : Prop :=
  Client.filename entry = Client.name file /\
  Client.fileSize entry = Client.size file /\
  ((Client.MAX_FILE_SIZE < Client.size file)%N ->
   Client.error entry <> None /\ Client.filePath entry = None /\
   Client.tempFile entry = None).

(** A UTF-16 code unit. *)
Definition codeUnit (c : N) : Prop := (c < 65536)%N.

End Notions.

(* ================================================================== *)
(** ** The example filesystem with one more file *)

Module Scenario.
Import JS Effects.

(** [Example.runtime] with a file of the given metadata at [path]. *)
Definition withFile (path : jsstring) (st : FileStats) : Runtime :=
  {| getHomeDir := getHomeDir Example.runtime;
     getCurrentWorkingDirectory := getCurrentWorkingDirectory Example.runtime;
     readTextFile := readTextFile Example.runtime;
     readDir := readDir Example.runtime;
     exists_ := fun p =>
       if eqb p path then Ret true else exists_ Example.runtime p;
     stat := fun p =>
       if eqb p path then Ret st else stat Example.runtime p;
     readBinaryFile := readBinaryFile Example.runtime;
     mkdir := mkdir Example.runtime;
     writeBinaryFile := writeBinaryFile Example.runtime |}.

End Scenario.

(* ================================================================== *)
(** ** Properties of the string operations *)

Import JS Effects.

Lemma eqb_eq (s t : jsstring) : eqb s t = true <-> s = t.
Proof.
  revert t; induction s as [|a s IH]; intros [|b t]; simpl;
    try (split; (discriminate || reflexivity)).
  rewrite andb_true_iff, N.eqb_eq, IH.
  split; [intros [-> ->]; reflexivity | intros H; inversion H; auto].
Qed.

Lemma eqb_refl (s : jsstring) : eqb s s = true.
Proof. apply eqb_eq; reflexivity. Qed.

Lemma eqb_neq (s t : jsstring) : eqb s t = false <-> s <> t.
Proof.
  rewrite <- eqb_eq. destruct (eqb s t); split; congruence.
Qed.

Lemma startsWith_prefix (s p : jsstring) :
  startsWith s p = true <-> exists r, s = p ++ r.
Proof.
  revert s; induction p as [|b p IH]; intros s; simpl.
  - split; [exists s; reflexivity | reflexivity].
  - destruct s as [|a s].
    + split; [discriminate | intros [r H]; discriminate].
    + rewrite andb_true_iff, N.eqb_eq, IH. split.
      * intros [-> [r ->]]. exists r; reflexivity.
      * intros [r H]. inversion H; subst. split; eauto.
Qed.

Lemma startsWith_app (p r : jsstring) : startsWith (p ++ r) p = true.
Proof. apply startsWith_prefix; eauto. Qed.

Lemma includes_infix (s sub : jsstring) :
  includes s sub = true <-> exists a b, s = a ++ sub ++ b.
Proof.
  induction s as [|c s IH].
  - simpl. rewrite orb_false_r, startsWith_prefix. split.
    + intros [r H]. exists [], r; exact H.
    + intros [a [b H]]. destruct a; [exists b; exact H | discriminate].
  - cbn [includes]. rewrite orb_true_iff, startsWith_prefix, IH. split.
    + intros [[r H] | [a [b H]]].
      * exists [], r; exact H.
      * exists (c :: a), b. rewrite H; reflexivity.
    + intros [[|c' a] [b H]].
      * left. exists b; exact H.
      * right. inversion H; subst. exists a, b; reflexivity.
Qed.

Lemma traversal_spec (p : jsstring) :
  Files.traversal p = true <-> Spec.Traversal p.
Proof.
  unfold Files.traversal, Spec.Traversal.
  rewrite orb_true_iff, includes_infix, startsWith_prefix. reflexivity.
Qed.

(** No part of a split holds the separator. *)
Lemma split_no_sep (sep : N) (s : jsstring) :
  Forall (fun w => ~ In sep w) (split sep s).
Proof.
  induction s as [|c s IH]; simpl.
  - constructor; [intros [] | constructor].
  - destruct (N.eqb_spec c sep) as [->|Hne].
    + constructor; [intros [] | exact IH].
    + destruct (split sep s) as [|w ws]; inversion IH; subst.
      * constructor; [intros [H|[]]; congruence | constructor].
      * constructor; [intros [H|H]; [congruence | auto] | assumption].
Qed.

Lemma split_app_sep (sep : N) (w rest : jsstring) :
  ~ In sep w -> split sep (w ++ sep :: rest) = w :: split sep rest.
Proof.
  induction w as [|c w IH]; intros Hw; simpl.
  - rewrite N.eqb_refl; reflexivity.
  - destruct (N.eqb_spec c sep) as [->|Hne]; [exfalso; apply Hw; left; auto|].
    rewrite IH; [reflexivity | intros H; apply Hw; right; exact H].
Qed.

Lemma split_single (sep : N) (w : jsstring) :
  ~ In sep w -> split sep w = [w].
Proof.
  induction w as [|c w IH]; intros Hw; simpl; [reflexivity|].
  destruct (N.eqb_spec c sep) as [->|Hne]; [exfalso; apply Hw; left; auto|].
  rewrite IH; [reflexivity | intros H; apply Hw; right; exact H].
Qed.

(** Splitting undoes joining, for parts free of the separator. *)
Lemma split_join (sep : N) (parts : list jsstring) :
  parts <> [] -> Forall (fun w => ~ In sep w) parts ->
  split sep (join [sep] parts) = parts.
Proof.
  induction parts as [|w ws IH]; intros Hne Hall; [congruence|].
  inversion Hall as [|? ? Hw Hws]; subst.
  destruct ws as [|w' ws'].
  - simpl. apply split_single; assumption.
  - change (join [sep] (w :: w' :: ws'))
      with (w ++ sep :: join [sep] (w' :: ws')).
    rewrite split_app_sep by assumption.
    rewrite IH; [reflexivity | discriminate | assumption].
Qed.

(* ================================================================== *)
(** ** PathResolver *)

(** C2.  For every root and every raw relative path, whether or not the
    boundary check would accept it, the result of [safeResolvePath] begins
    with the root followed by the separator; what follows holds no [..]
    segment. *)
Theorem safeResolvePath_under_root (basePath relativePath : jsstring) :
  startsWith (Files.safeResolvePath basePath relativePath)
             (basePath ++ lit "/") = true /\
  exists rest,
    Files.safeResolvePath basePath relativePath = basePath ++ lit "/" ++ rest /\
    ~ In (lit "..") (split slash rest).
Proof.
  unfold Files.safeResolvePath.
  set (parts := filter _ _).
  split.
  - rewrite app_assoc. apply startsWith_app.
  - exists (join (lit "/") parts). split; [reflexivity|].
    assert (Hparts : Forall (fun w => ~ In slash w) parts).
    { unfold parts. apply Forall_forall. intros w Hw.
      apply filter_In in Hw. destruct Hw as [Hw _].
      pose proof (split_no_sep slash (stripLeadingSlashes relativePath)) as H.
      rewrite Forall_forall in H. exact (H w Hw). }
    destruct parts as [|w ws] eqn:E.
    + simpl. intros [H|[]]. discriminate.
    + change (lit "/") with [slash].
      rewrite split_join; [| discriminate | assumption].
      rewrite <- E. unfold parts. intros Hin.
      apply filter_In in Hin. destruct Hin as [_ Hf].
      rewrite eqb_refl in Hf. rewrite andb_false_r in Hf. discriminate.
Qed.

(* ================================================================== *)
(** ** ProjectLocator *)

Ltac fx := unfold bind, tryCatch, perform, lift, ret, throw in *.

Section Locator.
Variable rt : Runtime.
Variable host : Host.

Lemma getEncodedProjectName_result (projectPath : jsstring) :
  exists t,
    PathUtils.getEncodedProjectName rt projectPath
    = (Ret (Spec.encodedIfListed rt projectPath), t) /\
    Forall (Spec.lookupCall rt) t.
Proof.
  unfold PathUtils.getEncodedProjectName, Spec.encodedIfListed,
    Spec.historyDirs.
  destruct (getHomeDir rt) as [[|c h]|] eqn:Hhome;
    try (exists []; split; [reflexivity | constructor]).
  fx.
  assert (Hcall : Spec.lookupCall rt
                    (ReadDir ((c :: h) ++ lit "/.claude/projects"))).
  { exists (c :: h). split; [exact Hhome | right; reflexivity]. }
  destruct (readDir rt ((c :: h) ++ lit "/.claude/projects")) as [dir|e].
  - destruct (existsb _ _); eexists; (split; [reflexivity|]);
      simpl; repeat constructor; exact Hcall.
  - eexists; split; [reflexivity|]. simpl; repeat constructor; exact Hcall.
Qed.

Lemma findProject_result (encodedName : jsstring) (paths : list jsstring) :
  exists t,
    PathUtils.findProject rt encodedName paths
    = (Ret (Spec.firstListed rt encodedName paths), t) /\
    Forall (Spec.lookupCall rt) t.
Proof.
  induction paths as [|p rest IH].
  - exists []. split; [|constructor].
    unfold Spec.firstListed. simpl.
    destruct (Spec.historyDirs rt) as [dirs|]; [|reflexivity].
    destruct (existsb _ dirs); reflexivity.
  - cbn [PathUtils.findProject].
    destruct (getEncodedProjectName_result p) as [t1 [E1 F1]].
    destruct IH as [t2 [E2 F2]].
    unfold bind. rewrite E1.
    unfold Spec.encodedIfListed, Spec.firstListed in *.
    destruct (Spec.historyDirs rt) as [dirs|].
    + cbn [find].
      destruct (existsb (eqb (PathUtils.expectedEncoded p)) dirs) eqn:Hin.
      * destruct (eqb (PathUtils.expectedEncoded p) encodedName) eqn:Heq.
        -- apply eqb_eq in Heq. rewrite <- Heq, Hin.
           exists (t1 ++ []). split; [reflexivity|].
           rewrite app_nil_r; exact F1.
        -- rewrite E2. exists (t1 ++ t2). split; [reflexivity|].
           apply Forall_app; auto.
      * rewrite E2. exists (t1 ++ t2). split; [|apply Forall_app; auto].
        destruct (eqb (PathUtils.expectedEncoded p) encodedName) eqn:Heq;
          [|reflexivity].
        apply eqb_eq in Heq. rewrite <- Heq, Hin. reflexivity.
    + rewrite E2. exists (t1 ++ t2). split; [reflexivity|].
      apply Forall_app; auto.
Qed.

(** The lookup never throws, returns what [Spec.locate] describes and
    makes no other filesystem call than its own two. *)
Lemma getProjectPathFromEncodedName_result (encodedName : jsstring) :
  exists t,
    PathUtils.getProjectPathFromEncodedName rt host encodedName
    = (Ret (Spec.locate rt host encodedName), t) /\
    Forall (Spec.lookupCall rt) t.
Proof.
  unfold PathUtils.getProjectPathFromEncodedName, Spec.locate, Spec.registry.
  destruct (getHomeDir rt) as [[|c h]|] eqn:Hhome;
    try (exists []; split; [reflexivity | constructor]).
  assert (Hcall : Spec.lookupCall rt
                    (ReadTextFile ((c :: h) ++ lit "/.claude.json"))).
  { exists (c :: h). split; [exact Hhome | left; reflexivity]. }
  fx.
  destruct (readTextFile rt ((c :: h) ++ lit "/.claude.json"))
    as [configContent|e];
    [| eexists; split; [reflexivity | simpl; repeat constructor; exact Hcall]].
  destruct (JSON_parse host configContent) as [config|e];
    [| eexists; split; [reflexivity | simpl; repeat constructor; exact Hcall]].
  destruct (getProp config (lit "projects")) as [[v|]|];
    try (eexists; split; [reflexivity|];
         simpl; repeat constructor; exact Hcall).
  destruct (truthyObject (Some v)) eqn:Hobj;
    [| eexists; split; [reflexivity|];
       simpl; repeat constructor; exact Hcall].
  destruct (findProject_result encodedName (entryKeys v)) as [t [E F]].
  rewrite E. unfold Spec.firstListed.
  eexists; split; [reflexivity|].
  simpl. constructor; [exact Hcall|].
  rewrite ?app_nil_r. exact F.
Qed.
End Locator.

Lemma find_first {A} (f : A -> bool) (l : list A) (x : A) :
  find f l = Some x ->
  exists l1 l2, l = l1 ++ x :: l2 /\ f x = true /\
                forall y, In y l1 -> f y = false.
Proof.
  induction l as [|a l IH]; simpl; [discriminate|].
  destruct (f a) eqn:Ha.
  - intros H; inversion H; subst. exists [], l. repeat split; auto.
    intros y [].
  - intros H. destruct (IH H) as [l1 [l2 [-> [Hx Hl1]]]].
    exists (a :: l1), l2. repeat split; auto.
    intros y [<-|Hy]; auto.
Qed.

Lemma existsb_eqb_In (s : jsstring) (l : list jsstring) :
  existsb (eqb s) l = true <-> In s l.
Proof.
  rewrite existsb_exists. split.
  - intros [x [Hx He]]. apply eqb_eq in He. subst; exact Hx.
  - intros H. exists s. split; [exact H | apply eqb_refl].
Qed.

(** C5, amended.  [getProjectPathFromEncodedName] never throws and returns
    what [Spec.locate] describes: the first registry path whose encoded
    form (one trailing slash removed, then slashes, backslashes, colons and
    dots replaced by hyphens) equals the encoded name, provided a history
    directory of that name exists under [~/.claude/projects]; and no
    project when no registry path matches, when that directory is missing,
    or when the home directory, the registry or the directory listing is
    unavailable. *)
Theorem getProjectPathFromEncodedName_locates
    (rt : Runtime) (host : Host) (encodedName : jsstring) :
  fst (PathUtils.getProjectPathFromEncodedName rt host encodedName)
  = Ret (Spec.locate rt host encodedName) /\
  (forall projectPath,
      Spec.locate rt host encodedName = Some projectPath ->
      exists paths before after dirs,
        Spec.registry rt host = Some paths /\
        paths = before ++ projectPath :: after /\
        PathUtils.expectedEncoded projectPath = encodedName /\
        (forall q, In q before -> PathUtils.expectedEncoded q <> encodedName) /\
        Spec.historyDirs rt = Some dirs /\ In encodedName dirs) /\
  (forall paths dirs,
      Spec.registry rt host = Some paths ->
      Spec.historyDirs rt = Some dirs ->
      In encodedName dirs ->
      Spec.locate rt host encodedName
      = find (fun p => eqb (PathUtils.expectedEncoded p) encodedName) paths) /\
  (Spec.registry rt host = None \/ Spec.historyDirs rt = None \/
   (exists dirs, Spec.historyDirs rt = Some dirs /\ ~ In encodedName dirs) ->
   Spec.locate rt host encodedName = None).
Proof.
  split; [|split; [|split]].
  - destruct (getProjectPathFromEncodedName_result rt host encodedName)
      as [t [E _]].
    rewrite E; reflexivity.
  - intros projectPath. unfold Spec.locate.
    destruct (Spec.registry rt host) as [paths|]; [|discriminate].
    destruct (Spec.historyDirs rt) as [dirs|]; [|discriminate].
    destruct (existsb (eqb encodedName) dirs) eqn:Hin; [|discriminate].
    intros Hfind. apply find_first in Hfind.
    destruct Hfind as [l1 [l2 [-> [Hp Hl1]]]].
    exists (l1 ++ projectPath :: l2), l1, l2, dirs.
    repeat split; auto.
    + apply eqb_eq; exact Hp.
    + intros q Hq. apply eqb_neq. auto.
    + apply existsb_eqb_In; exact Hin.
  - intros paths dirs Hr Hd Hin. unfold Spec.locate. rewrite Hr, Hd.
    apply existsb_eqb_In in Hin. rewrite Hin. reflexivity.
  - unfold Spec.locate. intros [Hr | [Hd | [dirs [Hd Hn]]]].
    + rewrite Hr; reflexivity.
    + rewrite Hd. destruct (Spec.registry rt host); reflexivity.
    + rewrite Hd. destruct (Spec.registry rt host); [|reflexivity].
      destruct (existsb (eqb encodedName) dirs) eqn:Hin; [|reflexivity].
      apply existsb_eqb_In in Hin. contradiction.
Qed.

(** The lookup of the first project of the example registry. *)
Lemma getProjectPathFromEncodedName_locates_witness :
  fst (PathUtils.getProjectPathFromEncodedName
         Example.runtime Example.host (lit "-srv-app"))
  = Ret (Some (lit "/srv/app")) /\
  Spec.locate Example.runtime Example.host (lit "-srv-app")
  = find (fun p => eqb (PathUtils.expectedEncoded p) (lit "-srv-app"))
         [lit "/srv/app"; lit "/srv/a?b"; lit "/srv/old"].
Proof.
  destruct (getProjectPathFromEncodedName_locates
              Example.runtime Example.host (lit "-srv-app"))
    as [H1 [_ [H3 _]]].
  split.
  - rewrite H1. reflexivity.
  - apply (H3 _ [lit "-srv-app"; lit "-srv-a?b"]).
    + reflexivity.
    + reflexivity.
    + left; reflexivity.
Defined.

(** C5, as stated, fails: [/srv/old] is in the registry and its encoded
    form is [-srv-old], yet the name is not resolved, because no history
    directory [-srv-old] exists; the registry and the home directory are
    available. *)
Lemma locate_needs_history_directory :
  Spec.registry Example.runtime Example.host
  = Some [lit "/srv/app"; lit "/srv/a?b"; lit "/srv/old"] /\
  replaceAll PathUtils.encodedAway hyphen (lit "/srv/old") = lit "-srv-old" /\
  Spec.historyDirs Example.runtime = Some [lit "-srv-app"; lit "-srv-a?b"] /\
  fst (PathUtils.getProjectPathFromEncodedName
         Example.runtime Example.host (lit "-srv-old"))
  = Ret None /\
  fst (PathUtils.getProjectPathFromEncodedName
         Example.runtime Example.host (lit "-srv-old"))
  <> Ret (Some (lit "/srv/old")).
Proof. repeat split; try reflexivity. vm_compute. discriminate. Qed.

(* ================================================================== *)
(** ** The encoding and the trailing slash *)

Lemma stripTrailingSlash_snoc (q : jsstring) (x : N) :
  stripTrailingSlash (q ++ [x]) = if N.eqb x slash then q else q ++ [x].
Proof.
  induction q as [|c q IH]; [reflexivity|].
  change ((c :: q) ++ [x]) with (c :: (q ++ [x])).
  cbn [stripTrailingSlash].
  destruct (q ++ [x]) as [|d r] eqn:E.
  - destruct q; discriminate.
  - rewrite IH. destruct (N.eqb x slash); reflexivity.
Qed.

Lemma endsWith_snoc (q : jsstring) (x : N) :
  endsWith (q ++ [x]) (lit "/") = N.eqb x slash.
Proof.
  unfold endsWith. rewrite rev_app_distr. simpl.
  apply andb_true_r.
Qed.

Lemma stripTrailingSlash_fixed (p : jsstring) :
  endsWith p (lit "/") = false -> stripTrailingSlash p = p.
Proof.
  destruct p as [|c p'] using rev_ind; [reflexivity|].
  rewrite endsWith_snoc, stripTrailingSlash_snoc. intros ->; reflexivity.
Qed.

(** C10, amended.  For every project path [p] that does not itself end
    with a slash, [p] and [p] followed by a slash have the same encoded
    form, [getEncodedProjectName] answers the same for both, and a lookup
    in a registry holding one of them finds it exactly when a lookup in a
    registry holding the other finds that one. *)
Theorem expectedEncoded_trailing_slash (p : jsstring) :
  endsWith p (lit "/") = false ->
  PathUtils.expectedEncoded (p ++ lit "/") = PathUtils.expectedEncoded p /\
  (forall rt,
      PathUtils.getEncodedProjectName rt (p ++ lit "/")
      = PathUtils.getEncodedProjectName rt p) /\
  (forall rt encodedName,
      fst (PathUtils.findProject rt encodedName [p ++ lit "/"])
      = Ret (Some (p ++ lit "/")) <->
      fst (PathUtils.findProject rt encodedName [p]) = Ret (Some p)).
Proof.
  intros Hend.
  assert (Henc : PathUtils.expectedEncoded (p ++ lit "/")
                 = PathUtils.expectedEncoded p).
  { unfold PathUtils.expectedEncoded, PathUtils.normalizedPath.
    change (lit "/") with [slash].
    rewrite stripTrailingSlash_snoc, N.eqb_refl.
    rewrite stripTrailingSlash_fixed by exact Hend. reflexivity. }
  split; [exact Henc|].
  assert (Hget : forall rt,
             PathUtils.getEncodedProjectName rt (p ++ lit "/")
             = PathUtils.getEncodedProjectName rt p).
  { intros rt. unfold PathUtils.getEncodedProjectName.
    rewrite Henc. reflexivity. }
  split; [exact Hget|].
  intros rt encodedName. cbn [PathUtils.findProject]. rewrite Hget.
  destruct (getEncodedProjectName_result rt p) as [t [E _]].
  rewrite E. unfold bind.
  destruct (Spec.encodedIfListed rt p) as [e|]; simpl.
  - destruct (eqb e encodedName); simpl;
      split; intros H; (reflexivity || discriminate).
  - split; intros H; discriminate.
Qed.

Lemma expectedEncoded_trailing_slash_witness :
  PathUtils.expectedEncoded (lit "/Users/sugyan/tmp/") = lit "-Users-sugyan-tmp"
  /\ PathUtils.expectedEncoded (lit "/Users/sugyan/tmp") = lit "-Users-sugyan-tmp".
Proof.
  split; [|reflexivity].
  change (lit "/Users/sugyan/tmp/") with (lit "/Users/sugyan/tmp" ++ lit "/").
  rewrite (proj1 (expectedEncoded_trailing_slash
                    (lit "/Users/sugyan/tmp") eq_refl)).
  reflexivity.
Defined.

(** C10, as stated, fails for a path that already ends with a slash: only
    one slash is removed, so [/a/] encodes to [-a] and [/a//] to [-a-]. *)
Lemma expectedEncoded_double_slash_differs :
  PathUtils.expectedEncoded (lit "/a/") = lit "-a" /\
  PathUtils.expectedEncoded (lit "/a/" ++ lit "/") = lit "-a-" /\
  PathUtils.expectedEncoded (lit "/a/")
  <> PathUtils.expectedEncoded (lit "/a/" ++ lit "/").
Proof. repeat split. vm_compute. discriminate. Qed.

(* ================================================================== *)
(** ** List *)

Import Files.

Lemma not_traversal (p : jsstring) :
  ~ Spec.Traversal p -> traversal p = false.
Proof.
  intros H. destruct (traversal p) eqn:E; [|reflexivity].
  apply traversal_spec in E. contradiction.
Qed.

(** C7.  When the project resolves to [root] and the requested path [p]
    passes the boundary check, and the directory it resolves to does not
    exist, [handleFilesList] answers 200 with no files and [p] echoed as
    [currentPath]; beyond the project lookup it only asked whether the
    directory exists. *)
Theorem handleFilesList_missing_directory
    (rt : Runtime) (host : Host) (req : Request)
    (encodedName root p : jsstring) :
  param_encodedProjectName req = Some encodedName ->
  encodedName <> [] ->
  Spec.locate rt host encodedName = Some root ->
  root <> [] ->
  orDefault (query_path req) [] = p ->
  ~ Spec.Traversal p ->
  exists_ rt (Spec.targetOf root p) = Ret false ->
  fst (handleFilesList rt host req)
  = Ret (json (FilesListResponse [] p) 200) /\
  snd (handleFilesList rt host req)
  = snd (PathUtils.getProjectPathFromEncodedName rt host encodedName)
    ++ [Exists (Spec.targetOf root p)].
Proof.
  intros Hname Hne Hloc Hroot Hp Htrav Hex.
  destruct (getProjectPathFromEncodedName_result rt host encodedName)
    as [t [E _]].
  apply not_traversal in Htrav.
  unfold handleFilesList. rewrite Hname.
  destruct encodedName as [|c n]; [congruence|].
  rewrite E, Hloc. destruct root as [|r0 root']; [congruence|].
  fx. rewrite Hp, Htrav.
  fold (Spec.targetOf (r0 :: root') p). rewrite Hex. simpl.
  rewrite ?app_nil_r. split; reflexivity.
Qed.

Lemma handleFilesList_missing_directory_witness :
  fst (handleFilesList Example.runtime Example.host
         (Example.request "-srv-app" "no/such/dir"))
  = Ret (json (FilesListResponse [] (lit "no/such/dir")) 200).
Proof.
  refine (proj1 (handleFilesList_missing_directory
                   Example.runtime Example.host
                   (Example.request "-srv-app" "no/such/dir")
                   (encodedName := lit "-srv-app") (root := lit "/srv/app")
                   eq_refl _ eq_refl _ eq_refl _ eq_refl)).
  - discriminate.
  - discriminate.
  - intros H. apply traversal_spec in H. vm_compute in H. discriminate.
Defined.

(* ================================================================== *)
(** ** The boundary check of the three handlers *)

(** Case analysis on the innermost scrutinee first. *)
Ltac crack :=
  repeat match goal with
         | |- context [match ?x with _ => _ end] =>
             lazymatch x with
             | context [match _ with _ => _ end] => fail
             | _ => destruct x eqn:?
             end
         end.

Lemma Traversal_nonempty (p : jsstring) : Spec.Traversal p -> p <> [].
Proof.
  intros [[a [b H]] | [r H]] ->; [|discriminate].
  destruct a; discriminate.
Qed.




(** C1, amended.  When the encoded project name is not empty and resolves
    to a project, a call to List, ReadContent or Download whose relative
    path (for Download, the path parameter without its [/download] suffix)
    contains two consecutive dots or begins with a slash is answered with
    the 403 access-denied error; the filesystem calls made are exactly
    those of the project lookup, which reads the registry file and lists
    the history directories: nothing under the project root is asked to
    exist, inspected or read. *)
Theorem traversal_denied_after_lookup
    (rt : Runtime) (host : Host) (req : Request)
    (encodedName root : jsstring) :
  param_encodedProjectName req = Some encodedName ->
  encodedName <> [] ->
  Spec.locate rt host encodedName = Some root ->
  root <> [] ->
  let lookup := PathUtils.getProjectPathFromEncodedName rt host encodedName in
  (Spec.Traversal (orDefault (query_path req) []) ->
   handleFilesList rt host req
   = (Ret (Spec.accessDenied "Access denied: Invalid path"), snd lookup)) /\
  (forall p, param_path req = Some p -> Spec.Traversal p ->
   handleFileContent rt host req
   = (Ret (Spec.accessDenied "Access denied: Invalid file path"), snd lookup)) /\
  (forall p, param_path req = Some p ->
   Spec.Traversal (withoutDownloadSuffix p) ->
   handleFileDownload rt host req
   = (Ret (Spec.accessDenied "Access denied: Invalid file path"), snd lookup)) /\
  Forall (Spec.lookupCall rt) (snd lookup).
Proof.
  intros Hname Hne Hloc Hroot lookup. subst lookup.
  destruct (getProjectPathFromEncodedName_result rt host encodedName)
    as [t [E F]].
  destruct encodedName as [|c n]; [congruence|].
  destruct root as [|r0 root']; [congruence|].
  rewrite E, Hloc in *. simpl snd.
  split; [|split; [|split]].
  - intros Ht. apply traversal_spec in Ht.
    unfold handleFilesList. rewrite Hname, E. fx. rewrite Ht.
    rewrite ?app_nil_r. reflexivity.
  - intros p Hp Ht. pose proof (Traversal_nonempty Ht) as Hpne.
    apply traversal_spec in Ht. destruct p as [|p0 p']; [congruence|].
    unfold handleFileContent. rewrite Hname, Hp, E. fx. rewrite Ht.
    rewrite ?app_nil_r. reflexivity.
  - intros p Hp Ht. pose proof (Traversal_nonempty Ht) as Hpne.
    apply traversal_spec in Ht.
    destruct p as [|p0 p']; [exfalso; apply Hpne; reflexivity|].
    unfold handleFileDownload. rewrite Hname, Hp, E. fx. rewrite Ht.
    rewrite ?app_nil_r. reflexivity.
  - exact F.
Qed.

Lemma traversal_denied_after_lookup_witness :
  handleFilesList Example.runtime Example.host
    (Example.request "-srv-app" "../../etc/passwd")
  = (Ret (Spec.accessDenied "Access denied: Invalid path"),
     [ReadTextFile (lit "/home/u/.claude.json");
      ReadDir (lit "/home/u/.claude/projects")]).
Proof.
  refine (proj1 (traversal_denied_after_lookup
                   Example.runtime Example.host
                   (Example.request "-srv-app" "../../etc/passwd")
                   (encodedName := lit "-srv-app") (root := lit "/srv/app")
                   eq_refl _ eq_refl _) _).
  - discriminate.
  - discriminate.
  - apply traversal_spec. reflexivity.
Defined.

(** C1, as stated, fails twice.  With a project name that resolves to no
    project the three handlers answer 404, not 403, to a traversal path;
    and with a project that resolves, the 403 comes after two filesystem
    calls: the registry file was read and the history directories were
    listed. *)
Lemma traversal_not_always_403_nor_first :
  Spec.Traversal (lit "../../etc/passwd") /\
  fst (handleFilesList Example.runtime Example.host
         (Example.request "-srv-nope" "../../etc/passwd"))
  = Ret (json (ErrorBody (lit "Project not found")) 404) /\
  fst (handleFileContent Example.runtime Example.host
         (Example.request "-srv-nope" "../../etc/passwd"))
  = Ret (json (ErrorBody (lit "Project not found")) 404) /\
  fst (handleFileDownload Example.runtime Example.host
         (Example.request "-srv-nope" "../../etc/passwd"))
  = Ret (json (ErrorBody (lit "Project not found")) 404) /\
  snd (handleFilesList Example.runtime Example.host
         (Example.request "-srv-app" "../../etc/passwd"))
  = [ReadTextFile (lit "/home/u/.claude.json");
     ReadDir (lit "/home/u/.claude/projects")].
Proof.
  split; [apply traversal_spec; reflexivity|].
  repeat split; reflexivity.
Qed.

(* ================================================================== *)
(** ** Unsafe encoded project names *)

Lemma dangerousChars_spec (c : N) :
  PathUtils.dangerousChars c = true <-> Spec.Dangerous c.
Proof.
  unfold PathUtils.dangerousChars, Spec.Dangerous.
  rewrite !orb_true_iff, existsb_exists, N.leb_le, !N.eqb_eq.
  split.
  - intros [[[[x [Hx He]] | H] | H] | H]; auto.
    apply N.eqb_eq in He. subst x. left; exact Hx.
  - intros [H | [H | [H | H]]]; auto.
    left; left; left. exists c. split; [exact H | apply N.eqb_refl].
Qed.





(* ================================================================== *)
(** ** ContentClassifier and ReadContent *)

Lemma isTextFile_textLike (m : jsstring) :
  isTextFile (MimeString m) = Ret (Spec.textLike m).
Proof.
  unfold isTextFile, Spec.textLike. f_equal. simpl.
  rewrite orb_false_r, !orb_assoc. reflexivity.
Qed.

Section PreviewReached.
Variable rt : Runtime.
Variable host : Host.
Variable req : Request.
Variables encodedName root p : jsstring.
Variable st : FileStats.

(** ReadContent gets as far as the metadata of a file: the project
    resolves to [root], the path [p] passes the boundary check, and the
    resolved path exists with metadata [st] and is not a directory. *)
Hypothesis Hname : param_encodedProjectName req = Some encodedName.
Hypothesis Hne : encodedName <> [].
Hypothesis Hloc : Spec.locate rt host encodedName = Some root.
Hypothesis Hroot : root <> [].
Hypothesis Hpath : param_path req = Some p.
Hypothesis Hpne : p <> [].
Hypothesis Hsafe : ~ Spec.Traversal p.
Hypothesis Hexists : exists_ rt (safeResolvePath root p) = Ret true.
Hypothesis Hstat : stat rt (safeResolvePath root p) = Ret st.
Hypothesis Hfile : stat_isDirectory st = false.

Let fullPath := safeResolvePath root p.
Let lookup := PathUtils.getProjectPathFromEncodedName rt host encodedName.
Let reached := snd lookup ++ [Exists fullPath; Stat fullPath].
Let mimeType := getMimeType (getFileExtension host p).

Lemma handleFileContent_previewFile :
  handleFileContent rt host req
  = let (r, t) :=
      tryCatch (previewFile rt host fullPath p st)
        (fun error =>
           ret (json (ErrorBody
                        (messageOr error (lit "Failed to read file"))) 500))
    in (r, reached ++ t).
Proof.
  subst reached lookup fullPath.
  destruct (getProjectPathFromEncodedName_result rt host encodedName)
    as [t [E _]].
  pose proof (not_traversal Hsafe) as Htrav.
  unfold handleFileContent. rewrite Hname, Hpath.
  destruct encodedName as [|c n]; [congruence|].
  destruct p as [|p0 p']; [congruence|].
  rewrite E, Hloc. destruct root as [|r0 root']; [congruence|].
  fx. rewrite Htrav, Hexists. cbn [negb]. rewrite Hstat, Hfile.
  destruct (previewFile rt host _ _ st) as [[resp|e] t'];
    simpl; rewrite ?app_nil_r, <- ?app_assoc; reflexivity.
Qed.

(** C3, amended.  Once ReadContent has the metadata of a file, its answer
    is decided by the MIME type and the size as [Spec.classify] says:
    too large (413) exactly when the size is strictly over 10 MiB,
    whatever the type and before any content is read; text is read as
    UTF-8; an image, or any other type of at most 1 MiB (1 MiB
    included), is read as bytes and sent as base64; anything else is
    415 without a read.  A file of exactly 10 MiB is never answered
    413. *)
Theorem handleFileContent_classifies :
  (* strictly over the ceiling: 413, whatever the type, nothing read *)
  ((10 * Spec.MiB < stat_size st)%N ->
   handleFileContent rt host req
   = (Ret (json (ErrorBody (lit "File too large to preview")) 413),
      reached)) /\
  (* exactly at the ceiling: never 413 *)
  (stat_size st = (10 * Spec.MiB)%N ->
   forall resp t,
     handleFileContent rt host req = (Ret resp, t) ->
     status resp <> 413%N) /\
  (* neither text nor image, exactly 1 MiB: base64 *)
  (forall m,
      mimeType = MimeString m ->
      Spec.textLike m = false -> Spec.imageLike m = false ->
      stat_size st = Spec.MiB ->
      snd (handleFileContent rt host req)
      = reached ++ [ReadBinaryFile fullPath] /\
      forall buffer content,
        readBinaryFile rt fullPath = Ret buffer ->
        btoaFromCharCodes host buffer = Ret content ->
        fst (handleFileContent rt host req)
        = Ret (json (FileContentResponse content mimeType base64
                                         (stat_size st)) 200)) /\
  (* the decision as a function of the MIME type and the size *)
  (forall m,
      mimeType = MimeString m ->
      match Spec.classify m (stat_size st) with
      | Spec.RejectTooLarge =>
          handleFileContent rt host req
          = (Ret (json (ErrorBody (lit "File too large to preview")) 413),
             reached)
      | Spec.RejectUnsupported =>
          handleFileContent rt host req
          = (Ret (json (ErrorBody
                          (lit "File type not supported for preview")) 415),
             reached)
      | Spec.UTF8 =>
          snd (handleFileContent rt host req)
          = reached ++ [ReadTextFile fullPath] /\
          forall content,
            readTextFile rt fullPath = Ret content ->
            fst (handleFileContent rt host req)
            = Ret (json (FileContentResponse content mimeType utf_8
                                         (stat_size st)) 200)
      | Spec.Base64 =>
          snd (handleFileContent rt host req)
          = reached ++ [ReadBinaryFile fullPath] /\
          forall buffer content,
            readBinaryFile rt fullPath = Ret buffer ->
            btoaFromCharCodes host buffer = Ret content ->
            fst (handleFileContent rt host req)
            = Ret (json (FileContentResponse content mimeType base64
                                         (stat_size st)) 200)
      end).
Proof.
  assert (Hdecide : forall m,
    mimeType = MimeString m ->
    match Spec.classify m (stat_size st) with
    | Spec.RejectTooLarge =>
        handleFileContent rt host req
        = (Ret (json (ErrorBody (lit "File too large to preview")) 413),
           reached)
    | Spec.RejectUnsupported =>
        handleFileContent rt host req
        = (Ret (json (ErrorBody
                        (lit "File type not supported for preview")) 415),
           reached)
    | Spec.UTF8 =>
        snd (handleFileContent rt host req)
        = reached ++ [ReadTextFile fullPath] /\
        forall content,
          readTextFile rt fullPath = Ret content ->
          fst (handleFileContent rt host req)
          = Ret (json (FileContentResponse content mimeType utf_8
                                         (stat_size st)) 200)
    | Spec.Base64 =>
        snd (handleFileContent rt host req)
        = reached ++ [ReadBinaryFile fullPath] /\
        forall buffer content,
          readBinaryFile rt fullPath = Ret buffer ->
          btoaFromCharCodes host buffer = Ret content ->
          fst (handleFileContent rt host req)
          = Ret (json (FileContentResponse content mimeType base64
                                         (stat_size st)) 200)
    end).
  { intros m Hm. rewrite handleFileContent_previewFile.
    unfold previewFile, Spec.classify.
    change (10 * Spec.MiB)%N with maxSize. fold mimeType. rewrite Hm.
    destruct (N.ltb maxSize (stat_size st)).
    - fx. simpl. rewrite ?app_nil_r. reflexivity.
    - rewrite isTextFile_textLike. unfold isImageFile.
      fold (Spec.imageLike m). change (1024 * 1024)%N with Spec.MiB.
      fx. destruct (Spec.textLike m).
      + destruct (readTextFile rt fullPath) as [content|e]; simpl;
          (split; [reflexivity|]); intros c Hc; inversion Hc; reflexivity.
      + destruct (Spec.imageLike m || N.leb (stat_size st) Spec.MiB).
        * destruct (readBinaryFile rt fullPath) as [buffer|e]; simpl.
          -- destruct (btoaFromCharCodes host buffer) as [content|e]
               eqn:Hbtoa;
               simpl; (split; [reflexivity|]);
               intros b c Hb Hc; inversion Hb; subst; congruence.
          -- split; [reflexivity|]. intros b c Hb; discriminate.
        * simpl. rewrite ?app_nil_r. reflexivity. }
  split; [|split; [|split]].
  - intros Hbig. rewrite handleFileContent_previewFile.
    unfold previewFile. change maxSize with (10 * Spec.MiB)%N.
    apply N.ltb_lt in Hbig. rewrite Hbig.
    fx. simpl. rewrite ?app_nil_r. reflexivity.
  - intros Hsz resp t. rewrite handleFileContent_previewFile.
    unfold previewFile. rewrite Hsz.
    change (N.ltb maxSize (10 * Spec.MiB)) with false. cbv iota.
    fx. crack; intros H; inversion H; subst; simpl; discriminate.
  - intros m Hm Htext Himg Hsz.
    specialize (Hdecide m Hm). unfold Spec.classify in Hdecide.
    assert (H1 : N.ltb (10 * Spec.MiB) (stat_size st) = false)
      by (rewrite Hsz; reflexivity).
    assert (H2 : N.leb (stat_size st) Spec.MiB = true)
      by (rewrite Hsz; reflexivity).
    rewrite H1, H2, Htext, Himg in Hdecide. exact Hdecide.
  - exact Hdecide.
Qed.
End PreviewReached.

(** [mid.bin], exactly 1 MiB and of no known type, is previewed as
    base64. *)
Lemma handleFileContent_classifies_witness :
  fst (handleFileContent Example.runtime Example.host
         (Example.request "-srv-app" "mid.bin"))
  = Ret (json (FileContentResponse (lit "AAAA")
                 (MimeString (lit "application/octet-stream"))
                 base64 1048576) 200).
Proof.
  assert (Hsafe : ~ Spec.Traversal (lit "mid.bin")).
  { intros H. apply traversal_spec in H. discriminate. }
  assert (Hne : lit "-srv-app" <> []) by discriminate.
  assert (Hroot : lit "/srv/app" <> []) by discriminate.
  assert (Hpne : lit "mid.bin" <> []) by discriminate.
  pose proof (@handleFileContent_classifies
                Example.runtime Example.host
                (Example.request "-srv-app" "mid.bin")
                (lit "-srv-app") (lit "/srv/app") (lit "mid.bin")
                (Example.fileStat 1048576)
                eq_refl Hne eq_refl Hroot eq_refl Hpne Hsafe
                eq_refl eq_refl eq_refl) as [_ [_ [H _]]].
  destruct (H (lit "application/octet-stream")
              eq_refl eq_refl eq_refl eq_refl) as [_ Hresp].
  exact (Hresp [1; 2; 3]%N (lit "AAAA") eq_refl eq_refl).
Defined.

(** C3, as stated, fails at the ceiling: [big.bin] and [big.txt] are both
    exactly 10 MiB (10485760 bytes); the first is refused as an
    unsupported type (415) and the second is read and returned as UTF-8
    text (200).  Neither is answered 413. *)
Lemma ten_MiB_is_not_too_large :
  stat Example.runtime (lit "/srv/app/big.bin")
  = Ret (Example.fileStat 10485760) /\
  fst (handleFileContent Example.runtime Example.host
         (Example.request "-srv-app" "big.bin"))
  = Ret (json (ErrorBody (lit "File type not supported for preview")) 415) /\
  stat Example.runtime (lit "/srv/app/big.txt")
  = Ret (Example.fileStat 10485760) /\
  fst (handleFileContent Example.runtime Example.host
         (Example.request "-srv-app" "big.txt"))
  = Ret (json (FileContentResponse (lit "text")
                 (MimeString (lit "text/plain")) utf_8 10485760) 200).
Proof. repeat split; reflexivity. Qed.

(* ================================================================== *)
(** ** The order of a listing *)

Section Sorting.
Variable A : Type.
Variable cmp : A -> A -> Z.

Let le (a b : A) : Prop := (cmp a b <= 0)%Z.

Hypothesis cmp_total : forall a b, le a b \/ le b a.
Hypothesis cmp_trans : forall a b c, le a b -> le b c -> le a c.

Lemma insert_In (x y : A) (l : list A) :
  In y (insert cmp x l) -> y = x \/ In y l.
Proof.
  induction l as [|z l IH]; simpl.
  - intros [<-|[]]; auto.
  - destruct (Z.leb (cmp x z) 0); simpl.
    + intros [<-|[<-|H]]; auto.
    + intros [<-|H]; auto. destruct (IH H); auto.
Qed.

Lemma insert_sorted (x : A) (l : list A) :
  StronglySorted le l -> StronglySorted le (insert cmp x l).
Proof.
  induction 1 as [|z l Hs IH Hz]; simpl.
  - repeat constructor.
  - destruct (Z.leb (cmp x z) 0) eqn:E.
    + apply Z.leb_le in E. constructor; [constructor; assumption|].
      constructor; [exact E|].
      rewrite Forall_forall in *. intros y Hy.
      apply (cmp_trans (b := z)); [exact E | auto].
    + apply Z.leb_gt in E. constructor; [exact IH|].
      rewrite Forall_forall in *. intros y Hy.
      apply insert_In in Hy. destruct Hy as [->|Hy]; [|auto].
      destruct (cmp_total z x) as [H|H]; [exact H|].
      unfold le in H. lia.
Qed.

Lemma sort_sorted (l : list A) : StronglySorted le (sort cmp l).
Proof.
  induction l as [|x l IH]; simpl; [constructor|].
  apply insert_sorted; exact IH.
Qed.

Lemma sorted_pair (l l1 l2 l3 : list A) (a b : A) :
  StronglySorted le l -> l = l1 ++ a :: l2 ++ b :: l3 -> le a b.
Proof.
  intros Hs ->. revert Hs. induction l1 as [|x l1 IH]; simpl; intros Hs.
  - inversion Hs as [|? ? _ Hall]; subst.
    rewrite Forall_forall in Hall. apply Hall.
    apply in_or_app. right. left. reflexivity.
  - inversion Hs; subst. auto.
Qed.
End Sorting.

Section ListingOrder.
Variable host : Host.

Hypothesis localeCompare_total :
  forall s t, (localeCompare host s t <= 0)%Z \/
              (localeCompare host t s <= 0)%Z.
Hypothesis localeCompare_trans :
  forall s t u, (localeCompare host s t <= 0)%Z ->
                (localeCompare host t u <= 0)%Z ->
                (localeCompare host s u <= 0)%Z.

Lemma compareFiles_total (a b : FileInfo) :
  (compareFiles host a b <= 0)%Z \/ (compareFiles host b a <= 0)%Z.
Proof.
  unfold compareFiles. destruct (type a), (type b);
    try (left; lia); try (right; lia); apply localeCompare_total.
Qed.

Lemma compareFiles_trans (a b c : FileInfo) :
  (compareFiles host a b <= 0)%Z -> (compareFiles host b c <= 0)%Z ->
  (compareFiles host a c <= 0)%Z.
Proof.
  unfold compareFiles. destruct (type a), (type b), (type c);
    try lia; apply localeCompare_trans.
Qed.

Lemma compareFiles_listed (a b : FileInfo) :
  (compareFiles host a b <= 0)%Z -> Spec.listed host a b.
Proof.
  unfold compareFiles, Spec.listed.
  destruct (type a), (type b); intros H; split; intros E;
    try discriminate; try reflexivity; try lia; exact H.
Qed.

(** C8.  In every file list that [handleFilesList] returns, of two
    entries the earlier one is never a file when the later one is a
    directory, and two entries of one type are in ascending
    [localeCompare] order of their names; [localeCompare] is taken to be
    a total preorder, as a collation is. *)
Theorem handleFilesList_sorted
    (rt : Runtime) (req : Request) (resp : Response) (t : Trace)
    (files : list FileInfo) (currentPath : jsstring) :
  handleFilesList rt host req = (Ret resp, t) ->
  body resp = FilesListResponse files currentPath ->
  forall before a between b after,
    files = before ++ a :: between ++ b :: after ->
    Spec.listed host a b.
Proof.
  unfold handleFilesList. fx.
  crack; intros H; inversion H; subst; simpl; intros Hb;
    try discriminate; inversion Hb; subst;
    intros before a between b after Hfiles.
  all: try (destruct before; discriminate).
  all: apply compareFiles_listed;
    eapply sorted_pair; [|exact Hfiles];
    apply sort_sorted;
    [exact compareFiles_total | exact compareFiles_trans].
Qed.
End ListingOrder.

Lemma unitCompare_total (s t : jsstring) :
  (Example.unitCompare s t <= 0)%Z \/ (Example.unitCompare t s <= 0)%Z.
Proof.
  revert t; induction s as [|a s IH]; intros [|b t]; simpl;
    try (left; lia); try (right; lia).
  rewrite (N.compare_antisym a b).
  destruct (N.compare a b); simpl; try (left; lia); try (right; lia).
  apply IH.
Qed.

Lemma unitCompare_trans (s t u : jsstring) :
  (Example.unitCompare s t <= 0)%Z -> (Example.unitCompare t u <= 0)%Z ->
  (Example.unitCompare s u <= 0)%Z.
Proof.
  revert t u; induction s as [|a s IH]; intros [|b t] [|c u]; simpl;
    try lia.
  destruct (N.compare_spec a b), (N.compare_spec b c), (N.compare_spec a c);
    subst; try lia; try (apply IH).
Qed.

(** In the listing of [/srv/app] the directory [docs] comes before the
    file [Zed.md]. *)
Lemma handleFilesList_sorted_witness :
  Spec.listed Example.host
    {| name := lit "docs"; path := lit "docs"; type := directory;
       size := None; modifiedTime := None; extension := None |}
    {| name := lit "Zed.md"; path := lit "Zed.md"; type := file;
       size := Some 20%N; modifiedTime := None;
       extension := Some (lit "md") |}.
Proof.
  pose proof (@handleFilesList_sorted Example.host
                unitCompare_total unitCompare_trans
                Example.runtime (Example.request "-srv-app" "")
                _ _ _ _ eq_refl eq_refl) as H.
  exact (H [] _ [] _ _ eq_refl).
Defined.

(* ================================================================== *)
(** ** DownloadHeaderBuilder *)

Lemma inRange_spec (lo hi c : N) :
  inRange lo hi c = true <-> (lo <= c <= hi)%N.
Proof.
  unfold inRange. rewrite andb_true_iff, !N.leb_le. reflexivity.
Qed.

Lemma printable_spec (c : N) : printable c = true <-> Spec.PrintableAscii c.
Proof. apply inRange_spec. Qed.

Lemma hasNonAscii_false (filename : jsstring) :
  Forall Spec.PrintableAscii filename -> hasNonAscii filename = false.
Proof.
  induction 1 as [|c l Hc _ IH]; [reflexivity|].
  unfold hasNonAscii in *. simpl.
  apply printable_spec in Hc. rewrite Hc, IH. reflexivity.
Qed.

Lemma hasNonAscii_true (filename : jsstring) (c : N) :
  In c filename -> ~ Spec.PrintableAscii c -> hasNonAscii filename = true.
Proof.
  intros Hin Hc. unfold hasNonAscii. apply existsb_exists.
  exists c. split; [exact Hin|].
  destruct (printable c) eqn:E; [|reflexivity].
  apply printable_spec in E. contradiction.
Qed.

Lemma safeFilename_escaped (filename : jsstring) :
  safeFilename filename = Spec.escaped filename.
Proof.
  unfold safeFilename, quoteOrBackslash.
  induction filename as [|c l IH]; [reflexivity|].
  simpl. rewrite IH.
  destruct (N.eqb c quote || N.eqb c backslash); reflexivity.
Qed.

Lemma asciiFilename_fallback (filename : jsstring) :
  Forall2 Spec.fallbackUnit filename (asciiFilename filename).
Proof.
  unfold asciiFilename, replaceAll. rewrite map_map.
  induction filename as [|c l IH]; simpl; constructor; [|exact IH].
  unfold Spec.fallbackUnit, quoteOrBackslash.
  destruct (printable c) eqn:Hp; simpl.
  - apply printable_spec in Hp.
    destruct (N.eqb_spec c quote) as [Hq|Hq]; simpl.
    + right. auto.
    + destruct (N.eqb_spec c backslash) as [Hb|Hb]; [right|left]; auto.
  - right. split; [|reflexivity]. left. intros H.
    apply printable_spec in H. congruence.
Qed.

(** A well-formed string is encoded without a [URIError]. *)
Lemma encodeURIComponent_wellFormed (s : jsstring) :
  isWellFormed s = true -> exists encoded, encodeURIComponent s = Some encoded.
Proof.
  remember (List.length s) as n eqn:Hn. revert s Hn.
  induction n as [n IH] using lt_wf_ind. intros s Hn.
  destruct s as [|c rest]; [intros _; exists []; reflexivity|].
  cbn [isWellFormed encodeURIComponent].
  assert (Hrest : isWellFormed rest = true ->
                  exists e, encodeURIComponent rest = Some e).
  { apply (IH (List.length rest)); [subst n; simpl; lia | reflexivity]. }
  destruct (uriUnreserved c) eqn:Hu.
  - destruct (isLowSurrogate c) eqn:Hlow.
    + (* an unreserved unit is not a surrogate *)
      exfalso. unfold uriUnreserved, isLowSurrogate, inRange in *.
      cbn [existsb] in Hu.
      rewrite !orb_true_iff, !andb_true_iff, !N.leb_le, !N.eqb_eq in *.
      lia.
    + destruct (isHighSurrogate c) eqn:Hhigh.
      * exfalso. unfold uriUnreserved, isHighSurrogate, inRange in *.
        cbn [existsb] in Hu.
        rewrite !orb_true_iff, !andb_true_iff, !N.leb_le, !N.eqb_eq in *.
        lia.
      * intros H. destruct (Hrest H) as [e ->]. eexists; reflexivity.
  - destruct (isLowSurrogate c); [discriminate|].
    destruct (isHighSurrogate c).
    + destruct rest as [|lo rest']; [discriminate|].
      destruct (isLowSurrogate lo); [|discriminate].
      cbn [andb]. intros H.
      destruct (IH (List.length rest')
                   ltac:(subst n; simpl; lia) rest' eq_refl H) as [e ->].
      eexists; reflexivity.
    + intros H. destruct (Hrest H) as [e ->]. eexists; reflexivity.
Qed.

(** C6.  For a file name made of printable ASCII only, the
    [Content-Disposition] value is exactly [attachment; filename=] followed
    by the quoted name with every quote and backslash preceded by a
    backslash, and nothing else.  For a well-formed name holding a unit
    outside printable ASCII, so in particular any non-ASCII character, it
    holds both the quoted ASCII fallback, where every such unit, quote and
    backslash is an underscore and every other unit is kept, and
    [filename*=UTF-8''] followed by the percent-encoded name.  The two
    names of the specification give one parameter for [plain.txt], and
    [r_sum_.pdf] with [r%C3%A9sum%C3%A9.pdf] for the accented one. *)
Theorem contentDisposition_build (filename : jsstring) :
  (Forall Spec.PrintableAscii filename ->
   contentDisposition filename
   = Ret (Spec.singleParameter (Spec.escaped filename))) /\
  (isWellFormed filename = true ->
   (exists c, In c filename /\ ~ Spec.PrintableAscii c) ->
   exists encoded,
     encodeURIComponent filename = Some encoded /\
     contentDisposition filename
     = Ret (Spec.bothParameters (asciiFilename filename) encoded) /\
     Forall2 Spec.fallbackUnit filename (asciiFilename filename)) /\
  contentDisposition (lit "plain.txt")
  = Ret (Spec.singleParameter (lit "plain.txt")) /\
  contentDisposition Spec.resume_pdf
  = Ret (Spec.bothParameters (lit "r_sum_.pdf")
                             (lit "r%C3%A9sum%C3%A9.pdf")).
Proof.
  split; [|split; [|split]].
  - intros Hall. unfold contentDisposition.
    rewrite (hasNonAscii_false Hall), safeFilename_escaped. reflexivity.
  - intros Hwf [c [Hin Hc]].
    destruct (encodeURIComponent_wellFormed filename Hwf) as [encoded He].
    exists encoded. split; [exact He|]. split.
    + unfold contentDisposition.
      rewrite (hasNonAscii_true filename Hin Hc), He. reflexivity.
    + apply asciiFilename_fallback.
  - reflexivity.
  - reflexivity.
Qed.

(** The header is the one [handleFileDownload] sends: the download of
    [b.txt] from the example project. *)
Lemma handleFileDownload_header :
  fst (handleFileDownload Example.runtime Example.host
         (Example.request "-srv-app" "b.txt/download"))
  = Ret (json (FileBytes [1; 2; 3]%N (MimeString (lit "text/plain"))
                 (Spec.singleParameter (lit "b.txt")) (lit "3")) 200).
Proof. reflexivity. Qed.

(** A name with a quote in it: the quote is escaped. *)
Lemma contentDisposition_build_witness :
  contentDisposition (lit "a" ++ [quote] ++ lit "b.txt")
  = Ret (lit "attachment; filename=" ++ [quote] ++
         lit "a" ++ [backslash; quote] ++ lit "b.txt" ++ [quote]) /\
  exists encoded,
    encodeURIComponent [8364; 49]%N = Some encoded /\
    contentDisposition [8364; 49]%N
    = Ret (Spec.bothParameters (lit "_1") encoded).
Proof.
  split.
  - refine (proj1 (contentDisposition_build
                     (lit "a" ++ [quote] ++ lit "b.txt")) _).
    repeat constructor; vm_compute; discriminate.
  - destruct (proj1 (proj2 (contentDisposition_build [8364; 49]%N)) eq_refl)
      as [encoded [He [Hd _]]].
    + exists 8364%N. split; [left; reflexivity|].
      unfold Spec.PrintableAscii. lia.
    + exists encoded. split; [exact He | exact Hd].
Defined.

(* ================================================================== *)
(** ** UploadStager *)

Lemma unsafeNameChar_spec (c : N) :
  Upload.unsafeNameChar c = false <-> Spec.allowedNameChar c.
Proof.
  unfold Upload.unsafeNameChar, Spec.allowedNameChar.
  rewrite negb_false_iff, !orb_true_iff, !inRange_spec, !N.eqb_eq.
  tauto.
Qed.

Lemma safeFileName_sanitized (fileName : jsstring) :
  Forall2 Spec.sanitizedUnit fileName (Upload.safeFileName fileName).
Proof.
  unfold Upload.safeFileName, replaceAll.
  induction fileName as [|c l IH]; simpl; constructor; [|exact IH].
  unfold Spec.sanitizedUnit.
  destruct (Upload.unsafeNameChar c) eqn:E.
  - right. split; [|reflexivity]. intros H.
    apply unsafeNameChar_spec in H. congruence.
  - left. split; [|reflexivity]. apply unsafeNameChar_spec; exact E.
Qed.

Lemma substring_app (b x : jsstring) :
  substring (b ++ lit "/" ++ x) (List.length b + 1) = x.
Proof.
  unfold substring. rewrite app_assoc.
  replace (List.length b + 1)%nat with (List.length (b ++ lit "/") + 0)%nat
    by (rewrite length_app; simpl; lia).
  rewrite skipn_app, Nat.add_0_r, skipn_all.
  replace (List.length (b ++ lit "/") - List.length (b ++ lit "/"))%nat
    with 0%nat by lia.
  reflexivity.
Qed.

(** C9.  An upload that carries a file and a non-empty session identifier
    makes the two staging directories and then writes the bytes of the
    file at [baseDir/.claude-temp/sessionId/millis_name].  [baseDir] is the
    working directory of the form when the form has one that is not empty,
    and the current directory of the runtime when the form has none or an
    empty one; [millis] is [Date.now()] in decimal and [name] is the
    original file name with every unit outside [A-Za-z0-9.-] replaced by
    an underscore.  When the write succeeds the answer is the success
    response whose [filePath] is that path relative to [baseDir]. *)
Theorem handleUpload_stages
    (rt : Runtime) (host : Host) (form : Upload.FormData)
    (file : Upload.File) (sessionId baseDir : jsstring) :
  Upload.form_file form = Some file ->
  Upload.form_sessionId form = Some sessionId ->
  sessionId <> [] ->
  (Upload.form_workingDirectory form = Some baseDir /\ baseDir <> []) \/
  ((Upload.form_workingDirectory form = None \/
    Upload.form_workingDirectory form = Some []) /\
   baseDir = getCurrentWorkingDirectory rt) ->
  let relative :=
    lit ".claude-temp/" ++ sessionId ++ lit "/" ++
    numberToString (Date_now host) ++ lit "_" ++
    Upload.safeFileName (Upload.file_name file) in
  let staged := baseDir ++ lit "/" ++ relative in
  snd (Upload.handleUpload rt host (Ret form))
  = [Mkdir (baseDir ++ lit "/.claude-temp");
     Mkdir (baseDir ++ lit "/.claude-temp/" ++ sessionId);
     WriteBinaryFile staged (Upload.file_bytes file)] /\
  (writeBinaryFile rt staged (Upload.file_bytes file) = Ret tt ->
   fst (Upload.handleUpload rt host (Ret form))
   = Ret (Upload.json {| Upload.success := true;
                         Upload.filePath := Some relative;
                         Upload.error := None |} 200)) /\
  Forall2 Spec.sanitizedUnit (Upload.file_name file)
          (Upload.safeFileName (Upload.file_name file)).
Proof.
  intros Hfile Hsid Hne Hbase relative staged.
  assert (Hdir0 : orDefault (Upload.form_workingDirectory form)
                            (getCurrentWorkingDirectory rt) = baseDir).
  { destruct Hbase as [[Hwd Hnonempty] | [[Hwd | Hwd] Hcwd]];
      rewrite Hwd; [|symmetry; exact Hcwd | symmetry; exact Hcwd].
    destruct baseDir; [congruence | reflexivity]. }
  destruct sessionId as [|s0 sid]; [congruence|].
  assert (Hpath :
    ((baseDir ++ lit "/.claude-temp") ++ lit "/" ++ s0 :: sid) ++ lit "/" ++
    numberToString (Date_now host) ++ lit "_" ++
    Upload.safeFileName (Upload.file_name file) = staged).
  { subst staged relative. rewrite <- !app_assoc. reflexivity. }
  assert (Hdir : (baseDir ++ lit "/.claude-temp") ++ lit "/" ++ s0 :: sid
                 = baseDir ++ lit "/.claude-temp/" ++ s0 :: sid).
  { rewrite <- !app_assoc. reflexivity. }
  unfold Upload.handleUpload, Upload.ensureDir.
  fx. rewrite Hfile, Hsid, Hdir0, Hpath, Hdir.
  split; [|split].
  - destruct (mkdir rt (baseDir ++ lit "/.claude-temp")) as [[]|e1];
      destruct (mkdir rt (baseDir ++ lit "/.claude-temp/" ++ s0 :: sid))
        as [[]|e2];
      destruct (writeBinaryFile rt staged (Upload.file_bytes file))
        as [[]|e3]; reflexivity.
  - intros Hw. rewrite Hw.
    assert (Hrel : startsWith staged (baseDir ++ lit "/") = true).
    { subst staged. rewrite app_assoc. apply startsWith_app. }
    rewrite Hrel. subst staged. rewrite substring_app.
    destruct (mkdir rt (baseDir ++ lit "/.claude-temp")) as [[]|e1];
      destruct (mkdir rt (baseDir ++ lit "/.claude-temp/" ++ s0 :: sid))
        as [[]|e2]; reflexivity.
  - apply safeFileName_sanitized.
Qed.

(** With a working directory in the form the file is staged under it;
    with none, or with an empty one, under the current directory
    [/work] of the runtime. *)
Lemma handleUpload_stages_witness :
  Upload.handleUpload Example.runtime Example.host
    (Ret {| Upload.form_file :=
              Some {| Upload.file_name := lit "my file(1).txt";
                      Upload.file_bytes := [1; 2]%N |};
            Upload.form_sessionId := Some (lit "s1");
            Upload.form_workingDirectory := Some (lit "/data/project") |})
  = (Ret (Upload.json
            {| Upload.success := true;
               Upload.filePath :=
                 Some (lit ".claude-temp/s1/1700000000123_my_file_1_.txt");
               Upload.error := None |} 200),
     [Mkdir (lit "/data/project/.claude-temp");
      Mkdir (lit "/data/project/.claude-temp/s1");
      WriteBinaryFile
        (lit "/data/project/.claude-temp/s1/1700000000123_my_file_1_.txt")
        [1; 2]%N]) /\
  Upload.handleUpload Example.runtime Example.host
    (Ret {| Upload.form_file :=
              Some {| Upload.file_name := lit "my file(1).txt";
                      Upload.file_bytes := [1; 2]%N |};
            Upload.form_sessionId := Some (lit "s1");
            Upload.form_workingDirectory := None |})
  = (Ret (Upload.json
            {| Upload.success := true;
               Upload.filePath :=
                 Some (lit ".claude-temp/s1/1700000000123_my_file_1_.txt");
               Upload.error := None |} 200),
     [Mkdir (lit "/work/.claude-temp");
      Mkdir (lit "/work/.claude-temp/s1");
      WriteBinaryFile
        (lit "/work/.claude-temp/s1/1700000000123_my_file_1_.txt")
        [1; 2]%N]) /\
  snd (Upload.handleUpload Example.runtime Example.host
         (Ret {| Upload.form_file :=
                   Some {| Upload.file_name := lit "a.txt";
                           Upload.file_bytes := [] |};
                 Upload.form_sessionId := Some (lit "s2");
                 Upload.form_workingDirectory := Some [] |}))
  = [Mkdir (lit "/work/.claude-temp");
     Mkdir (lit "/work/.claude-temp/s2");
     WriteBinaryFile (lit "/work/.claude-temp/s2/1700000000123_a.txt") []].
Proof.
  assert (Hs1 : lit "s1" <> []) by discriminate.
  assert (Hs2 : lit "s2" <> []) by discriminate.
  assert (Hdata : lit "/data/project" <> []) by discriminate.
  split; [|split].
  - destruct (@handleUpload_stages Example.runtime Example.host
                {| Upload.form_file :=
                     Some {| Upload.file_name := lit "my file(1).txt";
                             Upload.file_bytes := [1; 2]%N |};
                   Upload.form_sessionId := Some (lit "s1");
                   Upload.form_workingDirectory :=
                     Some (lit "/data/project") |}
                _ (lit "s1") (lit "/data/project") eq_refl eq_refl Hs1
                (or_introl (conj eq_refl Hdata))) as [Htrace [Hresp _]].
    apply injective_projections; [exact (Hresp eq_refl) | exact Htrace].
  - destruct (@handleUpload_stages Example.runtime Example.host
                {| Upload.form_file :=
                     Some {| Upload.file_name := lit "my file(1).txt";
                             Upload.file_bytes := [1; 2]%N |};
                   Upload.form_sessionId := Some (lit "s1");
                   Upload.form_workingDirectory := None |}
                _ (lit "s1") (lit "/work") eq_refl eq_refl Hs1
                (or_intror (conj (or_introl eq_refl) eq_refl)))
      as [Htrace [Hresp _]].
    apply injective_projections; [exact (Hresp eq_refl) | exact Htrace].
  - exact (proj1 (@handleUpload_stages Example.runtime Example.host
                    {| Upload.form_file :=
                         Some {| Upload.file_name := lit "a.txt";
                                 Upload.file_bytes := [] |};
                       Upload.form_sessionId := Some (lit "s2");
                       Upload.form_workingDirectory := Some [] |}
                    _ (lit "s2") (lit "/work") eq_refl eq_refl Hs2
                    (or_intror (conj (or_intror eq_refl) eq_refl)))).
Defined.

(* ================================================================== *)
(** ** The encoder and the validator *)

Lemma replaceAll_length (cls : N -> bool) (r : N) (s : jsstring) :
  List.length (replaceAll cls r s) = List.length s.
Proof. unfold replaceAll. apply length_map. Qed.

Lemma encodedAway_spec (c : N) :
  PathUtils.encodedAway c = true <->
  c = slash \/ c = backslash \/ c = colon \/ c = dot.
Proof.
  unfold PathUtils.encodedAway.
  rewrite !orb_true_iff, !N.eqb_eq. tauto.
Qed.

Lemma stripTrailingSlash_length (s : jsstring) :
  (List.length (stripTrailingSlash s) <= List.length s <=
   S (List.length (stripTrailingSlash s)))%nat.
Proof.
  destruct s as [|x q] using rev_ind; [simpl; lia|].
  rewrite stripTrailingSlash_snoc, length_app. simpl.
  destruct (N.eqb x slash); rewrite ?length_app; simpl; lia.
Qed.

(** X1.  The encoded form of a project path holds no slash, backslash,
    colon or dot, and has the length of the path, less one when the path
    ends with a slash. *)
Theorem expectedEncoded_alphabet (projectPath : jsstring) :
  (forall c, In c (PathUtils.expectedEncoded projectPath) ->
             c <> slash /\ c <> backslash /\ c <> colon /\ c <> dot) /\
  List.length (PathUtils.expectedEncoded projectPath)
  = if endsWith projectPath (lit "/")
    then (List.length projectPath - 1)%nat
    else List.length projectPath.
Proof.
  split.
  - unfold PathUtils.expectedEncoded, replaceAll. intros c Hc.
    apply in_map_iff in Hc. destruct Hc as [x [Hx _]].
    destruct (PathUtils.encodedAway x) eqn:E.
    + subst c. repeat split; discriminate.
    + subst c.
      assert (H : ~ (x = slash \/ x = backslash \/ x = colon \/ x = dot)).
      { intros H. apply encodedAway_spec in H. congruence. }
      tauto.
  - unfold PathUtils.expectedEncoded, PathUtils.normalizedPath.
    rewrite replaceAll_length.
    destruct projectPath as [|x q] using rev_ind; [reflexivity|].
    rewrite endsWith_snoc, stripTrailingSlash_snoc.
    destruct (N.eqb x slash); rewrite length_app; simpl; lia.
Qed.

Lemma sameEncoded_unit (a b : N) :
  (if PathUtils.encodedAway a then hyphen else a)
  = (if PathUtils.encodedAway b then hyphen else b)
  <-> Notions.sameEncoded a b.
Proof.
  unfold Notions.sameEncoded, Notions.hyphenated.
  destruct (PathUtils.encodedAway a) eqn:Ea;
    destruct (PathUtils.encodedAway b) eqn:Eb.
  - apply encodedAway_spec in Ea, Eb. split; [|reflexivity]. tauto.
  - apply encodedAway_spec in Ea. split.
    + intros <-. right. split; [tauto | auto 6].
    + intros [<- | [_ Hb]].
      * apply encodedAway_spec in Ea. congruence.
      * assert (Hn : ~ (b = slash \/ b = backslash \/ b = colon \/ b = dot))
          by (intros H; apply encodedAway_spec in H; congruence).
        destruct Hb as [H|[H|[H|[H|H]]]]; try tauto; congruence.
  - apply encodedAway_spec in Eb. split.
    + intros ->. right. split; [auto 6 | tauto].
    + intros [-> | [Ha _]].
      * apply encodedAway_spec in Eb. congruence.
      * assert (Hn : ~ (a = slash \/ a = backslash \/ a = colon \/ a = dot))
          by (intros H; apply encodedAway_spec in H; congruence).
        destruct Ha as [H|[H|[H|[H|H]]]]; try tauto; congruence.
  - split; [intros H; left; exact H|].
    intros [H | [Ha Hb]]; [exact H|].
    assert (Hna : ~ (a = slash \/ a = backslash \/ a = colon \/ a = dot))
      by (intros H; apply encodedAway_spec in H; congruence).
    assert (Hnb : ~ (b = slash \/ b = backslash \/ b = colon \/ b = dot))
      by (intros H; apply encodedAway_spec in H; congruence).
    destruct Ha as [H|[H|[H|[H|Ha]]]]; try tauto.
    destruct Hb as [H|[H|[H|[H|Hb]]]]; try tauto; congruence.
Qed.

Lemma replaceAll_same (s t : jsstring) :
  replaceAll PathUtils.encodedAway hyphen s
  = replaceAll PathUtils.encodedAway hyphen t
  <-> Forall2 Notions.sameEncoded s t.
Proof.
  unfold replaceAll. revert t.
  induction s as [|a s IH]; intros [|b t]; simpl.
  - split; [constructor | reflexivity].
  - split; [discriminate | intros H; inversion H].
  - split; [discriminate | intros H; inversion H].
  - split.
    + intros H. inversion H as [[Hu Hr]]. constructor.
      * apply sameEncoded_unit; exact Hu.
      * apply IH; exact Hr.
    + intros H. inversion H; subst. f_equal.
      * apply sameEncoded_unit; assumption.
      * apply IH; assumption.
Qed.

(** X2.  Two project paths have the same encoded form exactly when, one
    trailing slash apart, they have the same length and agree at every
    position that does not hold a slash, backslash, colon, dot or hyphen
    in both. *)
Theorem expectedEncoded_collision (p q : jsstring) :
  PathUtils.expectedEncoded p = PathUtils.expectedEncoded q <->
  Forall2 Notions.sameEncoded
          (PathUtils.normalizedPath p) (PathUtils.normalizedPath q).
Proof. unfold PathUtils.expectedEncoded. apply replaceAll_same. Qed.

(** The paths [/srv/my.app] and [/srv/my-app/] collide. *)
Lemma expectedEncoded_collision_witness :
  PathUtils.expectedEncoded (lit "/srv/my.app")
  = PathUtils.expectedEncoded (lit "/srv/my-app/").
Proof.
  apply (proj2 (expectedEncoded_collision
                  (lit "/srv/my.app") (lit "/srv/my-app/"))).
  unfold Notions.sameEncoded, Notions.hyphenated. cbn.
  repeat (apply Forall2_cons;
          [first [left; reflexivity | right; split; auto 7]|]).
  apply Forall2_nil.
Defined.

Lemma refused_unit (c : N) :
  PathUtils.dangerousChars (if PathUtils.encodedAway c then hyphen else c)
  = true <-> Notions.refusedUnit c.
Proof.
  unfold Notions.refusedUnit.
  destruct (PathUtils.encodedAway c) eqn:E.
  - apply encodedAway_spec in E. split; [discriminate|].
    intros [H | H]; exfalso.
    + simpl in H. unfold slash, backslash, colon, dot in E. lia.
    + unfold slash, backslash, colon, dot in E. lia.
  - assert (Hn : ~ (c = slash \/ c = backslash \/ c = colon \/ c = dot))
      by (intros H; apply encodedAway_spec in H; congruence).
    rewrite dangerousChars_spec. unfold Spec.Dangerous. simpl.
    unfold colon in Hn. split.
    + intros [H | [H | [H | H]]]; try tauto.
      left. intuition congruence.
    + intros [H | H]; [left; tauto | right; left; exact H].
Qed.

(** X4.  The validator accepts the encoded form of a project path exactly
    when the path, one trailing slash apart, is not empty and holds none
    of [<], [>], the double quote, [|], [?], [*] and no unit from U+0000
    to U+001F: the colon, slash and backslash it would refuse are the ones
    the encoder has replaced. *)
Theorem validateEncodedProjectName_of_encoded (projectPath : jsstring) :
  PathUtils.validateEncodedProjectName (PathUtils.expectedEncoded projectPath)
  = true <->
  PathUtils.normalizedPath projectPath <> [] /\
  forall c, In c (PathUtils.normalizedPath projectPath) ->
            ~ Notions.refusedUnit c.
Proof.
  unfold PathUtils.expectedEncoded, PathUtils.validateEncodedProjectName.
  generalize (PathUtils.normalizedPath projectPath) as s. intros s.
  destruct s as [|a s]; [simpl; split; [discriminate | intros [H _]; congruence]|].
  remember (a :: s) as l eqn:El.
  assert (Hl : l <> []) by (subst l; discriminate).
  replace (match replaceAll PathUtils.encodedAway hyphen l with
           | [] => false
           | _ :: _ =>
               negb (existsb PathUtils.dangerousChars
                       (replaceAll PathUtils.encodedAway hyphen l))
           end)
    with (negb (existsb PathUtils.dangerousChars
                  (replaceAll PathUtils.encodedAway hyphen l)))
    by (subst l; reflexivity).
  rewrite negb_true_iff. unfold replaceAll. split.
  - intros H. split; [exact Hl|]. intros c Hc Hr.
    apply refused_unit in Hr.
    assert (Hex : existsb PathUtils.dangerousChars
                    (map (fun c => if PathUtils.encodedAway c
                                   then hyphen else c) l) = true).
    { apply existsb_exists. eexists. split; [|exact Hr].
      apply in_map_iff. exists c. split; [reflexivity | exact Hc]. }
    congruence.
  - intros [_ H].
    destruct (existsb _ _) eqn:E; [|reflexivity].
    apply existsb_exists in E. destruct E as [d [Hd Hdd]].
    apply in_map_iff in Hd. destruct Hd as [c [<- Hc]].
    apply refused_unit in Hdd. exfalso. exact (H c Hc Hdd).
Qed.

Lemma validateEncodedProjectName_of_encoded_witness :
  PathUtils.validateEncodedProjectName
    (PathUtils.expectedEncoded (lit "C:\Users\me\my.project")) = true.
Proof.
  apply (proj2 (validateEncodedProjectName_of_encoded
                  (lit "C:\Users\me\my.project"))).
  split; [discriminate|].
  intros c Hc [Hr | Hr]; simpl in Hc, Hr;
    repeat (destruct Hc as [<- | Hc]; [lia|]); exact Hc.
Defined.

(* ================================================================== *)
(** ** What the project lookup reads *)

(** X3.  [getEncodedProjectName] never throws.  Without a home directory
    it answers null and makes no call; otherwise it lists
    [~/.claude/projects] exactly once and answers the encoded form of the
    path when an entry of that name is listed as a directory, and null in
    every other case: a file of that name does not count, nor does a
    listing that fails. *)
Theorem getEncodedProjectName_outcome
    (rt : Runtime) (projectPath : jsstring) :
  (falsy (getHomeDir rt) = true ->
   PathUtils.getEncodedProjectName rt projectPath = (Ret None, [])) /\
  (forall homeDir,
      getHomeDir rt = Some homeDir -> homeDir <> [] ->
      let projectsDir := homeDir ++ lit "/.claude/projects" in
      snd (PathUtils.getEncodedProjectName rt projectPath)
      = [ReadDir projectsDir] /\
      (fst (PathUtils.getEncodedProjectName rt projectPath)
       = Ret (Some (PathUtils.expectedEncoded projectPath)) \/
       fst (PathUtils.getEncodedProjectName rt projectPath) = Ret None) /\
      (fst (PathUtils.getEncodedProjectName rt projectPath)
       = Ret (Some (PathUtils.expectedEncoded projectPath)) <->
       exists dir entry,
         readDir rt projectsDir = Ret dir /\ In entry dir /\
         entry_isDirectory entry = true /\
         entry_name entry = PathUtils.expectedEncoded projectPath)).
Proof.
  unfold PathUtils.getEncodedProjectName. split.
  - unfold falsy. destruct (getHomeDir rt) as [[|c h]|];
      intros H; (discriminate || reflexivity).
  - intros homeDir Hhome Hne. rewrite Hhome.
    destruct homeDir as [|c h]; [congruence|]. cbv zeta.
    set (projectsDir := (c :: h) ++ lit "/.claude/projects"). fx.
    destruct (readDir rt projectsDir) as [dir|e] eqn:Hdir.
    + destruct (existsb (eqb (PathUtils.expectedEncoded projectPath))
                        (map entry_name (filter entry_isDirectory dir)))
        eqn:Hex; simpl.
      * split; [reflexivity|]. split; [left; reflexivity|].
        split; [intros _|reflexivity].
        apply existsb_eqb_In in Hex. apply in_map_iff in Hex.
        destruct Hex as [entry [Hn Hin]]. apply filter_In in Hin.
        exists dir, entry. tauto.
      * split; [reflexivity|]. split; [right; reflexivity|].
        split; [discriminate|].
        intros [dir' [entry [Hd [Hin [Hisdir Hn]]]]].
        inversion Hd; subst dir'. exfalso.
        assert (Hex' : existsb (eqb (PathUtils.expectedEncoded projectPath))
                         (map entry_name (filter entry_isDirectory dir))
                       = true).
        { apply existsb_eqb_In. apply in_map_iff. exists entry.
          split; [exact Hn|]. apply filter_In. tauto. }
        congruence.
    + simpl. split; [reflexivity|]. split; [right; reflexivity|].
      split; [discriminate|].
      intros [dir' [entry [Hd _]]]. discriminate.
Qed.

Lemma getEncodedProjectName_outcome_witness :
  PathUtils.getEncodedProjectName Example.runtime (lit "/srv/app/")
  = (Ret (Some (lit "-srv-app")), [ReadDir (lit "/home/u/.claude/projects")]).
Proof.
  assert (Hne : lit "/home/u" <> []) by discriminate.
  destruct (proj2 (getEncodedProjectName_outcome
                     Example.runtime (lit "/srv/app/"))
                  (lit "/home/u") eq_refl Hne) as [Ht [_ Hiff]].
  apply injective_projections; [|exact Ht].
  apply (proj2 Hiff).
  exists [Example.dirEntry "-srv-app"; Example.dirEntry "-srv-a?b"],
         (Example.dirEntry "-srv-app").
  repeat split; try reflexivity. left; reflexivity.
Defined.

Lemma getEncodedProjectName_lists_once (rt : Runtime)
    (projectPath homeDir : jsstring) :
  getHomeDir rt = Some homeDir -> homeDir <> [] ->
  snd (PathUtils.getEncodedProjectName rt projectPath)
  = [ReadDir (homeDir ++ lit "/.claude/projects")].
Proof.
  intros Hhome Hne. unfold PathUtils.getEncodedProjectName. rewrite Hhome.
  destruct homeDir as [|c h]; [congruence|]. fx.
  destruct (readDir rt ((c :: h) ++ lit "/.claude/projects")) as [dir|e];
    [destruct (existsb _ _)|]; reflexivity.
Qed.

Lemma findProject_trace (rt : Runtime) (homeDir : jsstring)
    (encodedName : jsstring) (paths : list jsstring) :
  getHomeDir rt = Some homeDir -> homeDir <> [] ->
  exists k,
    snd (PathUtils.findProject rt encodedName paths)
    = repeat (ReadDir (homeDir ++ lit "/.claude/projects")) k /\
    (k <= List.length paths)%nat /\
    (fst (PathUtils.findProject rt encodedName paths) = Ret None ->
     k = List.length paths).
Proof.
  intros Hhome Hne. induction paths as [|p rest IH].
  - exists 0%nat. repeat split; reflexivity.
  - destruct IH as [k [Ht [Hk Hnone]]].
    pose proof (getEncodedProjectName_lists_once rt p Hhome Hne) as Ht1.
    cbn [PathUtils.findProject]. unfold bind.
    destruct (PathUtils.getEncodedProjectName rt p) as [[[e|]|err] t1] eqn:E1;
      simpl in Ht1; subst t1.
    + destruct (eqb e encodedName).
      * exists 1%nat. simpl. repeat split; [lia | discriminate].
      * destruct (PathUtils.findProject rt encodedName rest) as [r t2].
        simpl in *. exists (S k). subst t2. simpl.
        repeat split; [lia | intros H; f_equal; auto].
    + destruct (PathUtils.findProject rt encodedName rest) as [r t2].
      simpl in *. exists (S k). subst t2. simpl.
      repeat split; [lia | intros H; f_equal; auto].
    + destruct (getEncodedProjectName_result rt p) as [t' [E' _]].
      congruence.
Qed.

(** X5.  The project lookup reads the registry file at most once, first,
    and after it only lists the history directory: without a home
    directory it makes no call at all; otherwise its calls are one read of
    [~/.claude.json] followed by some listings of [~/.claude/projects], at
    most one for each registry path, and exactly one for each when the
    name resolves to no project. *)
Theorem getProjectPathFromEncodedName_calls
    (rt : Runtime) (host : Host) (encodedName : jsstring) :
  (falsy (getHomeDir rt) = true ->
   PathUtils.getProjectPathFromEncodedName rt host encodedName
   = (Ret None, [])) /\
  (forall homeDir,
      getHomeDir rt = Some homeDir -> homeDir <> [] ->
      exists k,
        snd (PathUtils.getProjectPathFromEncodedName rt host encodedName)
        = ReadTextFile (homeDir ++ lit "/.claude.json")
          :: repeat (ReadDir (homeDir ++ lit "/.claude/projects")) k /\
        forall paths,
          Spec.registry rt host = Some paths ->
          (k <= List.length paths)%nat /\
          (Spec.locate rt host encodedName = None ->
           k = List.length paths)).
Proof.
  split.
  - unfold PathUtils.getProjectPathFromEncodedName, falsy.
    destruct (getHomeDir rt) as [[|c h]|];
      intros H; (discriminate || reflexivity).
  - intros homeDir Hhome Hne.
    destruct (getProjectPathFromEncodedName_result rt host encodedName)
      as [t0 [E0 _]].
    unfold PathUtils.getProjectPathFromEncodedName in *.
    unfold Spec.registry. rewrite Hhome in *.
    destruct homeDir as [|c h]; [congruence|]. fx.
    destruct (readTextFile rt ((c :: h) ++ lit "/.claude.json"))
      as [configContent|e];
      [| exists 0%nat; split; [reflexivity | discriminate]].
    destruct (JSON_parse host configContent) as [config|e];
      [| exists 0%nat; split; [reflexivity | discriminate]].
    destruct (getProp config (lit "projects")) as [[v|]|];
      try (exists 0%nat; split; [reflexivity | discriminate]).
    destruct (truthyObject (Some v)) eqn:Hobj;
      [| exists 0%nat; split; [reflexivity | discriminate]].
    destruct (findProject_trace rt encodedName (entryKeys v) Hhome Hne)
      as [k [Ht [Hk Hnone]]].
    destruct (PathUtils.findProject rt encodedName (entryKeys v))
      as [[r|err] t] eqn:Ef; simpl in Ht, Hnone; subst t.
    + exists k. simpl. rewrite ?app_nil_r. split; [reflexivity|].
      intros paths Hp. inversion Hp; subst paths. split; [exact Hk|].
      intros Hloc. apply Hnone. inversion E0. congruence.
    + destruct (findProject_result rt encodedName (entryKeys v))
        as [t' [E' _]]. congruence.
Qed.

Lemma getProjectPathFromEncodedName_calls_witness :
  snd (PathUtils.getProjectPathFromEncodedName
         Example.runtime Example.host (lit "-srv-nope"))
  = [ReadTextFile (lit "/home/u/.claude.json");
     ReadDir (lit "/home/u/.claude/projects");
     ReadDir (lit "/home/u/.claude/projects");
     ReadDir (lit "/home/u/.claude/projects")].
Proof.
  assert (Hne : lit "/home/u" <> []) by discriminate.
  destruct (proj2 (getProjectPathFromEncodedName_calls
                     Example.runtime Example.host (lit "-srv-nope"))
                  (lit "/home/u") eq_refl Hne) as [k [Ht Hk]].
  destruct (Hk _ eq_refl) as [_ Hall].
  rewrite Ht, (Hall eq_refl). reflexivity.
Defined.

(* ================================================================== *)
(** ** Properties that hold of every call a handler makes *)

Section TraceInvariant.
Variable P : Call -> Prop.

Lemma trace_ret {A} (a : A) : Forall P (snd (ret a)).
Proof. constructor. Qed.

Lemma trace_lift {A} (r : Outcome A) : Forall P (snd (lift r)).
Proof. constructor. Qed.

Lemma trace_perform {A} (c : Call) (r : Outcome A) :
  P c -> Forall P (snd (perform c r)).
Proof. intros H. repeat constructor. exact H. Qed.

Lemma trace_bind {A B} (m : M A) (k : A -> M B) :
  Forall P (snd m) -> (forall a, Forall P (snd (k a))) ->
  Forall P (snd (bind m k)).
Proof.
  intros Hm Hk. unfold bind. destruct m as [[a|e] t]; [|exact Hm].
  specialize (Hk a). destruct (k a) as [r t']. simpl in *.
  apply Forall_app; split; assumption.
Qed.

Lemma trace_tryCatch {A} (m : M A) (h : Thrown -> M A) :
  Forall P (snd m) -> (forall e, Forall P (snd (h e))) ->
  Forall P (snd (tryCatch m h)).
Proof.
  intros Hm Hh. unfold tryCatch. destruct m as [[a|e] t]; [exact Hm|].
  specialize (Hh e). destruct (h e) as [r t']. simpl in *.
  apply Forall_app; split; assumption.
Qed.

Lemma trace_mapM {A B} (f : A -> M B) (l : list A) :
  (forall x, Forall P (snd (f x))) -> Forall P (snd (mapM f l)).
Proof.
  intros Hf. induction l as [|x l IH]; simpl; [constructor|].
  apply trace_bind; [apply Hf|]. intros y.
  apply trace_bind; [exact IH|]. intros ys. apply trace_ret.
Qed.
End TraceInvariant.

(** One step of a proof that every call of a computation satisfies a
    property: through the operations of the monad and the case
    distinctions of the code. *)
Ltac trace_step :=
  match goal with
  | |- Forall _ (snd (ret _)) => apply trace_ret
  | |- Forall _ (snd (lift _)) => apply trace_lift
  | |- Forall _ (snd (throw _)) => constructor
  | |- Forall _ (snd (perform _ _)) => apply trace_perform; simpl; auto
  | |- Forall _ (snd (bind _ _)) => apply trace_bind; [|intros ?]
  | |- Forall _ (snd (tryCatch _ _)) => apply trace_tryCatch; [|intros ?]
  | |- Forall _ (snd (mapM _ _)) => apply trace_mapM; intros ?
  | |- Forall _ (snd (match ?x with _ => _ end)) => destruct x
  | |- Forall _ (snd (let _ := _ in _)) => cbv zeta
  end.

Lemma lookup_readOnly rt host encodedName :
  Forall Notions.readOnly
    (snd (PathUtils.getProjectPathFromEncodedName rt host encodedName)).
Proof.
  destruct (getProjectPathFromEncodedName_result rt host encodedName)
    as [t [E F]].
  rewrite E. simpl. eapply Forall_impl; [|exact F].
  intros c [h [_ [-> | ->]]]; exact I.
Qed.

(** X12.  List, ReadContent and Download leave the filesystem as it is:
    whatever the request and whatever the runtime answers, none of them
    creates a directory or writes a file. *)
Theorem file_handlers_read_only
    (rt : Runtime) (host : Host) (req : Request) :
  Forall Notions.readOnly (snd (handleFilesList rt host req)) /\
  Forall Notions.readOnly (snd (handleFileContent rt host req)) /\
  Forall Notions.readOnly (snd (handleFileDownload rt host req)).
Proof.
  split; [|split].
  - unfold handleFilesList, fileInfoOf.
    repeat first [apply lookup_readOnly | trace_step].
  - unfold handleFileContent, previewFile.
    repeat first [apply lookup_readOnly | trace_step].
  - unfold handleFileDownload.
    repeat first [apply lookup_readOnly | trace_step].
Qed.

(** X11.  The three file handlers never let an exception escape: whatever
    the request and whatever the runtime and the engine answer or throw,
    each ends with a response, and its status is one of 200, 400, 403, 404
    and 500, for ReadContent also 413 and 415. *)
Theorem file_handlers_always_respond
    (rt : Runtime) (host : Host) (req : Request) :
  (exists resp t,
      handleFilesList rt host req = (Ret resp, t) /\
      In (status resp) Notions.listStatuses) /\
  (exists resp t,
      handleFileContent rt host req = (Ret resp, t) /\
      In (status resp) Notions.contentStatuses) /\
  (exists resp t,
      handleFileDownload rt host req = (Ret resp, t) /\
      In (status resp) Notions.downloadStatuses).
Proof.
  unfold Notions.listStatuses, Notions.contentStatuses,
    Notions.downloadStatuses.
  split; [|split].
  - unfold handleFilesList. fx.
    crack; eexists; eexists; (split; [reflexivity | simpl; tauto]).
  - unfold handleFileContent, previewFile. fx.
    crack; eexists; eexists; (split; [reflexivity | simpl; tauto]).
  - unfold handleFileDownload. fx.
    crack; eexists; eexists; (split; [reflexivity | simpl; tauto]).
Qed.

(* ================================================================== *)
(** ** ReadContent and Download on what is not a file *)

Section TargetReached.
Variable rt : Runtime.
Variable host : Host.
Variable req : Request.
Variables encodedName root p : jsstring.

Hypothesis Hname : param_encodedProjectName req = Some encodedName.
Hypothesis Hne : encodedName <> [].
Hypothesis Hloc : Spec.locate rt host encodedName = Some root.
Hypothesis Hroot : root <> [].
Hypothesis Hpath : param_path req = Some p.
Hypothesis Hpne : p <> [].

Let lookup := PathUtils.getProjectPathFromEncodedName rt host encodedName.

(** X15.  For a resolved project and a path that passes the boundary
    check, ReadContent and Download answer 404 when the resolved path does
    not exist, having only asked whether it exists, and 400 when it is a
    directory, having only asked that and its metadata: in neither case is
    any content read. *)
Theorem missing_or_directory :
  (~ Spec.Traversal p ->
   exists_ rt (safeResolvePath root p) = Ret false ->
   handleFileContent rt host req
   = (Ret (json (ErrorBody (lit "File not found")) 404),
      snd lookup ++ [Exists (safeResolvePath root p)])) /\
  (~ Spec.Traversal (withoutDownloadSuffix p) ->
   exists_ rt (safeResolvePath root (withoutDownloadSuffix p)) = Ret false ->
   handleFileDownload rt host req
   = (Ret (json (ErrorBody (lit "File not found")) 404),
      snd lookup ++ [Exists (safeResolvePath root (withoutDownloadSuffix p))]))
  /\
  (forall st,
      ~ Spec.Traversal p ->
      exists_ rt (safeResolvePath root p) = Ret true ->
      stat rt (safeResolvePath root p) = Ret st ->
      stat_isDirectory st = true ->
      handleFileContent rt host req
      = (Ret (json (ErrorBody (lit "Cannot read directory content")) 400),
         snd lookup ++ [Exists (safeResolvePath root p);
                        Stat (safeResolvePath root p)])) /\
  (forall st,
      ~ Spec.Traversal (withoutDownloadSuffix p) ->
      exists_ rt (safeResolvePath root (withoutDownloadSuffix p)) = Ret true ->
      stat rt (safeResolvePath root (withoutDownloadSuffix p)) = Ret st ->
      stat_isDirectory st = true ->
      handleFileDownload rt host req
      = (Ret (json (ErrorBody (lit "Cannot download directory")) 400),
         snd lookup ++
         [Exists (safeResolvePath root (withoutDownloadSuffix p));
          Stat (safeResolvePath root (withoutDownloadSuffix p))])).
Proof.
  subst lookup.
  destruct (getProjectPathFromEncodedName_result rt host encodedName)
    as [t [E _]].
  destruct encodedName as [|c n]; [congruence|].
  destruct p as [|p0 p']; [congruence|].
  destruct root as [|r0 root']; [congruence|].
  unfold handleFileContent, handleFileDownload.
  rewrite Hname, Hpath, E, Hloc. fx. simpl snd.
  split; [|split; [|split]].
  - intros Hs Hex. rewrite (not_traversal Hs), Hex. simpl.
    rewrite ?app_nil_r. reflexivity.
  - intros Hs Hex. rewrite (not_traversal Hs), Hex. simpl.
    rewrite ?app_nil_r. reflexivity.
  - intros st Hs Hex Hst Hdir. rewrite (not_traversal Hs), Hex. simpl.
    rewrite Hst, Hdir. simpl. rewrite ?app_nil_r. reflexivity.
  - intros st Hs Hex Hst Hdir. rewrite (not_traversal Hs), Hex. simpl.
    rewrite Hst, Hdir. simpl. rewrite ?app_nil_r. reflexivity.
Qed.
End TargetReached.

Lemma missing_or_directory_witness :
  handleFileContent Example.runtime Example.host
    (Example.request "-srv-app" "docs")
  = (Ret (json (ErrorBody (lit "Cannot read directory content")) 400),
     [ReadTextFile (lit "/home/u/.claude.json");
      ReadDir (lit "/home/u/.claude/projects");
      Exists (lit "/srv/app/docs"); Stat (lit "/srv/app/docs")]) /\
  fst (handleFileDownload Example.runtime Example.host
         (Example.request "-srv-app" "gone.txt/download"))
  = Ret (json (ErrorBody (lit "File not found")) 404).
Proof.
  assert (Hn : lit "-srv-app" <> []) by discriminate.
  assert (Hr : lit "/srv/app" <> []) by discriminate.
  split.
  - assert (Hp : lit "docs" <> []) by discriminate.
    refine (proj1 (proj2 (proj2 (@missing_or_directory
              Example.runtime Example.host (Example.request "-srv-app" "docs")
              (lit "-srv-app") (lit "/srv/app") (lit "docs")
              eq_refl Hn eq_refl Hr eq_refl Hp)))
              Example.dirStat _ eq_refl eq_refl eq_refl).
    intros H. apply traversal_spec in H. discriminate.
  - assert (Hp : lit "gone.txt/download" <> []) by discriminate.
    pose proof (proj1 (proj2 (@missing_or_directory
              Example.runtime Example.host
              (Example.request "-srv-app" "gone.txt/download")
              (lit "-srv-app") (lit "/srv/app") (lit "gone.txt/download")
              eq_refl Hn eq_refl Hr eq_refl Hp))) as H.
    rewrite H; [reflexivity | | reflexivity].
    intros Ht. apply traversal_spec in Ht. discriminate.
Defined.

(* ================================================================== *)
(** ** Download *)

Lemma endsWith_app (p s : jsstring) : endsWith (p ++ s) s = true.
Proof.
  unfold endsWith. rewrite rev_app_distr. apply startsWith_app.
Qed.

(** X6.  Removing the route suffix undoes appending it: for every path
    [p], the path parameter [p/download] is read as [p]; so a path
    parameter that is itself [d/download] is read as [d].  A parameter
    that does not end with [/download] is read as it is. *)
Theorem withoutDownloadSuffix_appended (p : jsstring) :
  withoutDownloadSuffix (p ++ lit "/download") = p /\
  (endsWith p (lit "/download") = false -> withoutDownloadSuffix p = p).
Proof.
  unfold withoutDownloadSuffix. split.
  - rewrite endsWith_app. unfold slice0neg.
    rewrite length_app. simpl List.length.
    replace (List.length p + 9 - 9)%nat with (List.length p + 0)%nat by lia.
    rewrite firstn_app_2. simpl. apply app_nil_r.
  - intros ->. reflexivity.
Qed.

Lemma withoutDownloadSuffix_appended_witness :
  withoutDownloadSuffix (lit "src/main.ts") = lit "src/main.ts".
Proof.
  apply (proj2 (withoutDownloadSuffix_appended (lit "src/main.ts"))).
  reflexivity.
Defined.

Section DownloadReached.
Variable rt : Runtime.
Variable host : Host.
Variable req : Request.
Variables encodedName root p : jsstring.
Variable st : FileStats.
Variable buffer : list N.

Hypothesis Hname : param_encodedProjectName req = Some encodedName.
Hypothesis Hne : encodedName <> [].
Hypothesis Hloc : Spec.locate rt host encodedName = Some root.
Hypothesis Hroot : root <> [].
Hypothesis Hpath : param_path req = Some p.
Hypothesis Hpne : p <> [].

Let filePath := withoutDownloadSuffix p.
Let fullPath := safeResolvePath root filePath.
Let filename :=
  orDefault (Some (last (split slash filePath) [])) (lit "download").

Hypothesis Hsafe : ~ Spec.Traversal filePath.
Hypothesis Hexists : exists_ rt fullPath = Ret true.
Hypothesis Hstat : stat rt fullPath = Ret st.
Hypothesis Hfile : stat_isDirectory st = false.
Hypothesis Hread : readBinaryFile rt fullPath = Ret buffer.
Hypothesis Hwf : isWellFormed filename = true.

(** X14.  Download has no size ceiling.  For a resolved project and an
    accepted path to an existing file, whatever the size in its metadata,
    the file is read whole in one call and sent with status 200: the body
    is the bytes read, [Content-Length] is their number in decimal,
    [Content-Type] comes from the extension of the last path segment and
    [Content-Disposition] names that segment. *)
Theorem handleFileDownload_sends_whole_file :
  exists disposition,
    contentDisposition filename = Ret disposition /\
    handleFileDownload rt host req
    = (Ret (json (FileBytes buffer
                    (getMimeType (getFileExtension host filename))
                    disposition
                    (numberToString (N.of_nat (List.length buffer)))) 200),
       snd (PathUtils.getProjectPathFromEncodedName rt host encodedName)
       ++ [Exists fullPath; Stat fullPath; ReadBinaryFile fullPath]).
Proof.
  assert (Hd : exists disposition, contentDisposition filename = Ret disposition).
  { unfold contentDisposition.
    destruct (encodeURIComponent_wellFormed filename Hwf) as [e ->].
    destruct (hasNonAscii filename); eexists; reflexivity. }
  destruct Hd as [disposition Hd]. exists disposition.
  split; [exact Hd|].
  destruct (getProjectPathFromEncodedName_result rt host encodedName)
    as [t [E _]].
  pose proof (not_traversal Hsafe) as Htrav.
  unfold handleFileDownload. rewrite Hname, Hpath.
  destruct encodedName as [|c n]; [congruence|].
  destruct p as [|p0 p']; [congruence|].
  rewrite E, Hloc. destruct root as [|r0 root']; [congruence|].
  fx. fold filePath. rewrite Htrav. fold fullPath. rewrite Hexists.
  cbn [negb]. rewrite Hstat, Hfile, Hread. fold filename. rewrite Hd.
  simpl. rewrite ?app_nil_r, <- ?app_assoc. reflexivity.
Qed.
End DownloadReached.

Lemma handleFileDownload_sends_whole_file_witness :
  exists disposition,
    fst (handleFileDownload Example.runtime Example.host
           (Example.request "-srv-app" "big.bin/download"))
    = Ret (json (FileBytes [1; 2; 3]%N
                   (MimeString (lit "application/octet-stream"))
                   disposition (lit "3")) 200).
Proof.
  assert (Hn : lit "-srv-app" <> []) by discriminate.
  assert (Hr : lit "/srv/app" <> []) by discriminate.
  assert (Hp : lit "big.bin/download" <> []) by discriminate.
  assert (Hs : ~ Spec.Traversal (withoutDownloadSuffix (lit "big.bin/download"))).
  { intros H. apply traversal_spec in H. discriminate. }
  destruct (@handleFileDownload_sends_whole_file
              Example.runtime Example.host
              (Example.request "-srv-app" "big.bin/download")
              (lit "-srv-app") (lit "/srv/app") (lit "big.bin/download")
              (Example.fileStat 10485760) [1; 2; 3]%N
              eq_refl Hn eq_refl Hr eq_refl Hp Hs
              eq_refl eq_refl eq_refl eq_refl eq_refl)
    as [disposition [_ H]].
  exists disposition. rewrite H. reflexivity.
Defined.

(* ================================================================== *)
(** ** What a listing holds *)

Lemma insert_perm {A} (cmp : A -> A -> Z) (x : A) (l : list A) :
  Permutation (x :: l) (insert cmp x l).
Proof.
  induction l as [|y l IH]; simpl; [reflexivity|].
  destruct (Z.leb (cmp x y) 0); [reflexivity|].
  rewrite perm_swap. apply perm_skip. exact IH.
Qed.

Lemma sort_perm {A} (cmp : A -> A -> Z) (l : list A) :
  Permutation l (sort cmp l).
Proof.
  induction l as [|x l IH]; simpl; [reflexivity|].
  rewrite <- insert_perm. apply perm_skip. exact IH.
Qed.

Lemma fileInfoOf_result rt host (targetPath pathParam : jsstring)
    (entry : DirectoryEntry) :
  exists info,
    fileInfoOf rt host targetPath pathParam entry
    = (Ret info, [Stat (targetPath ++ lit "/" ++ entry_name entry)]) /\
    Notions.describes pathParam entry info /\
    ((exists e, stat rt (targetPath ++ lit "/" ++ entry_name entry) = Throw e)
     -> Notions.bare info).
Proof.
  unfold fileInfoOf, Notions.describes, Notions.bare, Notions.entryPath. fx.
  destruct (stat rt (targetPath ++ lit "/" ++ entry_name entry)) as [st|e].
  - destruct (stat_mtime st) as [d|].
    + destruct (toISOString host d) as [iso|e]; simpl;
        eexists; (split; [reflexivity|]); simpl;
        (split; [repeat split|]); try (intros [e' H]; discriminate);
        intros _; repeat split.
    + simpl. eexists. split; [reflexivity|]. simpl.
      split; [repeat split|]. intros [e' H]; discriminate.
  - simpl. eexists. split; [reflexivity|]. simpl.
    split; [repeat split|]. intros _. repeat split.
Qed.

Lemma mapM_fileInfoOf rt host (targetPath pathParam : jsstring)
    (entries : list DirectoryEntry) :
  exists infos,
    mapM (fileInfoOf rt host targetPath pathParam) entries
    = (Ret infos,
       map (fun entry => Stat (targetPath ++ lit "/" ++ entry_name entry))
           entries) /\
    Forall2 (fun entry info =>
               Notions.describes pathParam entry info /\
               ((exists e, stat rt (targetPath ++ lit "/" ++ entry_name entry)
                           = Throw e) -> Notions.bare info))
            entries infos.
Proof.
  induction entries as [|entry rest IH].
  - exists []. split; [reflexivity | constructor].
  - destruct IH as [infos [E F]].
    destruct (fileInfoOf_result rt host targetPath pathParam entry)
      as [info [E1 [D1 B1]]].
    exists (info :: infos). split.
    + cbn [mapM]. unfold bind at 1. rewrite E1. unfold bind. rewrite E.
      simpl. rewrite ?app_nil_r. reflexivity.
    + constructor; [split; assumption | exact F].
Qed.

Section ListReached.
Variable rt : Runtime.
Variable host : Host.
Variable req : Request.
Variables encodedName root pathParam : jsstring.
Variable entries : list DirectoryEntry.

Hypothesis Hname : param_encodedProjectName req = Some encodedName.
Hypothesis Hne : encodedName <> [].
Hypothesis Hloc : Spec.locate rt host encodedName = Some root.
Hypothesis Hroot : root <> [].
Hypothesis Hpath : orDefault (query_path req) [] = pathParam.
Hypothesis Hsafe : ~ Spec.Traversal pathParam.

Let targetPath := Spec.targetOf root pathParam.

Hypothesis Hexists : exists_ rt targetPath = Ret true.
Hypothesis Hdir : readDir rt targetPath = Ret entries.

(** X16.  A listing holds every entry of the directory once and nothing
    else.  For a resolved project and an accepted path to a directory that
    exists and can be read, List answers 200 with the requested path
    echoed and a rearrangement of one [FileInfo] for each directory entry,
    carrying the name of the entry, its path relative to the project root
    and its type; an entry whose [stat] throws is still listed, without
    size, time and extension.  [stat] is called once for each entry, in
    the order of the directory. *)
Theorem handleFilesList_lists_every_entry :
  exists infos files,
    Forall2 (fun entry info =>
               Notions.describes pathParam entry info /\
               ((exists e, stat rt (targetPath ++ lit "/" ++ entry_name entry)
                           = Throw e) -> Notions.bare info))
            entries infos /\
    Permutation infos files /\
    handleFilesList rt host req
    = (Ret (json (FilesListResponse files pathParam) 200),
       snd (PathUtils.getProjectPathFromEncodedName rt host encodedName)
       ++ [Exists targetPath; ReadDir targetPath]
       ++ map (fun entry => Stat (targetPath ++ lit "/" ++ entry_name entry))
              entries).
Proof.
  destruct (mapM_fileInfoOf rt host targetPath pathParam entries)
    as [infos [E F]].
  exists infos, (sort (compareFiles host) infos).
  split; [exact F|]. split; [apply sort_perm|].
  destruct (getProjectPathFromEncodedName_result rt host encodedName)
    as [t [El _]].
  pose proof (not_traversal Hsafe) as Htrav.
  unfold handleFilesList. rewrite Hname.
  destruct encodedName as [|c n]; [congruence|].
  rewrite El, Hloc. destruct root as [|r0 root']; [congruence|].
  fx. rewrite Hpath, Htrav.
  fold (Spec.targetOf (r0 :: root') pathParam). fold targetPath.
  rewrite Hexists. cbn [negb]. rewrite Hdir, E.
  simpl. rewrite ?app_nil_r, <- ?app_assoc. reflexivity.
Qed.
End ListReached.

Lemma handleFilesList_lists_every_entry_witness :
  exists files,
    Permutation (map name files)
      [lit "b.txt"; lit "docs"; lit "big.bin"; lit "Zed.md"; lit "big.txt";
       lit "mid.bin"] /\
    fst (handleFilesList Example.runtime Example.host
           (Example.request "-srv-app" ""))
    = Ret (json (FilesListResponse files []) 200).
Proof.
  assert (Hn : lit "-srv-app" <> []) by discriminate.
  assert (Hr : lit "/srv/app" <> []) by discriminate.
  assert (Hs : ~ Spec.Traversal []).
  { intros H. apply traversal_spec in H. discriminate. }
  destruct (@handleFilesList_lists_every_entry
              Example.runtime Example.host (Example.request "-srv-app" "")
              (lit "-srv-app") (lit "/srv/app") []
              [ Example.fileEntry "b.txt"; Example.dirEntry "docs";
                Example.fileEntry "big.bin"; Example.fileEntry "Zed.md";
                Example.fileEntry "big.txt"; Example.fileEntry "mid.bin" ]
              eq_refl Hn eq_refl Hr eq_refl Hs eq_refl eq_refl)
    as [infos [files [F [Hperm H]]]].
  exists files. split; [|rewrite H; reflexivity].
  rewrite <- Hperm.
  repeat match goal with
         | F : Forall2 _ _ _ |- _ => inversion F; subst; clear F
         end.
  repeat match goal with
         | H : Notions.describes _ _ _ /\ _ |- _ =>
             destruct H as [[H _] _]
         end.
  simpl in *. repeat match goal with H : name _ = _ |- _ => rewrite H; clear H end.
  reflexivity.
Defined.

(* ================================================================== *)
(** ** How the resolver treats the segments of a path *)

Lemma split_nonempty (sep : N) (s : jsstring) : split sep s <> [].
Proof.
  induction s as [|c s IH]; simpl; [discriminate|].
  destruct (N.eqb c sep); [discriminate|].
  destruct (split sep s); discriminate.
Qed.

Lemma join_split (sep : N) (s : jsstring) : join [sep] (split sep s) = s.
Proof.
  induction s as [|c s IH]; [reflexivity|].
  pose proof (split_nonempty sep s) as Hne.
  simpl. destruct (N.eqb_spec c sep) as [->|Hc].
  - destruct (split sep s) as [|w ws]; [congruence|].
    change (join [sep] ([] :: w :: ws)) with (sep :: join [sep] (w :: ws)).
    rewrite IH. reflexivity.
  - destruct (split sep s) as [|w ws]; [congruence|].
    rewrite <- IH. destruct ws; reflexivity.
Qed.

Lemma split_app (sep : N) (a b : jsstring) :
  split sep (a ++ sep :: b) = split sep a ++ split sep b.
Proof.
  induction a as [|c a IH]; simpl.
  - rewrite N.eqb_refl. reflexivity.
  - destruct (N.eqb c sep); [rewrite IH; reflexivity|].
    rewrite IH. pose proof (split_nonempty sep a) as Hne.
    destruct (split sep a) as [|w ws]; [congruence | reflexivity].
Qed.

Lemma join_snoc (sep : jsstring) (parts : list jsstring) (w : jsstring) :
  parts <> [] -> join sep (parts ++ [w]) = join sep parts ++ sep ++ w.
Proof.
  induction parts as [|x parts IH]; [congruence|]. intros _.
  destruct parts as [|y parts]; [reflexivity|].
  change (join sep ((x :: y :: parts) ++ [w]))
    with (x ++ sep ++ join sep ((y :: parts) ++ [w])).
  rewrite IH by discriminate.
  change (join sep (x :: y :: parts)) with (x ++ sep ++ join sep (y :: parts)).
  rewrite <- !app_assoc. reflexivity.
Qed.

Lemma filter_kept_strip (s : jsstring) :
  filter Notions.kept (split slash (stripLeadingSlashes s))
  = filter Notions.kept (split slash s).
Proof.
  induction s as [|c s IH]; [reflexivity|].
  cbn [stripLeadingSlashes]. destruct (N.eqb c slash) eqn:E; [|reflexivity].
  rewrite IH. cbn [split]. rewrite E. reflexivity.
Qed.

Lemma safeResolvePath_parts (basePath relativePath : jsstring) :
  safeResolvePath basePath relativePath
  = basePath ++ lit "/" ++
    join (lit "/") (filter Notions.kept (split slash relativePath)).
Proof.
  unfold safeResolvePath.
  change (fun part : jsstring =>
            negb (eqb part []) && negb (eqb part (lit ".")) &&
            negb (eqb part (lit ".."))) with Notions.kept.
  rewrite filter_kept_strip. reflexivity.
Qed.

Lemma filter_all {A} (f : A -> bool) (l : list A) :
  Forall (fun x => f x = true) l -> filter f l = l.
Proof.
  induction 1 as [|x l Hx _ IH]; simpl; [reflexivity|].
  rewrite Hx, IH. reflexivity.
Qed.

(** X7.  The resolver deletes segments, it does not apply them.  For a
    path given by its segments, the resolved path is the root followed by
    the segments that are not empty, not [.] and not [..], in their order:
    a [..] does not remove the segment before it.  A path whose segments
    are all of that kind resolves to the root, a slash and the path
    itself. *)
Theorem safeResolvePath_segments (basePath : jsstring)
    (segments : list jsstring) :
  segments <> [] ->
  Forall (fun s => ~ In slash s) segments ->
  safeResolvePath basePath (join (lit "/") segments)
  = basePath ++ lit "/" ++ join (lit "/") (filter Notions.kept segments) /\
  (Forall (fun s => Notions.kept s = true) segments ->
   safeResolvePath basePath (join (lit "/") segments)
   = basePath ++ lit "/" ++ join (lit "/") segments).
Proof.
  intros Hne Hfree.
  assert (H : safeResolvePath basePath (join (lit "/") segments)
              = basePath ++ lit "/" ++
                join (lit "/") (filter Notions.kept segments)).
  { rewrite safeResolvePath_parts. change (lit "/") with [slash].
    rewrite split_join by assumption. reflexivity. }
  split; [exact H|].
  intros Hkept. rewrite H, (filter_all _ Hkept). reflexivity.
Qed.

Lemma safeResolvePath_segments_witness :
  safeResolvePath (lit "/srv/app") (lit "docs/../../etc//./passwd")
  = lit "/srv/app/docs/etc/passwd".
Proof.
  assert (Hne : [lit "docs"; lit ".."; lit ".."; lit "etc"; [];
                 lit "."; lit "passwd"] <> []) by discriminate.
  refine (proj1 (@safeResolvePath_segments (lit "/srv/app")
                   [lit "docs"; lit ".."; lit ".."; lit "etc"; [];
                    lit "."; lit "passwd"] Hne _)).
  repeat constructor; simpl; intros H;
    repeat (destruct H as [H|H]; [discriminate|]); exact H.
Defined.

(** X8.  Resolution is idempotent on what it returns: the part of a
    resolved path after the root and its slash resolves, under any root,
    to that root, a slash and the same part. *)
Theorem safeResolvePath_fixed_point (basePath relativePath : jsstring) :
  exists rest,
    safeResolvePath basePath relativePath = basePath ++ lit "/" ++ rest /\
    forall otherBase,
      safeResolvePath otherBase rest = otherBase ++ lit "/" ++ rest.
Proof.
  rewrite safeResolvePath_parts.
  set (parts := filter Notions.kept (split slash relativePath)).
  exists (join (lit "/") parts). split; [reflexivity|]. intros otherBase.
  destruct parts as [|w ws] eqn:E; [reflexivity|].
  assert (Hfree : Forall (fun s => ~ In slash s) (w :: ws)).
  { rewrite <- E. unfold parts. apply Forall_forall. intros s Hs.
    apply filter_In in Hs. destruct Hs as [Hs _].
    pose proof (split_no_sep slash relativePath) as H.
    rewrite Forall_forall in H. auto. }
  assert (Hkept : Forall (fun s => Notions.kept s = true) (w :: ws)).
  { rewrite <- E. unfold parts. apply Forall_forall. intros s Hs.
    apply filter_In in Hs. tauto. }
  rewrite safeResolvePath_parts. change (lit "/") with [slash].
  rewrite split_join; [| discriminate | exact Hfree].
  rewrite (filter_all _ Hkept). reflexivity.
Qed.

Lemma split_head_prefix (sep : N) (s x : jsstring) (xs : list jsstring) :
  split sep s = x :: xs -> exists r, s = x ++ r.
Proof.
  revert x xs. induction s as [|d s IH]; simpl; intros x xs E.
  - inversion E; subst. exists []. reflexivity.
  - destruct (N.eqb d sep).
    + inversion E; subst. exists (d :: s). reflexivity.
    + pose proof (split_nonempty sep s) as Hne.
      destruct (split sep s) as [|y ys]; [congruence|].
      inversion E as [[Hx Hxs]]. destruct (IH y _ eq_refl) as [r ->].
      exists r. reflexivity.
Qed.

Lemma in_split_infix (sep : N) (s w : jsstring) :
  In w (split sep s) -> exists a b, s = a ++ w ++ b.
Proof.
  revert w. induction s as [|c s IH]; intros w; simpl.
  - intros [<-|[]]. exists [], []. reflexivity.
  - destruct (N.eqb c sep).
    + intros [<-|H]; [exists [], (c :: s); reflexivity|].
      destruct (IH w H) as [a [b ->]]. exists (c :: a), b. reflexivity.
    + pose proof (split_nonempty sep s) as Hne.
      destruct (split sep s) as [|x xs] eqn:E; [congruence|].
      intros [<-|H].
      * destruct (split_head_prefix sep s E) as [r ->].
        exists [], r. reflexivity.
      * destruct (IH w (or_intror H)) as [a [b ->]].
        exists (c :: a), b. reflexivity.
Qed.

(** X9.  On a path the boundary check accepts, two safeguards of the
    resolver have nothing left to do: the path has no leading slash to
    remove and none of its segments is [..]; the resolver then only drops
    empty segments and [.] segments. *)
Theorem accepted_path_has_no_dotdot (p : jsstring) :
  ~ Spec.Traversal p ->
  stripLeadingSlashes p = p /\
  ~ In (lit "..") (split slash p) /\
  filter Notions.kept (split slash p)
  = filter (fun s => negb (eqb s []) && negb (eqb s (lit ".")))
           (split slash p).
Proof.
  intros Hsafe.
  assert (Hdd : ~ In (lit "..") (split slash p)).
  { intros Hin. apply in_split_infix in Hin. apply Hsafe. left. exact Hin. }
  split; [|split; [exact Hdd|]].
  - destruct p as [|c p']; [reflexivity|]. cbn [stripLeadingSlashes].
    destruct (N.eqb_spec c slash) as [->|_]; [|reflexivity].
    exfalso. apply Hsafe. right. exists p'. reflexivity.
  - apply filter_ext_in. intros s Hs. unfold Notions.kept.
    destruct (eqb s (lit "..")) eqn:E; [|rewrite andb_true_r; reflexivity].
    apply eqb_eq in E. subst s. contradiction.
Qed.

Lemma accepted_path_has_no_dotdot_witness :
  stripLeadingSlashes (lit "docs/./notes.md") = lit "docs/./notes.md" /\
  filter Notions.kept (split slash (lit "docs/./notes.md"))
  = [lit "docs"; lit "notes.md"].
Proof.
  destruct (@accepted_path_has_no_dotdot (lit "docs/./notes.md"))
    as [H1 [_ H3]].
  - intros H. apply traversal_spec in H. discriminate.
  - split; [exact H1 | rewrite H3; reflexivity].
Defined.

(** X10.  The path List reports for an entry leads ReadContent and
    Download to the file List looked at.  When the listed path is the
    root, or has at least one segment the resolver keeps, and the name of
    the entry is one segment the resolver keeps, resolving the reported
    path gives the listed directory, a slash and the name: the path List
    passed to [stat]. *)
Theorem listed_path_resolves_to_entry
    (root pathParam entryName : jsstring) :
  pathParam = [] \/
  (exists s, In s (split slash pathParam) /\ Notions.kept s = true) ->
  ~ In slash entryName ->
  Notions.kept entryName = true ->
  safeResolvePath root (Notions.entryPath pathParam entryName)
  = Spec.targetOf root pathParam ++ lit "/" ++ entryName.
Proof.
  intros Hpp Hfree Hkept.
  assert (Hname : filter Notions.kept (split slash entryName) = [entryName]).
  { rewrite split_single by exact Hfree. simpl. rewrite Hkept. reflexivity. }
  destruct pathParam as [|c pp].
  - simpl. rewrite safeResolvePath_parts, Hname. reflexivity.
  - destruct Hpp as [Hpp | [s [Hin Hs]]]; [discriminate|].
    unfold Notions.entryPath, Spec.targetOf.
    rewrite !safeResolvePath_parts.
    change (lit "/" ++ entryName) with (slash :: entryName).
    rewrite split_app, filter_app, Hname.
    rewrite join_snoc.
    + rewrite <- !app_assoc. reflexivity.
    + intros Hnil.
      assert (Hs' : In s (filter Notions.kept (split slash (c :: pp))))
        by (apply filter_In; tauto).
      rewrite Hnil in Hs'. exact Hs'.
Qed.

Lemma listed_path_resolves_to_entry_witness :
  safeResolvePath (lit "/srv/app") (lit "docs//api/index.md")
  = safeResolvePath (lit "/srv/app") (lit "docs//api") ++ lit "/index.md".
Proof.
  refine (@listed_path_resolves_to_entry
            (lit "/srv/app") (lit "docs//api") (lit "index.md") _ _ eq_refl).
  - right. exists (lit "docs"). split; [left; reflexivity | reflexivity].
  - simpl. intros H.
    repeat (destruct H as [H|H]; [discriminate|]); exact H.
Defined.

(* ================================================================== *)
(** ** Upload: refusals, failures and the name of the staged file *)

(** X13.  Upload refuses before it touches the filesystem: a form that
    cannot be read is answered 500, a form without a file 400 and a form
    without a session identifier, or with an empty one, 400, each with
    [success] false and without any call.  Whatever the request, Upload
    ends with a response, never reads, and [success] is true exactly when
    the status is 200. *)
Theorem handleUpload_refusals
    (rt : Runtime) (host : Host) (formData : Outcome Upload.FormData) :
  (forall e, formData = Throw e ->
     exists msg,
       Upload.handleUpload rt host formData
       = (Ret (Upload.json (Upload.failure msg) 500), [])) /\
  (forall form, formData = Ret form -> Upload.form_file form = None ->
     Upload.handleUpload rt host formData
     = (Ret (Upload.json (Upload.failure (lit "No file provided")) 400), []))
  /\
  (forall form file,
     formData = Ret form -> Upload.form_file form = Some file ->
     falsy (Upload.form_sessionId form) = true ->
     Upload.handleUpload rt host formData
     = (Ret (Upload.json (Upload.failure (lit "No session ID provided")) 400),
        [])) /\
  (exists resp t,
     Upload.handleUpload rt host formData = (Ret resp, t) /\
     In (Upload.status resp) [200; 400; 500]%N /\
     (Upload.success (Upload.body resp) = true <->
      Upload.status resp = 200%N) /\
     Forall Notions.writes t).
Proof.
  split; [|split; [|split]].
  - intros e ->. unfold Upload.handleUpload. fx. destruct e; eexists;
      reflexivity.
  - intros form -> Hf. unfold Upload.handleUpload. fx. rewrite Hf.
    reflexivity.
  - intros form file -> Hf Hs. unfold Upload.handleUpload. fx. rewrite Hf.
    unfold falsy in Hs.
    destruct (Upload.form_sessionId form) as [[|c s]|];
      (discriminate || reflexivity).
  - unfold Upload.handleUpload, Upload.ensureDir. fx.
    crack; eexists; eexists; (split; [reflexivity|]); simpl;
      (split; [tauto|]); (split; [split; (discriminate || reflexivity)|]);
      repeat constructor.
Qed.

Lemma handleUpload_refusals_witness :
  Upload.handleUpload Example.runtime Example.host
    (Ret {| Upload.form_file :=
              Some {| Upload.file_name := lit "a.txt";
                      Upload.file_bytes := [] |};
            Upload.form_sessionId := Some [];
            Upload.form_workingDirectory := None |})
  = (Ret (Upload.json (Upload.failure (lit "No session ID provided")) 400),
     []).
Proof.
  exact (proj1 (proj2 (proj2 (handleUpload_refusals
           Example.runtime Example.host
           (Ret {| Upload.form_file :=
                     Some {| Upload.file_name := lit "a.txt";
                             Upload.file_bytes := [] |};
                   Upload.form_sessionId := Some [];
                   Upload.form_workingDirectory := None |}))))
           _ {| Upload.file_name := lit "a.txt"; Upload.file_bytes := [] |}
           eq_refl eq_refl eq_refl).
Defined.

Lemma digits_decimal (u : Decimal.uint) :
  Forall (fun c => (48 <= c <= 57)%N) (digits u).
Proof. induction u; simpl; constructor; (lia || assumption). Qed.

Lemma safeFileName_alphabet (fileName : jsstring) :
  Forall Notions.stagedNameUnit (Upload.safeFileName fileName).
Proof.
  pose proof (safeFileName_sanitized fileName) as H.
  induction H as [|c d l l' Hcd _ IH]; constructor; [|exact IH].
  unfold Notions.stagedNameUnit.
  destruct Hcd as [[Ha ->] | [_ ->]]; [left; exact Ha | right; reflexivity].
Qed.

(** X19.  No uploaded file name can direct the write elsewhere.  For an
    upload with a file and a non-empty session identifier the only write
    goes to the session directory, a slash and a name made of letters,
    digits, dots, hyphens and underscores, with an underscore in it: the
    name holds no slash and no backslash and is neither [.] nor [..],
    whatever the name of the uploaded file. *)
Theorem handleUpload_staged_name
    (rt : Runtime) (host : Host) (form : Upload.FormData)
    (file : Upload.File) (sessionId : jsstring) :
  Upload.form_file form = Some file ->
  Upload.form_sessionId form = Some sessionId ->
  sessionId <> [] ->
  let baseDir := orDefault (Upload.form_workingDirectory form)
                           (getCurrentWorkingDirectory rt) in
  exists leaf,
    snd (Upload.handleUpload rt host (Ret form))
    = [Mkdir (baseDir ++ lit "/.claude-temp");
       Mkdir (baseDir ++ lit "/.claude-temp/" ++ sessionId);
       WriteBinaryFile
         (baseDir ++ lit "/.claude-temp/" ++ sessionId ++ lit "/" ++ leaf)
         (Upload.file_bytes file)] /\
    Forall Notions.stagedNameUnit leaf /\
    In underscore leaf /\
    ~ In slash leaf /\ ~ In backslash leaf.
Proof.
  intros Hfile Hsid Hne baseDir.
  set (leaf := numberToString (Date_now host) ++ lit "_" ++
               Upload.safeFileName (Upload.file_name file)).
  assert (Hleaf : Forall Notions.stagedNameUnit leaf).
  { unfold leaf. apply Forall_app. split.
    - eapply Forall_impl; [|apply digits_decimal].
      intros c Hc. cbv beta in Hc. left. right. right. left. exact Hc.
    - constructor; [right; reflexivity | apply safeFileName_alphabet]. }
  exists leaf. split; [|split; [exact Hleaf|split; [|split]]].
  - destruct sessionId as [|s0 sid]; [congruence|].
    unfold Upload.handleUpload, Upload.ensureDir. fx.
    rewrite Hfile, Hsid. fold baseDir.
    replace (((baseDir ++ lit "/.claude-temp") ++ lit "/" ++ s0 :: sid) ++
             lit "/" ++ numberToString (Date_now host) ++ lit "_" ++
             Upload.safeFileName (Upload.file_name file))
      with (baseDir ++ lit "/.claude-temp/" ++ (s0 :: sid) ++ lit "/" ++ leaf)
      by (unfold leaf; rewrite <- !app_assoc; reflexivity).
    replace ((baseDir ++ lit "/.claude-temp") ++ lit "/" ++ s0 :: sid)
      with (baseDir ++ lit "/.claude-temp/" ++ s0 :: sid)
      by (rewrite <- !app_assoc; reflexivity).
    destruct (mkdir rt (baseDir ++ lit "/.claude-temp")) as [[]|e1];
      destruct (mkdir rt (baseDir ++ lit "/.claude-temp/" ++ s0 :: sid))
        as [[]|e2];
      destruct (writeBinaryFile rt _ (Upload.file_bytes file)) as [[]|e3];
      reflexivity.
  - unfold leaf. apply in_or_app. right. left. reflexivity.
  - intros Hin. rewrite Forall_forall in Hleaf. specialize (Hleaf _ Hin).
    unfold Notions.stagedNameUnit, Spec.allowedNameChar,
      slash, dot, hyphen, underscore in Hleaf. lia.
  - intros Hin. rewrite Forall_forall in Hleaf. specialize (Hleaf _ Hin).
    unfold Notions.stagedNameUnit, Spec.allowedNameChar,
      backslash, dot, hyphen, underscore in Hleaf. lia.
Qed.

Lemma handleUpload_staged_name_witness :
  exists leaf,
    snd (Upload.handleUpload Example.runtime Example.host
           (Ret {| Upload.form_file :=
                     Some {| Upload.file_name := lit "../../etc/passwd";
                             Upload.file_bytes := [7]%N |};
                   Upload.form_sessionId := Some (lit "s1");
                   Upload.form_workingDirectory := Some (lit "/data") |}))
    = [Mkdir (lit "/data/.claude-temp");
       Mkdir (lit "/data/.claude-temp/s1");
       WriteBinaryFile (lit "/data/.claude-temp/s1/" ++ leaf) [7]%N] /\
    ~ In slash leaf.
Proof.
  assert (Hne : lit "s1" <> []) by discriminate.
  destruct (@handleUpload_staged_name Example.runtime Example.host
              {| Upload.form_file :=
                   Some {| Upload.file_name := lit "../../etc/passwd";
                           Upload.file_bytes := [7]%N |};
                 Upload.form_sessionId := Some (lit "s1");
                 Upload.form_workingDirectory := Some (lit "/data") |}
              _ (lit "s1") eq_refl eq_refl Hne)
    as [leaf [Ht [_ [_ [Hs _]]]]].
  exists leaf. split; [exact Ht | exact Hs].
Defined.

(* ================================================================== *)
(** ** The header value is safe to send *)

Lemma hexDigit_printable (d : N) :
  (d < 16)%N -> Spec.PrintableAscii (hexDigit d).
Proof.
  unfold hexDigit, Spec.PrintableAscii. intros H.
  destruct (N.ltb_spec d 10); lia.
Qed.

Ltac each_unit := repeat first [apply Forall_nil | apply Forall_cons].

Lemma percentByte_printable (b : N) :
  (b < 256)%N -> Forall Spec.PrintableAscii (percentByte b).
Proof.
  intros H. unfold percentByte. each_unit.
  - unfold Spec.PrintableAscii. lia.
  - apply hexDigit_printable. apply N.Div0.div_lt_upper_bound; lia.
  - apply hexDigit_printable. apply N.mod_lt. lia.
Qed.

Lemma utf8_bytes (cp : N) :
  (cp < 1114112)%N -> Forall (fun b => (b < 256)%N) (utf8 cp).
Proof.
  intros H. unfold utf8.
  assert (H64 : forall x, (128 + x mod 64 < 256)%N).
  { intros x. pose proof (N.mod_lt x 64). lia. }
  destruct (N.ltb_spec cp 128); [each_unit; lia|].
  destruct (N.ltb_spec cp 2048).
  { each_unit; [|apply H64].
    assert (cp / 64 < 32)%N by (apply N.Div0.div_lt_upper_bound; lia). lia. }
  destruct (N.ltb_spec cp 65536).
  { each_unit; try apply H64.
    assert (cp / 4096 < 16)%N by (apply N.Div0.div_lt_upper_bound; lia). lia. }
  each_unit; try apply H64.
  assert (cp / 262144 < 16)%N by (apply N.Div0.div_lt_upper_bound; lia). lia.
Qed.

Lemma percentCodePoint_printable (cp : N) :
  (cp < 1114112)%N -> Forall Spec.PrintableAscii (percentCodePoint cp).
Proof.
  intros H. unfold percentCodePoint.
  apply Forall_flat_map. eapply Forall_impl; [|apply (utf8_bytes H)].
  intros b Hb. apply percentByte_printable. exact Hb.
Qed.

Lemma uriUnreserved_printable (c : N) :
  uriUnreserved c = true -> Spec.PrintableAscii c.
Proof.
  unfold uriUnreserved, inRange, Spec.PrintableAscii. cbn [existsb].
  rewrite !orb_true_iff, !andb_true_iff, !N.leb_le, !N.eqb_eq. lia.
Qed.

Lemma encodeURIComponent_printable (s encoded : jsstring) :
  Forall Notions.codeUnit s ->
  encodeURIComponent s = Some encoded ->
  Forall Spec.PrintableAscii encoded.
Proof.
  remember (List.length s) as n eqn:Hn. revert s encoded Hn.
  induction n as [n IH] using lt_wf_ind. intros s encoded Hn Hunits.
  destruct s as [|c rest]; [intros H; inversion H; constructor|].
  inversion Hunits as [|? ? Hc Hrest]; subst.
  cbn [encodeURIComponent].
  assert (IHrest : forall e, encodeURIComponent rest = Some e ->
                             Forall Spec.PrintableAscii e).
  { intros e. apply (IH (List.length rest)); simpl; auto; lia. }
  destruct (uriUnreserved c) eqn:Hu.
  - destruct (encodeURIComponent rest) as [e|]; [|discriminate].
    intros H; inversion H; subst. constructor.
    + apply uriUnreserved_printable; exact Hu.
    + apply IHrest; reflexivity.
  - destruct (isLowSurrogate c); [discriminate|].
    destruct (isHighSurrogate c) eqn:Hhigh.
    + destruct rest as [|lo rest']; [discriminate|].
      destruct (isLowSurrogate lo) eqn:Hlow; [|discriminate].
      inversion Hrest as [|? ? Hlo Hrest']; subst.
      destruct (encodeURIComponent rest') as [e|] eqn:He; [|discriminate].
      intros H; inversion H; subst. apply Forall_app. split.
      * apply percentCodePoint_printable.
        unfold isHighSurrogate, isLowSurrogate, inRange in *.
        rewrite andb_true_iff, !N.leb_le in *. lia.
      * apply (IH (List.length rest')) with (s := rest');
          simpl; auto; lia.
    + destruct (encodeURIComponent rest) as [e|]; [|discriminate].
      intros H; inversion H; subst. apply Forall_app. split.
      * apply percentCodePoint_printable. unfold Notions.codeUnit in Hc. lia.
      * apply IHrest; reflexivity.
Qed.

Lemma asciiFilename_printable (filename : jsstring) :
  Forall (fun c => Spec.PrintableAscii c /\ c <> quote /\ c <> backslash)
         (asciiFilename filename).
Proof.
  pose proof (asciiFilename_fallback filename) as H.
  induction H as [|c d l l' Hcd _ IH]; constructor; [|exact IH].
  destruct Hcd as [[Hp [Hq [Hb ->]]] | [_ ->]]; [tauto|].
  unfold Spec.PrintableAscii, underscore, quote, backslash. lia.
Qed.

Lemma lit_printable_header :
  Forall Spec.PrintableAscii (lit "attachment; filename=") /\
  Forall Spec.PrintableAscii (lit "; filename*=UTF-8''").
Proof.
  split; cbn; each_unit; unfold Spec.PrintableAscii; lia.
Qed.

(** X17.  Whenever a [Content-Disposition] value is produced for a file
    name of UTF-16 code units, every character of it is printable ASCII:
    it holds no control character, so no line break, and nothing outside
    ASCII, whatever the file name. *)
Theorem contentDisposition_printable (filename value : jsstring) :
  Forall Notions.codeUnit filename ->
  contentDisposition filename = Ret value ->
  Forall Spec.PrintableAscii value.
Proof.
  intros Hunits. unfold contentDisposition.
  destruct lit_printable_header as [Hh1 Hh2].
  assert (Hq : Forall Spec.PrintableAscii [quote])
    by (each_unit; unfold Spec.PrintableAscii, quote; lia).
  destruct (hasNonAscii filename) eqn:Hna.
  - destruct (encodeURIComponent filename) as [encoded|] eqn:He;
      [|discriminate].
    intros H.
    assert (Hv : value = lit "attachment; filename=" ++ [quote] ++
                         asciiFilename filename ++ [quote] ++
                         lit "; filename*=UTF-8''" ++ encoded) by congruence.
    rewrite Hv.
    apply Forall_app; split; [exact Hh1|].
    apply Forall_app; split; [exact Hq|].
    apply Forall_app; split;
      [eapply Forall_impl; [|apply asciiFilename_printable];
       intros c [Hc _]; exact Hc|].
    apply Forall_app; split; [exact Hq|].
    apply Forall_app; split; [exact Hh2|].
    exact (encodeURIComponent_printable Hunits He).
  - intros H.
    assert (Hv : value = lit "attachment; filename=" ++ [quote] ++
                         safeFilename filename ++ [quote]) by congruence.
    rewrite Hv.
    apply Forall_app; split; [exact Hh1|].
    apply Forall_app; split; [exact Hq|].
    apply Forall_app; split; [|exact Hq].
    unfold safeFilename. apply Forall_flat_map. apply Forall_forall.
    intros c Hc.
    assert (Hp : Spec.PrintableAscii c).
    { apply printable_spec. unfold hasNonAscii in Hna.
      destruct (printable c) eqn:E; [reflexivity|].
      assert (existsb (fun c => negb (printable c)) filename = true).
      { apply existsb_exists. exists c. rewrite E. tauto. }
      congruence. }
    destruct (quoteOrBackslash c); each_unit; auto.
    unfold Spec.PrintableAscii, backslash. lia.
Qed.

Lemma contentDisposition_printable_witness :
  exists value,
    contentDisposition [20320; 10; 55357; 56832; 46; 116]%N = Ret value /\
    Forall Spec.PrintableAscii value.
Proof.
  eexists. split; [reflexivity|].
  apply (@contentDisposition_printable [20320; 10; 55357; 56832; 46; 116]%N).
  - each_unit; unfold Notions.codeUnit; lia.
  - reflexivity.
Defined.

Lemma safeFilename_eq (a b : jsstring) :
  safeFilename a = safeFilename b -> a = b.
Proof.
  unfold safeFilename, quoteOrBackslash. revert b.
  induction a as [|c a IH]; intros [|d b]; simpl.
  - reflexivity.
  - destruct (N.eqb d quote || N.eqb d backslash); discriminate.
  - destruct (N.eqb c quote || N.eqb c backslash); discriminate.
  - destruct (N.eqb c quote || N.eqb c backslash) eqn:Ec;
      destruct (N.eqb d quote || N.eqb d backslash) eqn:Ed;
      simpl; intros H; inversion H; subst.
    + f_equal. apply IH. assumption.
    + rewrite N.eqb_refl, orb_true_r in Ed. discriminate.
    + rewrite N.eqb_refl, orb_true_r in Ec. discriminate.
    + f_equal. apply IH. assumption.
Qed.

(** X18.  Escaping loses nothing: two different file names have different
    escaped forms, so different printable names get different header
    values; a name with a quote and the name with that quote already
    escaped do not meet. *)
Theorem safeFilename_injective (a b : jsstring) :
  a <> b -> safeFilename a <> safeFilename b.
Proof. intros Hab H. apply Hab. apply safeFilename_eq. exact H. Qed.

Lemma safeFilename_injective_witness :
  eqb (safeFilename (lit "a" ++ [quote]))
      (safeFilename (lit "a" ++ [backslash; quote])) = false.
Proof.
  apply eqb_neq.
  apply (@safeFilename_injective (lit "a" ++ [quote])
                                 (lit "a" ++ [backslash; quote])).
  discriminate.
Defined.

(* ================================================================== *)
(** ** Extensions and MIME types *)

Lemma lastIndexOf_none (c : N) (s : jsstring) :
  ~ In c s -> lastIndexOf c s = None.
Proof.
  induction s as [|a s IH]; [reflexivity|]. intros H. simpl.
  rewrite IH by (intros Hin; apply H; right; exact Hin).
  destruct (N.eqb_spec a c) as [->|_]; [|reflexivity].
  exfalso. apply H. left. reflexivity.
Qed.

Lemma lastIndexOf_last (c : N) (a b : jsstring) :
  ~ In c b -> lastIndexOf c (a ++ c :: b) = Some (List.length a).
Proof.
  intros Hb. induction a as [|x a IH]; simpl.
  - rewrite (@lastIndexOf_none _ _ Hb), N.eqb_refl. reflexivity.
  - rewrite IH. reflexivity.
Qed.

(** X20.  The extension of a name is what follows its last dot, in lower
    case: for a name with no dot it is empty, and for a name that is some
    text, a dot and a dot-free rest it is the lower-cased rest, so the
    empty rest of a name ending with a dot is lower-cased too and a name
    that begins with its only dot has the rest of the name as its
    extension. *)
Theorem getFileExtension_after_last_dot (host : Host) (filename : jsstring) :
  (~ In dot filename -> getFileExtension host filename = []) /\
  (forall stem rest,
      filename = stem ++ dot :: rest -> ~ In dot rest ->
      getFileExtension host filename = toLowerCase host rest).
Proof.
  unfold getFileExtension. split.
  - intros H. rewrite (@lastIndexOf_none _ _ H). reflexivity.
  - intros stem rest -> Hrest. rewrite (@lastIndexOf_last _ stem _ Hrest).
    f_equal. unfold substring.
    replace (List.length stem + 1)%nat with (List.length (stem ++ [dot]) + 0)%nat
      by (rewrite length_app; simpl; lia).
    change (stem ++ dot :: rest) with (stem ++ [dot] ++ rest).
    rewrite app_assoc, skipn_app, Nat.add_0_r, skipn_all.
    replace (List.length (stem ++ [dot]) - List.length (stem ++ [dot]))%nat
      with 0%nat by lia.
    reflexivity.
Qed.

Lemma getFileExtension_after_last_dot_witness :
  getFileExtension Example.host (lit "archive.TAR.GZ") = lit "gz" /\
  getFileExtension Example.host (lit ".gitignore") = lit "gitignore" /\
  getFileExtension Example.host (lit "Makefile") = [].
Proof.
  split; [|split].
  - refine (proj2 (getFileExtension_after_last_dot
                     Example.host (lit "archive.TAR.GZ"))
                  (lit "archive.TAR") (lit "GZ") eq_refl _).
    simpl. intros H. repeat (destruct H as [H|H]; [discriminate|]). exact H.
  - refine (proj2 (getFileExtension_after_last_dot
                     Example.host (lit ".gitignore"))
                  [] (lit "gitignore") eq_refl _).
    simpl. intros H. repeat (destruct H as [H|H]; [discriminate|]). exact H.
  - refine (proj1 (getFileExtension_after_last_dot
                     Example.host (lit "Makefile")) _).
    simpl. intros H. repeat (destruct H as [H|H]; [discriminate|]). exact H.
Defined.

Lemma getMimeType_inherited (extension : jsstring) :
  In extension objectPrototypeKeys ->
  getMimeType extension = InheritedMember extension.
Proof.
  unfold objectPrototypeKeys. simpl.
  intros H.
  repeat (destruct H as [<-|H]; [reflexivity|]). destruct H.
Qed.

Section InheritedExtension.
Variable rt : Runtime.
Variable host : Host.
Variable req : Request.
Variables encodedName root p : jsstring.
Variable st : FileStats.

Hypothesis Hname : param_encodedProjectName req = Some encodedName.
Hypothesis Hne : encodedName <> [].
Hypothesis Hloc : Spec.locate rt host encodedName = Some root.
Hypothesis Hroot : root <> [].
Hypothesis Hpath : param_path req = Some p.
Hypothesis Hpne : p <> [].
Hypothesis Hsafe : ~ Spec.Traversal p.
Hypothesis Hexists : exists_ rt (safeResolvePath root p) = Ret true.
Hypothesis Hstat : stat rt (safeResolvePath root p) = Ret st.
Hypothesis Hfile : stat_isDirectory st = false.
Hypothesis Hsize : (stat_size st <= 10 * Spec.MiB)%N.
Hypothesis Hext : In (getFileExtension host p) objectPrototypeKeys.

(** X21.  The MIME table is an object literal, so an extension that
    names a member every object inherits, such as [constructor] or
    [__proto__], finds that member and not a string.  ReadContent on an
    existing file of at most 10 MiB with such an extension ends in the
    500 answer, after the metadata and without reading the file. *)
Theorem handleFileContent_inherited_extension :
  exists resp,
    status resp = 500%N /\
    handleFileContent rt host req
    = (Ret resp,
       snd (PathUtils.getProjectPathFromEncodedName rt host encodedName)
       ++ [Exists (safeResolvePath root p); Stat (safeResolvePath root p)]).
Proof.
  rewrite (@handleFileContent_previewFile rt host req encodedName root p st)
    by assumption.
  unfold previewFile.
  assert (Hs : N.ltb maxSize (stat_size st) = false).
  { apply N.ltb_ge. exact Hsize. }
  rewrite Hs, (getMimeType_inherited Hext). fx. simpl.
  eexists. split; [|rewrite ?app_nil_r; reflexivity]. reflexivity.
Qed.
End InheritedExtension.

Lemma handleFileContent_inherited_extension_witness :
  exists resp,
    status resp = 500%N /\
    fst (handleFileContent
           (Scenario.withFile (lit "/srv/app/notes.constructor")
                              (Example.fileStat 12))
           Example.host (Example.request "-srv-app" "notes.constructor"))
    = Ret resp.
Proof.
  assert (Hn : lit "-srv-app" <> []) by discriminate.
  assert (Hr : lit "/srv/app" <> []) by discriminate.
  assert (Hp : lit "notes.constructor" <> []) by discriminate.
  assert (Hs : ~ Spec.Traversal (lit "notes.constructor")).
  { intros H. apply traversal_spec in H. discriminate. }
  assert (Hsz : (stat_size (Example.fileStat 12) <= 10 * Spec.MiB)%N)
    by (vm_compute; discriminate).
  assert (Hext : In (getFileExtension Example.host (lit "notes.constructor"))
                    objectPrototypeKeys) by (left; reflexivity).
  destruct (@handleFileContent_inherited_extension
              (Scenario.withFile (lit "/srv/app/notes.constructor")
                                 (Example.fileStat 12))
              Example.host (Example.request "-srv-app" "notes.constructor")
              (lit "-srv-app") (lit "/srv/app") (lit "notes.constructor")
              (Example.fileStat 12)
              eq_refl Hn eq_refl Hr eq_refl Hp Hs eq_refl eq_refl eq_refl
              Hsz Hext) as [resp [Hst H]].
  exists resp. split; [exact Hst | rewrite H; reflexivity].
Defined.

(* ================================================================== *)
(** ** The browser side *)

(** X22.  The page shown by the PDF preview stays a page of the document:
    from a page between 1 and the number of pages, or page 1 while the
    number of pages is unknown or zero, no sequence of presses of the
    previous and next buttons leads below 1 or past the last page. *)
Theorem pdf_page_in_range (numPages : option Z)
    (presses : list Client.PageButton) (pageNumber : Z) :
  match numPages with Some n => (0 <= n)%Z | None => True end ->
  (1 <= pageNumber <= Client.orOne numPages)%Z ->
  (1 <= fold_left (Client.press numPages) presses pageNumber
     <= Client.orOne numPages)%Z.
Proof.
  intros Hn. revert pageNumber.
  assert (Hone : (1 <= Client.orOne numPages)%Z).
  { unfold Client.orOne. destruct numPages as [[|n|n]|]; lia. }
  induction presses as [|b presses IH]; intros pageNumber Hp; [exact Hp|].
  simpl. apply IH.
  unfold Client.press, Client.goToPrevPage, Client.goToNextPage.
  destruct b; lia.
Qed.

Lemma pdf_page_in_range_witness :
  (1 <= fold_left (Client.press (Some 3%Z))
          [Client.Next; Client.Next; Client.Next; Client.Next;
           Client.Previous] 1%Z <= 3)%Z.
Proof.
  apply (@pdf_page_in_range (Some 3%Z)
           [Client.Next; Client.Next; Client.Next; Client.Next;
            Client.Previous] 1%Z).
  - lia.
  - simpl. lia.
Defined.

Lemma filterIndex_removes {A} (l : list A) (start : nat) (index : Z) :
  Client.filterIndex (fun _ i => negb (Z.eqb (Z.of_nat i) index)) start l
  = if ((Z.of_nat start <=? index) &&
        (index <? Z.of_nat (start + List.length l)))%Z
    then firstn (Z.to_nat index - start) l
         ++ skipn (S (Z.to_nat index - start)) l
    else l.
Proof.
  revert start. induction l as [|x l IH]; intros start.
  - cbn [Client.filterIndex]. destruct (_ && _); [|reflexivity].
    destruct (Z.to_nat index - start)%nat; reflexivity.
  - cbn [Client.filterIndex List.length]. rewrite IH. clear IH.
    destruct (Z.eqb_spec (Z.of_nat start) index) as [E|E];
      simpl negb; cbv iota.
    + assert (H1 : ((Z.of_nat (S start) <=? index) &&
                    (index <? Z.of_nat (S start + List.length l)))%Z = false).
      { apply andb_false_iff. left. apply Z.leb_gt. lia. }
      assert (H2 : ((Z.of_nat start <=? index) &&
                    (index <? Z.of_nat (start + S (List.length l))))%Z = true).
      { apply andb_true_iff.
        split; [apply Z.leb_le | apply Z.ltb_lt]; lia. }
      rewrite H1, H2.
      replace (Z.to_nat index - start)%nat with 0%nat by lia. reflexivity.
    + destruct ((Z.of_nat (S start) <=? index) &&
                (index <? Z.of_nat (S start + List.length l)))%Z eqn:C.
      * apply andb_true_iff in C. destruct C as [C1 C2].
        apply Z.leb_le in C1. apply Z.ltb_lt in C2.
        assert (H2 : ((Z.of_nat start <=? index) &&
                      (index <? Z.of_nat (start + S (List.length l))))%Z
                     = true).
        { apply andb_true_iff.
          split; [apply Z.leb_le | apply Z.ltb_lt]; lia. }
        rewrite H2.
        replace (Z.to_nat index - start)%nat
          with (S (Z.to_nat index - S start)) by lia.
        reflexivity.
      * assert (H2 : ((Z.of_nat start <=? index) &&
                      (index <? Z.of_nat (start + S (List.length l))))%Z
                     = false).
        { apply andb_false_iff. apply andb_false_iff in C.
          destruct C as [C|C].
          - left. apply Z.leb_gt. apply Z.leb_gt in C. lia.
          - right. apply Z.ltb_ge. apply Z.ltb_ge in C. lia. }
        rewrite H2. reflexivity.
Qed.

(** X23.  Removing an attached file by its index takes out that file and
    no other: for an index within the list the result is the files before
    it followed by the files after it, one shorter than before; for any
    other index, negative or past the end, the list is unchanged. *)
Theorem removeFile_at_index {A} (files : list A) (index : Z) :
  ((0 <= index < Z.of_nat (List.length files))%Z ->
   Client.removeFile files index
   = firstn (Z.to_nat index) files ++ skipn (S (Z.to_nat index)) files /\
   S (List.length (Client.removeFile files index)) = List.length files) /\
  ((index < 0 \/ Z.of_nat (List.length files) <= index)%Z ->
   Client.removeFile files index = files).
Proof.
  unfold Client.removeFile. rewrite filterIndex_removes. simpl Z.of_nat.
  rewrite Nat.sub_0_r. split.
  - intros [H0 H1].
    replace ((0 <=? index)%Z) with true by (symmetry; apply Z.leb_le; lia).
    replace ((index <? Z.of_nat (List.length files))%Z) with true
      by (symmetry; apply Z.ltb_lt; lia).
    cbn [andb]. split; [reflexivity|].
    rewrite length_app, length_firstn, length_skipn. lia.
  - intros [H|H].
    + replace ((0 <=? index)%Z) with false by (symmetry; apply Z.leb_gt; lia).
      reflexivity.
    + replace ((index <? Z.of_nat (List.length files))%Z) with false
        by (symmetry; apply Z.ltb_ge; lia).
      rewrite andb_false_r. reflexivity.
Qed.

Lemma removeFile_at_index_witness :
  Client.removeFile [lit "a.txt"; lit "b.txt"; lit "c.txt"] 1
  = [lit "a.txt"; lit "c.txt"] /\
  Client.removeFile [lit "a.txt"; lit "b.txt"; lit "c.txt"] 3
  = [lit "a.txt"; lit "b.txt"; lit "c.txt"].
Proof.
  split.
  - refine (proj1 (proj1 (@removeFile_at_index _
                     [lit "a.txt"; lit "b.txt"; lit "c.txt"] 1%Z) _)).
    simpl; lia.
  - refine (proj2 (@removeFile_at_index _
                     [lit "a.txt"; lit "b.txt"; lit "c.txt"] 3%Z) _).
    right. simpl; lia.
Defined.

Lemma join_nonempty (sep : jsstring) (parts : list jsstring) :
  parts <> [] -> Forall (fun n => n <> []) parts -> join sep parts <> [].
Proof.
  intros Hne Hall. destruct parts as [|w ws]; [congruence|].
  inversion Hall as [|? ? Hw _]; subst.
  destruct ws; simpl; [exact Hw|].
  destruct w; [congruence | discriminate].
Qed.

Lemma newPath_join (names : list jsstring) :
  Forall (fun n => n <> []) names ->
  fold_left Client.newPath names [] = join (lit "/") names.
Proof.
  induction names as [|n names IH] using rev_ind; [reflexivity|].
  intros Hall. apply Forall_app in Hall. destruct Hall as [Hnames Hn].
  rewrite fold_left_app. simpl. rewrite (IH Hnames).
  destruct names as [|m names']; [reflexivity|].
  rewrite join_snoc by discriminate.
  unfold Client.newPath.
  pose proof (@join_nonempty (lit "/") (m :: names')
                ltac:(discriminate) Hnames) as Hj.
  destruct (join (lit "/") (m :: names')); [congruence | reflexivity].
Qed.

Lemma Forall_prefix {A} (P : A -> Prop) (n : nat) (l : list A) :
  Forall P l -> Forall P (firstn n l).
Proof.
  intros H. rewrite <- (firstn_skipn n l) in H.
  apply Forall_app in H. tauto.
Qed.

Lemma mapIndex_ext {A B} (f g : A -> nat -> B) (i : nat) (l : list A) :
  (forall x j, f x j = g x j) ->
  Client.mapIndex f i l = Client.mapIndex g i l.
Proof.
  intros H. revert i. induction l as [|x l IH]; intros i; simpl;
    [reflexivity|]. rewrite H, IH. reflexivity.
Qed.

(** X24.  Each breadcrumb of the file manager leads back to the directory
    it names.  After entering the directories [n1], ..., [nk] one after
    the other from the root, their names being non-empty and free of
    slashes, the breadcrumbs are labelled [n1], ..., [nk] in that order
    and the one labelled [ni] sets the path that was current after
    entering [n1], ..., [ni]. *)
Theorem breadcrumbs_lead_back (names : list jsstring) :
  Forall (fun n => n <> [] /\ ~ In slash n) names ->
  Client.breadcrumbs (fold_left Client.newPath names [])
  = Client.mapIndex
      (fun n i => (n, fold_left Client.newPath (firstn (i + 1) names) []))
      0 names.
Proof.
  intros Hall.
  assert (Hne : Forall (fun n => n <> []) names)
    by (eapply Forall_impl; [|exact Hall]; intros n [H _]; exact H).
  assert (Hfree : Forall (fun n => ~ In slash n) names)
    by (eapply Forall_impl; [|exact Hall]; intros n [_ H]; exact H).
  unfold Client.breadcrumbs. rewrite (newPath_join Hne).
  assert (Hsegs : filter (fun s => negb (eqb s []))
                         (split slash (join (lit "/") names)) = names).
  { destruct names as [|n names']; [reflexivity|].
    change (lit "/") with [slash].
    rewrite split_join; [| discriminate | exact Hfree].
    apply filter_all. eapply Forall_impl; [|exact Hne].
    intros s Hs. apply negb_true_iff. apply eqb_neq. exact Hs. }
  rewrite Hsegs. apply mapIndex_ext. intros n j. f_equal.
  symmetry. apply newPath_join. apply Forall_prefix. exact Hne.
Qed.

Lemma breadcrumbs_lead_back_witness :
  Client.breadcrumbs (lit "src/backend/handlers")
  = [(lit "src", lit "src");
     (lit "backend", lit "src/backend");
     (lit "handlers", lit "src/backend/handlers")].
Proof.
  refine (@breadcrumbs_lead_back
            [lit "src"; lit "backend"; lit "handlers"] _).
  repeat (apply Forall_cons || apply Forall_nil);
    (split; [discriminate|]); simpl; intros H;
    repeat (destruct H as [H|H]; [discriminate|]); exact H.
Defined.

(* ================================================================== *)
(** ** The upload client *)

(** X25.  [uploadFile] never throws and never reports a success the
    server did not give: a result with [success] true is the body of a
    response that was [ok].  A response that is not [ok] becomes a failure
    without a path, whose error is the error of the body or, when the body
    has none, [Upload failed:] and the status text; a failing [fetch] or
    an unreadable body becomes a failure as well. *)
Theorem uploadFile_reports
    (fetch : Upload.FormData -> Outcome Client.FetchResponse)
    (file : Client.File) (sessionId : jsstring)
    (workingDirectory : option jsstring) :
  let form := Client.formOf file sessionId workingDirectory in
  let result := Client.uploadFile fetch file sessionId workingDirectory in
  (Upload.success result = true ->
   exists response,
     fetch form = Ret response /\ Client.ok response = true /\
     Client.json response = Ret result) /\
  (forall response body,
     fetch form = Ret response -> Client.json response = Ret body ->
     Client.ok response = false ->
     result
     = {| Upload.success := false;
          Upload.filePath := None;
          Upload.error :=
            Some (orDefault (Upload.error body)
                    (lit "Upload failed: " ++ Client.statusText response)) |})
  /\
  ((exists e, fetch form = Throw e) \/
   (exists response e,
      fetch form = Ret response /\ Client.json response = Throw e) ->
   Upload.success result = false /\ Upload.filePath result = None).
Proof.
  cbv zeta. unfold Client.uploadFile.
  destruct (fetch (Client.formOf file sessionId workingDirectory))
    as [response|e].
  - destruct (Client.json response) as [body|e] eqn:Hj.
    + destruct (Client.ok response) eqn:Hok; simpl.
      * split; [|split].
        -- intros _. exists response. auto.
        -- intros r b Hr Hb Hk. inversion Hr; subst. congruence.
        -- intros [[e H] | [r [e [Hr He]]]]; [discriminate|].
           inversion Hr; subst. congruence.
      * split; [|split].
        -- discriminate.
        -- intros r b Hr Hb Hk. inversion Hr; subst.
           rewrite Hj in Hb. inversion Hb; subst. reflexivity.
        -- intros _. split; reflexivity.
    + split; [|split]; simpl.
      * discriminate.
      * intros r b Hr Hb. inversion Hr; subst. congruence.
      * intros _. split; reflexivity.
  - split; [|split]; simpl.
    + discriminate.
    + intros r b Hr. discriminate.
    + intros _. split; reflexivity.
Qed.

Lemma uploadFile_reports_witness :
  Client.uploadFile
    (fun _ => Ret {| Client.ok := false;
                     Client.statusText := lit "Payload Too Large";
                     Client.json := Ret (Upload.failure []) |})
    {| Client.name := lit "a.bin"; Client.type := []; Client.bytes := [] |}
    (lit "s1") None
  = {| Upload.success := false;
       Upload.filePath := None;
       Upload.error := Some (lit "Upload failed: Payload Too Large") |}.
Proof.
  exact (proj1 (proj2 (@uploadFile_reports
           (fun _ => Ret {| Client.ok := false;
                            Client.statusText := lit "Payload Too Large";
                            Client.json := Ret (Upload.failure []) |})
           {| Client.name := lit "a.bin"; Client.type := [];
              Client.bytes := [] |}
           (lit "s1") None)) _ _ eq_refl eq_refl eq_refl).
Defined.

Lemma handleUpload_shape rt host (formData : Outcome Upload.FormData) :
  exists response t,
    Upload.handleUpload rt host formData = (Ret response, t) /\
    ((Upload.status response = 200%N /\
      Upload.success (Upload.body response) = true) \/
     (exists msg,
        (Upload.status response = 400%N \/ Upload.status response = 500%N) /\
        Upload.body response = Upload.failure msg)).
Proof.
  unfold Upload.handleUpload, Upload.ensureDir. fx.
  crack; eexists; eexists; (split; [reflexivity|]); simpl;
    first [left; split; reflexivity
          | right; eexists; split; [|reflexivity]; tauto].
Qed.

(** X26.  The client hands on what the server answered.  When the form
    [uploadFile] sends reaches [handleUpload], the handler ends with a
    response, and unless that response carries an empty error message the
    result of [uploadFile] is its body: the staged path on success, and on
    a refusal or a failure the same error. *)
Theorem uploadFile_over_handleUpload
    (statusTextOf : N -> jsstring) (rt : Runtime) (host : Host)
    (file : Client.File) (sessionId : jsstring)
    (workingDirectory : option jsstring) :
  exists response t,
    Upload.handleUpload rt host
      (Ret (Client.formOf file sessionId workingDirectory))
    = (Ret response, t) /\
    (Upload.error (Upload.body response) <> Some [] ->
     Client.uploadFile (Client.served statusTextOf rt host)
                       file sessionId workingDirectory
     = Upload.body response).
Proof.
  destruct (handleUpload_shape rt host
              (Ret (Client.formOf file sessionId workingDirectory)))
    as [response [t [Hrun Hshape]]].
  exists response, t. split; [exact Hrun|]. intros Hne.
  unfold Client.uploadFile, Client.served. rewrite Hrun. simpl.
  destruct Hshape as [[Hst _] | [msg [Hst Hbody]]].
  - rewrite Hst. reflexivity.
  - assert (Hok : inRange 200 299 (Upload.status response) = false)
      by (destruct Hst as [-> | ->]; reflexivity).
    rewrite Hok, Hbody. simpl.
    destruct msg; [|reflexivity].
    exfalso. apply Hne. rewrite Hbody. reflexivity.
Qed.

Lemma uploadFile_over_handleUpload_witness :
  Client.uploadFile (Client.served (fun _ => []) Example.runtime Example.host)
    {| Client.name := lit "notes (1).md"; Client.type := lit "text/markdown";
       Client.bytes := [35; 32; 104; 105]%N |}
    (lit "s1") (Some [])
  = {| Upload.success := true;
       Upload.filePath :=
         Some (lit ".claude-temp/s1/1700000000123_notes__1_.md");
       Upload.error := None |}.
Proof.
  destruct (@uploadFile_over_handleUpload (fun _ => [])
              Example.runtime Example.host
              {| Client.name := lit "notes (1).md";
                 Client.type := lit "text/markdown";
                 Client.bytes := [35; 32; 104; 105]%N |}
              (lit "s1") (Some [])) as [response [t [Hrun Hsame]]].
  vm_compute in Hrun. inversion Hrun; subst response t.
  apply Hsame. discriminate.
Defined.

(* ================================================================== *)
(** ** Selecting files to attach *)

Section FileSelect.
Variable formatFileSize : N -> jsstring.
Variable upload :
  Client.File -> jsstring -> option jsstring -> Upload.UploadResponse.
Variables sessionId workingDirectory : option jsstring.

Lemma processFile_entry (file : Client.File) :
  Notions.entryOf file
    (fst (Client.processFile formatFileSize upload
            sessionId workingDirectory file)) /\
  snd (Client.processFile formatFileSize upload
         sessionId workingDirectory file)
  = if falsy sessionId then []
    else if N.leb (Client.size file) Client.MAX_FILE_SIZE then [file] else [].
Proof.
  unfold Client.processFile, Client.validateFile, Notions.entryOf.
  destruct (N.ltb_spec Client.MAX_FILE_SIZE (Client.size file)) as [Hbig|Hok].
  - simpl. split; [repeat split; discriminate|].
    replace (N.leb (Client.size file) Client.MAX_FILE_SIZE) with false
      by (symmetry; apply N.leb_gt; exact Hbig).
    destruct (falsy sessionId); reflexivity.
  - replace (N.leb (Client.size file) Client.MAX_FILE_SIZE) with true
      by (symmetry; apply N.leb_le; exact Hok).
    destruct sessionId as [[|c s]|]; simpl;
      try (split; [repeat split; lia | reflexivity]).
    destruct (Upload.success _ && _); simpl;
      (split; [repeat split; lia | reflexivity]).
Qed.

(** X27.  Selecting files gives one entry for each selected file, in
    order, with its name and size.  Nothing is reported for an empty
    selection.  A file over 50 MiB is never handed to [uploadFile] and its
    entry carries an error; without a session identifier no file is
    uploaded at all; with one, exactly the files of at most 50 MiB are
    uploaded, in the order selected. *)
Theorem handleFileSelect_entries (files : option (list Client.File)) :
  (files = None \/ files = Some [] ->
   Client.handleFileSelect formatFileSize upload files
     sessionId workingDirectory = (None, [])) /\
  (forall selected,
     files = Some selected -> selected <> [] ->
     exists entries,
       fst (Client.handleFileSelect formatFileSize upload files
              sessionId workingDirectory) = Some entries /\
       Forall2 Notions.entryOf selected entries /\
       snd (Client.handleFileSelect formatFileSize upload files
              sessionId workingDirectory)
       = if falsy sessionId then []
         else filter (fun f => N.leb (Client.size f) Client.MAX_FILE_SIZE)
                     selected).
Proof.
  split.
  - intros [-> | ->]; reflexivity.
  - intros selected -> Hne. unfold Client.handleFileSelect.
    destruct selected as [|f0 rest]; [congruence|].
    generalize (f0 :: rest) as l. clear. intros l.
    eexists. split; [reflexivity|]. simpl fst. simpl snd.
    induction l as [|f l [IH1 IH2]]; simpl.
    + split; [constructor|]. destruct (falsy sessionId); reflexivity.
    + destruct (processFile_entry f) as [He Hu].
      split; [constructor; assumption|].
      rewrite Hu, IH2.
      destruct (falsy sessionId); [reflexivity|].
      destruct (N.leb (Client.size f) Client.MAX_FILE_SIZE); reflexivity.
Qed.
End FileSelect.

Lemma handleFileSelect_entries_witness :
  snd (Client.handleFileSelect (fun _ => lit "?")
         (fun _ _ _ => Upload.failure (lit "offline"))
         (Some [ {| Client.name := lit "a.txt"; Client.type := [];
                    Client.bytes := [1; 2]%N |};
                 {| Client.name := lit "b.txt"; Client.type := [];
                    Client.bytes := [] |} ])
         None None) = [].
Proof.
  destruct (proj2 (@handleFileSelect_entries (fun _ => lit "?")
              (fun _ _ _ => Upload.failure (lit "offline")) None None
              (Some [ {| Client.name := lit "a.txt"; Client.type := [];
                         Client.bytes := [1; 2]%N |};
                      {| Client.name := lit "b.txt"; Client.type := [];
                         Client.bytes := [] |} ]))
            _ eq_refl ltac:(discriminate)) as [entries [_ [_ H]]].
  exact H.
Defined.
